(** * cxx2: the incremental-build decision engine of [main.go]

    A shallow embedding of the build orchestrator: source classification,
    the staleness cache, header resolution, the package-hint policy and the
    build planner, followed by the properties of the specification that
    concern them.

    Conventions of the model.
    - Go strings are byte strings; they are [string]s here, and the
      [strings] / [path/filepath] functions the program calls are written
      out on their character lists.  Case folding ([strings.ToLower]) and
      white space ([strings.Fields]) are the ASCII ones.
    - [path/filepath] is the Unix implementation (separator [/]).
    - The file system, the clock-stamped metadata [os.Stat] returns, the
      working directory and the persisted cache make up a [World]; child
      processes (compiler, linker, test binaries, pkg-config, docker) are a
      [Host], an arbitrary function from an argument vector and a world to
      an exit status and a new world.
    - Every function that prints, runs a process or touches the cache
      appends to a log of [Event]s, so that what a run did can be stated.  *)

From Stdlib Require Import ZArith String Ascii List Bool Lia.
From stdpp Require Import gmap strings list.

Open Scope string_scope.
Open Scope Z_scope.
Set Warnings "-register-all".

(** ** Strings: the functions of Go's [strings] package that are used *)

Module Strings.

Definition chars (s : string) : list ascii := list_ascii_of_string s.
Definition str (l : list ascii) : string := string_of_list_ascii l.

Definition lowerChar (c : ascii) : ascii :=
  let n := nat_of_ascii c in
  if ((65 <=? n) && (n <=? 90))%nat then ascii_of_nat (n + 32) else c.

(** [strings.ToLower] *)
Definition ToLower (s : string) : string := str (map lowerChar (chars s)).

Fixpoint prefixL (p l : list ascii) : bool :=
  match p, l with
  | [], _ => true
  | _ :: _, [] => false
  | c :: p', d :: l' => Ascii.eqb c d && prefixL p' l'
  end.

(** [strings.HasPrefix] *)
Definition HasPrefix (s p : string) : bool := prefixL (chars p) (chars s).

(** [strings.HasSuffix] *)
Definition HasSuffix (s suf : string) : bool :=
  prefixL (rev (chars suf)) (rev (chars s)).

(** [strings.TrimSuffix] *)
Definition TrimSuffix (s suf : string) : string :=
  if HasSuffix s suf
  then str (firstn (List.length (chars s) - List.length (chars suf)) (chars s))
  else s.

(** [strings.TrimPrefix] *)
Definition TrimPrefix (s p : string) : string :=
  if HasPrefix s p then str (skipn (List.length (chars p)) (chars s)) else s.

Fixpoint containsL (sub l : list ascii) : bool :=
  prefixL sub l ||
  match l with
  | [] => false
  | _ :: l' => containsL sub l'
  end.

(** [strings.Contains] *)
Definition Contains (s sub : string) : bool := containsL (chars sub) (chars s).

Definition isSpace (c : ascii) : bool :=
  let n := nat_of_ascii c in
  (((9 <=? n) && (n <=? 13)) || (n =? 32))%nat.

(** [cur] is the field being read, last character first. *)
Fixpoint fieldsL (cur l : list ascii) : list string :=
  match l with
  | [] => match cur with [] => [] | _ => [str (rev cur)] end
  | c :: l' =>
      if isSpace c
      then match cur with
           | [] => fieldsL [] l'
           | _ => str (rev cur) :: fieldsL [] l'
           end
      else fieldsL (c :: cur) l'
  end.

(** [strings.Fields] *)
Definition Fields (s : string) : list string := fieldsL [] (chars s).

(** [strings.Join] *)
Fixpoint Join (elems : list string) (sep : string) : string :=
  match elems with
  | [] => ""
  | [e] => e
  | e :: rest => e +:+ sep +:+ Join rest sep
  end.

(** [strings.TrimSpace] *)
Fixpoint dropSpaces (l : list ascii) : list ascii :=
  match l with
  | c :: l' => if isSpace c then dropSpaces l' else l
  | [] => []
  end.

Definition TrimSpace (s : string) : string :=
  str (rev (dropSpaces (rev (dropSpaces (chars s))))).

End Strings.

(** ** Paths: the functions of Go's [path/filepath] that are used *)

Module Filepath.
Import Strings.

Definition isSlash (c : ascii) : bool := Ascii.eqb c "/".
Definition isDot (c : ascii) : bool := Ascii.eqb c ".".

Fixpoint dropSlashes (l : list ascii) : list ascii :=
  match l with
  | c :: l' => if isSlash c then dropSlashes l' else l
  | [] => []
  end.

Fixpoint untilSlash (l : list ascii) : list ascii :=
  match l with
  | c :: l' => if isSlash c then [] else c :: untilSlash l'
  | [] => []
  end.

(** [filepath.Base]: the last element of the path, trailing slashes
    removed first; ["."] for the empty path, ["/"] for slashes only.  The
    scan runs over the reversed path. *)
Definition Base (path : string) : string :=
  match chars path with
  | [] => "."
  | _ =>
      match dropSlashes (rev (chars path)) with
      | [] => "/"
      | r => str (rev (untilSlash r))
      end
  end.

(** The loop of [filepath.Ext], from the last character down: [acc] holds
    the characters already passed. *)
Fixpoint extRev (r acc : list ascii) : list ascii :=
  match r with
  | [] => []
  | c :: r' =>
      if isSlash c then []
      else if isDot c then c :: acc
      else extRev r' (c :: acc)
  end.

(** [filepath.Ext]: the suffix from the last dot of the last element. *)
Definition Ext (path : string) : string := str (extRev (rev (chars path)) []).

(** Splitting at every slash; [cur] is the element being read, reversed. *)
Fixpoint splitSlash (cur l : list ascii) : list (list ascii) :=
  match l with
  | [] => [rev cur]
  | c :: l' =>
      if isSlash c then rev cur :: splitSlash [] l' else splitSlash (c :: cur) l'
  end.

(** One element of the path for [filepath.Clean]; [out] is the stack of the
    elements kept so far, last one first. *)
Definition cleanStep (rooted : bool) (out : list (list ascii)) (e : list ascii)
  : list (list ascii) :=
  if decide (e = []) then out
  else if decide (e = chars ".") then out
  else if decide (e = chars "..") then
    match out with
    | top :: out' =>
        if decide (top = chars "..") then e :: out else out'
    | [] => if rooted then out else [e]
    end
  else e :: out.

Fixpoint joinSlash (l : list (list ascii)) : list ascii :=
  match l with
  | [] => []
  | [e] => e
  | e :: rest => e ++ chars "/" ++ joinSlash rest
  end.

(** [filepath.Clean] *)
Definition Clean (path : string) : string :=
  match chars path with
  | [] => "."
  | c :: _ =>
      let rooted := isSlash c in
      let out := rev (fold_left (cleanStep rooted) (splitSlash [] (chars path)) []) in
      match rooted, out with
      | true, _ => str (chars "/" ++ joinSlash out)
      | false, [] => "."
      | false, _ => str (joinSlash out)
      end
  end.

(** [filepath.Join] of two elements: the elements from the first non-empty
    one on are joined with a slash and cleaned. *)
Definition Join (dir name : string) : string :=
  if decide (dir = "") then
    if decide (name = "") then "" else Clean name
  else Clean (dir +:+ "/" +:+ name).

End Filepath.

(** ** Data model *)

(** [Options] of main.go, field for field. *)
Record Options := mkOptions {
  CXX : string;
  Std : string;
  Win64Docker : bool;
  Debug : bool;
  Strict : bool;
  Sloppy : bool;
  Opt : bool;
  Clang : bool;
  Run : bool;
  Test : bool;
  Clean : bool;
  Pro : bool;
  Version : bool;
  MainSource : string;
  OutputName : string;
  DetectedDistro : string;
  Sources : list string;
  TestSources : list string;
  IncludeDirs : list string;
  SystemIncludeDirs : list string;
  ExtraCFlags : list string;
  ExtraLDFlags : list string
}.

(** Field assignments [o.F = v] of the pointer [o *Options]. *)
Definition setCXX (o : Options) (v : string) : Options :=
  mkOptions v (Std o) (Win64Docker o) (Debug o) (Strict o) (Sloppy o) (Opt o) (Clang o)
    (Run o) (Test o) (Clean o) (Pro o) (Version o) (MainSource o) (OutputName o)
    (DetectedDistro o) (Sources o) (TestSources o) (IncludeDirs o) (SystemIncludeDirs o)
    (ExtraCFlags o) (ExtraLDFlags o).

Definition setMainSource (o : Options) (v : string) : Options :=
  mkOptions (CXX o) (Std o) (Win64Docker o) (Debug o) (Strict o) (Sloppy o) (Opt o) (Clang o)
    (Run o) (Test o) (Clean o) (Pro o) (Version o) v (OutputName o)
    (DetectedDistro o) (Sources o) (TestSources o) (IncludeDirs o) (SystemIncludeDirs o)
    (ExtraCFlags o) (ExtraLDFlags o).

Definition setOutputName (o : Options) (v : string) : Options :=
  mkOptions (CXX o) (Std o) (Win64Docker o) (Debug o) (Strict o) (Sloppy o) (Opt o) (Clang o)
    (Run o) (Test o) (Clean o) (Pro o) (Version o) (MainSource o) v
    (DetectedDistro o) (Sources o) (TestSources o) (IncludeDirs o) (SystemIncludeDirs o)
    (ExtraCFlags o) (ExtraLDFlags o).

Definition setDetectedDistro (o : Options) (v : string) : Options :=
  mkOptions (CXX o) (Std o) (Win64Docker o) (Debug o) (Strict o) (Sloppy o) (Opt o) (Clang o)
    (Run o) (Test o) (Clean o) (Pro o) (Version o) (MainSource o) (OutputName o)
    v (Sources o) (TestSources o) (IncludeDirs o) (SystemIncludeDirs o)
    (ExtraCFlags o) (ExtraLDFlags o).

Definition setSources (o : Options) (srcs tests : list string) : Options :=
  mkOptions (CXX o) (Std o) (Win64Docker o) (Debug o) (Strict o) (Sloppy o) (Opt o) (Clang o)
    (Run o) (Test o) (Clean o) (Pro o) (Version o) (MainSource o) (OutputName o)
    (DetectedDistro o) srcs tests (IncludeDirs o) (SystemIncludeDirs o)
    (ExtraCFlags o) (ExtraLDFlags o).

Definition setIncludeDirs (o : Options) (local sys : list string) : Options :=
  mkOptions (CXX o) (Std o) (Win64Docker o) (Debug o) (Strict o) (Sloppy o) (Opt o) (Clang o)
    (Run o) (Test o) (Clean o) (Pro o) (Version o) (MainSource o) (OutputName o)
    (DetectedDistro o) (Sources o) (TestSources o) local sys
    (ExtraCFlags o) (ExtraLDFlags o).

Definition setExtraCFlags (o : Options) (v : list string) : Options :=
  mkOptions (CXX o) (Std o) (Win64Docker o) (Debug o) (Strict o) (Sloppy o) (Opt o) (Clang o)
    (Run o) (Test o) (Clean o) (Pro o) (Version o) (MainSource o) (OutputName o)
    (DetectedDistro o) (Sources o) (TestSources o) (IncludeDirs o) (SystemIncludeDirs o)
    v (ExtraLDFlags o).

Definition setExtraLDFlags (o : Options) (v : list string) : Options :=
  mkOptions (CXX o) (Std o) (Win64Docker o) (Debug o) (Strict o) (Sloppy o) (Opt o) (Clang o)
    (Run o) (Test o) (Clean o) (Pro o) (Version o) (MainSource o) (OutputName o)
    (DetectedDistro o) (Sources o) (TestSources o) (IncludeDirs o) (SystemIncludeDirs o)
    (ExtraCFlags o) v.

(** What [os.Stat] reports of a path, and what [os.ReadFile] returns:
    [modTime] counts nanoseconds since the epoch. *)
Record FileInfo := mkFile {
  isRegular : bool;
  modTime : Z;
  content : string
}.

(** [time.Time.Unix]: whole seconds since the epoch. *)
Definition Unix (t : Z) : Z := t / 1000000000.

(** [time.Time.Before] *)
Definition Before (t u : Z) : bool := t <? u.

(** A directory listing as [filepath.WalkDir] reads it: the entries of a
    directory in the order [os.ReadDir] returns them. *)
Inductive Entry :=
| File (name : string)
| Dir (name : string) (entries : list Entry).

Record World := mkWorld {
  getwd : string;                     (* os.Getwd *)
  listing : list Entry;               (* the tree under "." *)
  files : gmap string FileInfo;       (* os.Stat, os.ReadFile *)
  cxxcache : option (gmap string Z)   (* .cxxcache, decoded; None: absent or malformed *)
}.

(** The machine the program runs on and the processes it starts. *)
Record Host := mkHost {
  GOOS : string;                                           (* runtime.GOOS *)
  distroName : string;                                     (* distrodetector.New().String() *)
  runProcess : list string -> World -> bool * World;       (* exec.Cmd.Run: exit status 0?, world left behind *)
  combinedOutput : list string -> World -> string * bool;  (* exec.Cmd.CombinedOutput: output, err == nil *)
  lookPath : string -> World -> bool;                      (* exec.LookPath: err == nil *)
  mapRange : list string -> list string                    (* order in which a Go map yields these keys *)
}.

(** The error value of a failed child process. *)
Inductive error :=
| ExitError (argv : list string).

Inductive Event :=
| EvPrint (text : string)                (* a line on standard output *)
| EvStale (src obj : string) (b : bool)  (* needsRebuild(src, obj, cc) returned b *)
| EvRun (argv : list string) (ok : bool) (* a child process was run *)
| EvStamp (src : string) (t : Z)         (* cc.Timestamps[src] = t *)
| EvSave                                 (* .cxxcache written *)
| EvCleanup                              (* removeArtifacts *)
| EvProFile (name : string)              (* generateProFile created this file *)
| EvExit (code : Z).                     (* os.Exit, log.Fatal *)

(** The state of a run: the world, the in-memory [*CompileCache] and the
    log of what was done, oldest event first. *)
Record State := mkState {
  world : World;
  cache : gmap string Z;
  log : list Event
}.

Definition M (A : Type) : Type := State -> A * State.

Definition ret {A} (a : A) : M A := fun s => (a, s).

Definition bind {A B} (m : M A) (k : A -> M B) : M B :=
  fun s => match m s with (a, s') => k a s' end.

Notation "x <- m ;; k" := (bind m (fun x => k))
  (at level 100, m at next level, right associativity).
Notation "m ;;; k" := (bind m (fun _ => k))
  (at level 100, right associativity).

Definition emit (e : Event) : M unit :=
  fun s => (tt, mkState (world s) (cache s) (log s ++ [e])).

Definition Println (text : string) : M unit := emit (EvPrint text).

Definition getWorld : M World := fun s => (world s, s).

Definition getCache : M (gmap string Z) := fun s => (cache s, s).

(** [os.Stat] *)
Definition Stat (w : World) (p : string) : option FileInfo := files w !! p.

(** [os.ReadFile] *)
Definition ReadFile (w : World) (p : string) : option string :=
  match files w !! p with
  | Some f => if isRegular f then Some (content f) else None
  | None => None
  end.

(** [fileExists] *)
Definition fileExists (w : World) (p : string) : bool :=
  match Stat w p with
  | Some i => isRegular i
  | None => false
  end.

Import Strings.

Notation "a =s b" := (String.eqb a b) (at level 70, no associativity).

Definition version : string := "2.0.7".

Definition stdIncludesSkipList : list string :=
  [ "algorithm"; "array"; "barrier"; "bit"; "bitset"; "cassert"; "ccomplex";
    "cctype"; "cerrno"; "cfenv"; "cfloat"; "chrono"; "cinttypes"; "ciso646";
    "climits"; "clocale"; "cmath"; "codecvt"; "complex"; "condition_variable";
    "coroutine"; "cstdio"; "cstdlib"; "cstring"; "ctime"; "cwchar"; "cwctype";
    "deque"; "exception"; "execution"; "filesystem"; "format"; "forward_list";
    "fstream"; "functional"; "future"; "initializer_list"; "iomanip"; "ios";
    "iosfwd"; "iostream"; "istream"; "iterator"; "latch"; "limits"; "list";
    "locale"; "map"; "memory"; "mutex"; "new"; "numbers"; "numeric"; "optional";
    "ostream"; "queue"; "random"; "ranges"; "ratio"; "regex"; "scoped_allocator";
    "semaphore"; "set"; "shared_mutex"; "source_location"; "span"; "sstream";
    "stack"; "stdexcept"; "steambuf"; "stop_token"; "streambuf"; "string";
    "string_view"; "strstream"; "syncstream"; "system_error"; "tgmath";
    "thread"; "tuple"; "type_traits"; "typeindex"; "typeinfo"; "unordered_map";
    "unordered_set"; "utility"; "valarray"; "variant"; "vector"; "version";
    "atomic" ].

(** ** Arguments *)

(** The body of the loop of [parseArgs]: the switch on one argument. *)
Definition parseArg (o : Options) (arg : string) : Options :=
  mkOptions
    (if arg =s "--win64-docker" then "x86_64-w64-mingw32-g++"
     else if existsb (String.eqb arg)
               ["run"; "test"; "clean"; "pro"; "--version"; "version"; "debug";
                "strict"; "sloppy"; "opt"; "clang"]
     then CXX o
     else if HasPrefix arg "--cxx=" then TrimPrefix arg "--cxx="
     else if HasPrefix arg "cxx=" then TrimPrefix arg "cxx="
     else CXX o)
    (Std o)
    ((arg =s "--win64-docker") || Win64Docker o)
    ((arg =s "debug") || Debug o)
    ((arg =s "strict") || Strict o)
    ((arg =s "sloppy") || Sloppy o)
    ((arg =s "opt") || Opt o)
    ((arg =s "clang") || Clang o)
    ((arg =s "run") || Run o)
    ((arg =s "test") || Test o)
    ((arg =s "clean") || Clean o)
    ((arg =s "pro") || Pro o)
    ((arg =s "--version") || (arg =s "version") || Version o)
    (MainSource o) (OutputName o) (DetectedDistro o) (Sources o) (TestSources o)
    (IncludeDirs o) (SystemIncludeDirs o) (ExtraCFlags o) (ExtraLDFlags o).

Definition defaultOptions : Options :=
  mkOptions "g++" "c++20" false false false false false false false false false false
    false "" "" "" [] [] [] [] [] [].

(** [parseArgs], over [os.Args[1:]] *)
Definition parseArgs (args : list string) : Options :=
  fold_left parseArg args defaultOptions.

(** [adjustCompiler] *)
Definition adjustCompiler (o : Options) : Options :=
  if Clang o && negb (Win64Docker o) then setCXX o "clang++" else o.

(** ** Source classifier *)

(** The extension test of [discoverSources], on the whole path. *)
Definition isSourcePath (path : string) : bool :=
  let l := ToLower path in
  HasSuffix l ".c" || HasSuffix l ".cc" || HasSuffix l ".cpp" || HasSuffix l ".cxx".

(** The callback of [filepath.WalkDir] over one entry of the directory
    [parent]: a hidden directory is skipped with what is below it, any
    other directory is descended into, a file is kept when its path has a
    source extension. *)
Fixpoint walkEntry (parent : string) (e : Entry) : list string :=
  match e with
  | File name =>
      let path := Filepath.Join parent name in
      if isSourcePath path then [path] else []
  | Dir name entries =>
      if HasPrefix name "." && negb (name =s ".") then []
      else List.flat_map (walkEntry (Filepath.Join parent name)) entries
  end.

(** [discoverSources]: the walk is rooted at ["."]. *)
Definition discoverSources (w : World) : list string :=
  List.flat_map (walkEntry ".") (listing w).

(** [isTestSource] *)
Definition isTestSource (s : string) : bool :=
  let l := ToLower (Filepath.Base s) in
  if HasSuffix l "_test.cpp" || HasSuffix l "_test.cc" ||
     HasSuffix l "_test.cxx" || HasSuffix l "_test.c"
  then true
  else existsb (String.eqb l) ["test.cpp"; "test.cc"; "test.cxx"; "test.c"].

(** The test of the first loop of [findMainSource]. *)
Definition isMainName (s : string) : bool :=
  let l := ToLower (Filepath.Base s) in
  (l =s "main.cpp") || (l =s "main.cc") || (l =s "main.cxx") || (l =s "main.c").

(** [os.ReadFile] succeeds and the text contains [" main("]. *)
Definition hasMainFunc (w : World) (s : string) : bool :=
  match ReadFile w s with
  | Some b => Contains b " main("
  | None => false
  end.

(** [findMainSource] *)
Definition findMainSource (w : World) (srcs : list string) : string :=
  match List.find isMainName srcs with
  | Some s => s
  | None =>
      let nt := List.filter (fun s => negb (isTestSource s)) srcs in
      match nt with
      | [s] => if hasMainFunc w s then s else s
      | _ =>
          match List.find (hasMainFunc w) nt with
          | Some s => s
          | None => ""
          end
      end
  end.

(** [guessOutputNameFromMain] *)
Definition guessOutputNameFromMain (H : Host) (w : World) (mainSrc : string)
  (docker : bool) : string :=
  let b := Filepath.Base (getwd w) in
  let b :=
    if b =s "src" then
      let b' := TrimSuffix (Filepath.Base mainSrc) (Filepath.Ext mainSrc) in
      if b' =s "" then "main" else b'
    else b in
  if docker && negb (HasSuffix b ".exe") then b +:+ ".exe"
  else if (GOOS H =s "windows") && negb (HasSuffix b ".exe") then b +:+ ".exe"
  else b.

(** [ensureExeSuffix] *)
Definition ensureExeSuffix (H : Host) (base : string) (docker : bool) : string :=
  if docker && negb (HasSuffix base ".exe") then base +:+ ".exe"
  else if (GOOS H =s "windows") && negb (HasSuffix base ".exe") then base +:+ ".exe"
  else base.

(** ** Header resolver *)

(** [isStdInclude] *)
Definition isStdInclude (header : string) : bool :=
  let h := ToLower (TrimSuffix header (Filepath.Ext header)) in
  let h := TrimPrefix h "c" in
  existsb (String.eqb h) stdIncludesSkipList.

(** Where the body of the loop of [checkMissingHeaders] leaves a header:
    at one of the three [continue]s, or at the [append]. *)
Inductive Resolution :=
| SatisfiedStandard
| SatisfiedLocal
| SatisfiedSystem
| Missing.

Definition resolveHeader (w : World) (o : Options) (inc : string) : Resolution :=
  if isStdInclude inc then SatisfiedStandard
  else if existsb (fun d => fileExists w (Filepath.Join d inc)) (IncludeDirs o)
  then SatisfiedLocal
  else if existsb (fun d => fileExists w (Filepath.Join d inc)) (SystemIncludeDirs o)
  then SatisfiedSystem
  else Missing.

(** [checkMissingHeaders] *)
Fixpoint checkMissingHeaders (w : World) (includes : list string) (o : Options)
  : list string :=
  match includes with
  | [] => []
  | inc :: rest =>
      match resolveHeader w o inc with
      | Missing => inc :: checkMissingHeaders w rest o
      | _ => checkMissingHeaders w rest o
      end
  end.

(** [discoverSystemIncludeDirs] *)
Definition discoverSystemIncludeDirs (w : World) : list string :=
  ["/usr/include"; "/usr/local/include"] ++
  (if fileExists w "/usr/include/x86_64-linux-gnu"
   then ["/usr/include/x86_64-linux-gnu"] else []).

(** [discoverLocalIncludeDirs] *)
Definition discoverLocalIncludeDirs (w : World) : list string :=
  ["include"; "."; "common"] ++
  (if fileExists w "../include" then ["../include"] else []) ++
  (if fileExists w "../common" then ["../common"] else []).

(** ** Include scanner *)

Definition dquote : ascii := ascii_of_nat 34.
Definition isNewline (c : ascii) : bool := Ascii.eqb c (ascii_of_nat 10).
Definition isCR (c : ascii) : bool := Ascii.eqb c (ascii_of_nat 13).

(** The class [\s] of Go's regexp syntax: tab, newline, form feed, carriage
    return and space. *)
Definition isReSpace (c : ascii) : bool :=
  let n := nat_of_ascii c in
  ((n =? 9) || (n =? 10) || (n =? 12) || (n =? 13) || (n =? 32))%nat.

Fixpoint skipReSpace (l : list ascii) : list ascii :=
  match l with
  | c :: l' => if isReSpace c then skipReSpace l' else l
  | [] => []
  end.

Definition isOpener (c : ascii) : bool := Ascii.eqb c dquote || Ascii.eqb c "<".
Definition isCloser (c : ascii) : bool := Ascii.eqb c dquote || Ascii.eqb c ">".

(** The longest run of characters outside the class of the closers, and
    what follows it. *)
Fixpoint headerToken (l : list ascii) : list ascii * list ascii :=
  match l with
  | c :: l' =>
      if isCloser c then ([], l)
      else match headerToken l' with (tok, rest) => (c :: tok, rest) end
  | [] => ([], [])
  end.

(** The regular expression of [discoverIncludes], anchored at the start of
    the line: optional space, [#], optional space, [include], optional
    space, an opening quote or angle bracket, one or more characters that
    close nothing (the submatch), a closing quote or angle bracket. *)
Definition matchInclude (line : list ascii) : option string :=
  match skipReSpace line with
  | c :: l1 =>
      if Ascii.eqb c "#" then
        let l2 := skipReSpace l1 in
        if prefixL (chars "include") l2 then
          match skipReSpace (skipn 7 l2) with
          | q :: l3 =>
              if isOpener q then
                match headerToken l3 with
                | ((_ :: _) as tok, _ :: _) => Some (str tok)
                | _ => None
                end
              else None
          | [] => None
          end
        else None
      else None
  | [] => None
  end.

(** The lines [bufio.Scanner] yields: split at newlines, one trailing
    carriage return dropped, no empty line after the last newline.  [cur]
    is the line being read, reversed. *)
Definition endLine (cur : list ascii) : list ascii :=
  match cur with
  | c :: cur' => if isCR c then rev cur' else rev cur
  | [] => []
  end.

Fixpoint scanLines (cur l : list ascii) : list (list ascii) :=
  match l with
  | [] => match cur with [] => [] | _ => [endLine cur] end
  | c :: l' =>
      if isNewline c then endLine cur :: scanLines [] l'
      else scanLines (c :: cur) l'
  end.

(** [discoverIncludes] *)
Definition discoverIncludes (w : World) (file : string) : list string :=
  match ReadFile w file with
  | None => []
  | Some b => omap matchInclude (scanLines [] (chars b))
  end.

(** [gatherAllIncludes]: the headers are the keys of a Go map, and come
    out in the order the host's map iteration gives them. *)
Definition gatherAllIncludes (H : Host) (w : World) (files : list string)
  : list string :=
  mapRange H (remove_dups (List.flat_map (discoverIncludes w) files)).

(** ** Package hints *)

(** [mapHeaderToPkg] *)
Definition mapHeaderToPkg (h distro : string) : string * string :=
  let l := ToLower h in
  let ar := Contains (ToLower distro) "arch" in
  if Contains l "boost/" then
    if ar then ("boost", "pacman -S boost")
    else ("libboost-all-dev", "apt install libboost-all-dev")
  else if Contains l "sdl2/" then
    if ar then ("sdl2", "pacman -S sdl2 sdl2_mixer")
    else ("libsdl2-dev libsdl2-mixer-dev", "apt install libsdl2-dev libsdl2-mixer-dev")
  else if Contains l "glm/" then
    if ar then ("glm", "pacman -S glm")
    else ("libglm-dev", "apt install libglm-dev")
  else if Contains l "gl.h" || Contains l "glu.h" then
    if ar then ("mesa", "pacman -S mesa")
    else ("mesa-common-dev", "apt install mesa-common-dev")
  else if Contains l "gtk/gtk.h" then
    if ar then ("gtk3", "pacman -S gtk3")
    else ("libgtk-3-dev", "apt install libgtk-3-dev")
  else if Contains l "vulkan/" then
    if ar then ("vulkan-devel", "pacman -S vulkan-devel")
    else ("libvulkan-dev", "apt install libvulkan-dev")
  else ("", "").

(** [gatherPkgConfigFlags]: [None] is the error result. *)
Definition gatherPkgConfigFlags (H : Host) (w : World) (pkg : string)
  : option string :=
  if negb (lookPath H "pkg-config" w) then None
  else
    let cmdStr := "pkg-config --cflags --libs " +:+ ToLower pkg in
    match Fields cmdStr with
    | [] => None
    | parts =>
        match combinedOutput H parts w with
        | (out, ok) =>
            if negb ok || (out =s "") then None else Some (TrimSpace out)
        end
    end.

(** The body of the loop of [mergePkgConfigFlags]. *)
Definition mergeFlag (o : Options) (f : string) : Options :=
  if HasPrefix f "-I" || HasPrefix f "-D" || HasPrefix f "-F" ||
     HasPrefix f "-framework" || (HasPrefix f "-W" && negb (HasPrefix f "-Wl,"))
  then setExtraCFlags o (ExtraCFlags o ++ [f])
  else if HasPrefix f "-l" || HasPrefix f "-L" ||
          HasPrefix f "-Wl," || HasPrefix f "-framework"
  then setExtraLDFlags o (ExtraLDFlags o ++ [f])
  else o.

(** [mergePkgConfigFlags] *)
Definition mergePkgConfigFlags (flags : string) (o : Options) : Options :=
  fold_left mergeFlag (Fields flags) o.

(** The loop of [pkgDiscovery] over the missing headers. *)
Fixpoint reportMissing (H : Host) (o : Options) (missing : list string)
  : M Options :=
  match missing with
  | [] => ret o
  | h :: rest =>
      Println ("   " +:+ h) ;;;
      match mapHeaderToPkg h (DetectedDistro o) with
      | (pkg, cmd) =>
          if negb (pkg =s "") && negb (cmd =s "") then
            Println ("    Possibly install with: " +:+ cmd) ;;;
            w <- getWorld ;;
            match gatherPkgConfigFlags H w pkg with
            | Some flags =>
                if negb (flags =s "")
                then reportMissing H (mergePkgConfigFlags flags o) rest
                else reportMissing H o rest
            | None => reportMissing H o rest
            end
          else reportMissing H o rest
      end
  end.

(** [pkgDiscovery]: [None] when the process has exited. *)
Definition pkgDiscovery (H : Host) (o : Options) (missing : list string)
  : M (option Options) :=
  Println "Missing headers:" ;;;
  o' <- reportMissing H o missing ;;
  if negb (Sloppy o') then
    Println "" ;;;
    Println "Cannot proceed unless sloppy mode is used or you fix missing headers." ;;;
    emit (EvExit 1) ;;;
    ret None
  else
    Println "Continuing in sloppy mode, ignoring missing headers." ;;;
    ret (Some o').

(** ** Command assembly *)

(** [removeFromSlice] *)
Definition removeFromSlice (sl : list string) (val : string) : list string :=
  List.filter (fun s => negb (s =s val)) sl.

(** [compileFlags] *)
Definition compileFlags (o : Options) : string :=
  let baseFlags : list string :=
    [ "-pipe"; "-fPIC"; "-fno-plt"; "-fstack-protector-strong"; "-Wall";
      "-Wshadow"; "-Wpedantic"; "-Wno-parentheses"; "-Wfatal-errors"; "-Wvla";
      "-Wignored-qualifiers" ] in
  let baseFlags : list string :=
    if Debug o then (removeFromSlice baseFlags "-O2" ++ ["-O0"; "-g"])%list
    else if Opt o then (baseFlags ++ ["-O2"])%list
    else baseFlags in
  let baseFlags : list string :=
    if Strict o then (baseFlags ++ ["-Wextra"; "-Wconversion"])%list else baseFlags in
  let baseFlags : list string :=
    if Sloppy o then (baseFlags ++ ["-w"; "-fpermissive"])%list else baseFlags in
  Join baseFlags " ".

(** [joinExtraCFlags] *)
Definition joinExtraCFlags (flags : list string) : string :=
  match flags with
  | [] => ""
  | _ => Join flags " "
  end.

(** [joinExtraLDFlags] *)
Definition joinExtraLDFlags (ldflags : list string) : string :=
  match ldflags with
  | [] => ""
  | _ => Join ldflags " "
  end.

Definition stdFlag (o : Options) : string :=
  if Std o =s "" then "" else "-std=" +:+ Std o.

(** [buildCompileCmd] *)
Definition buildCompileCmd (o : Options) (src obj : string) : string :=
  CXX o +:+ " " +:+ stdFlag o +:+ " " +:+ compileFlags o +:+ " " +:+
  joinExtraCFlags (ExtraCFlags o) +:+ " -c " +:+ src +:+ " -o " +:+ obj.

(** The command line of [linkObjects]. *)
Definition linkLine (o : Options) (objs : list string) (out : string) : string :=
  let line := CXX o +:+ " " +:+ compileFlags o +:+ " " +:+ Join objs " " +:+
              " -o " +:+ out in
  let linkFlags := joinExtraLDFlags (ExtraLDFlags o) in
  if linkFlags =s "" then line else line +:+ " " +:+ linkFlags.

(** The command line of [singleStepBuild]. *)
Definition singleStepLine (o : Options) (source on : string) : string :=
  let line := CXX o +:+ " " +:+ stdFlag o +:+ " " +:+ compileFlags o +:+ " " +:+
              joinExtraCFlags (ExtraCFlags o) +:+ " " +:+ source +:+ " -o " +:+ on in
  let linkFlags := joinExtraLDFlags (ExtraLDFlags o) in
  if linkFlags =s "" then line else line +:+ " " +:+ linkFlags.

(** ** Processes *)

(** [exec.Cmd.Run] on an argument vector. *)
Definition exec (H : Host) (argv : list string) : M (option error) :=
  fun s =>
    match runProcess H argv (world s) with
    | (ok, w') =>
        (if ok then None else Some (ExitError argv),
         mkState w' (cache s) (log s ++ [EvRun argv ok]))
    end.

(** The arguments [runCommand] hands to docker for the command [p]. *)
Definition dockerArgs (w : World) (p : list string) : list string :=
  (["run"; "-v"; getwd w +:+ ":/home"; "-w"; "/home"; "--rm";
    "jhasse/mingw:latest"] ++ p)%list.

(** [runCommand] *)
Definition runCommand (H : Host) (line : string) (o : Options) : M (option error) :=
  Println line ;;;
  let p := Fields line in
  if Win64Docker o then
    match p with
    | [] => ret None
    | _ =>
        w <- getWorld ;;
        let a := dockerArgs w p in
        Println ("docker " +:+ Join a " ") ;;;
        exec H ("docker" :: a)
    end
  else
    match p with
    | [] => ret None
    | _ => exec H p
    end.

(** The argument vector of the process [runCommand] starts for a line, and
    what it prints before. *)
Definition commandArgv (o : Options) (w : World) (line : string) : list string :=
  if Win64Docker o then "docker" :: dockerArgs w (Fields line) else Fields line.

Definition commandPrints (o : Options) (w : World) (line : string) : list Event :=
  EvPrint line ::
  (if Win64Docker o
   then [EvPrint ("docker " +:+ Join (dockerArgs w (Fields line)) " ")]
   else []).

(** ** Staleness cache *)

(** [cc.Timestamps[src]]: a Go map yields the zero value for a missing key. *)
Definition cached (cc : gmap string Z) (src : string) : Z :=
  default 0 (cc !! src).

(** [needsRebuild] *)
Definition needsRebuild (w : World) (src obj : string) (cc : gmap string Z) : bool :=
  if negb (fileExists w obj) then true
  else
    match Stat w src with
    | None => true
    | Some si =>
        match Stat w obj with
        | None => true
        | Some oi =>
            if Before (modTime oi) (modTime si) then true
            else negb (cached cc src =? Unix (modTime si))
        end
    end.

(** [updateTimestamp] *)
Definition updateTimestamp (src : string) : M unit :=
  fun s =>
    match Stat (world s) src with
    | Some i =>
        (tt, mkState (world s) (<[src := Unix (modTime i)]> (cache s))
               (log s ++ [EvStamp src (Unix (modTime i))]))
    | None => (tt, s)
    end.

(** [loadCache]: an absent or malformed file leaves the map empty. *)
Definition loadCache : M unit :=
  fun s =>
    (tt, mkState (world s) (default ∅ (cxxcache (world s))) (log s)).

(** [saveCache] *)
Definition saveCache : M unit :=
  fun s =>
    (tt, mkState (mkWorld (getwd (world s)) (listing (world s)) (files (world s))
                    (Some (cache s)))
           (cache s) (log s ++ [EvSave])).

(** ** Build planner *)

(** The object path [compileOne] derives for a source. *)
Definition objectPath (src : string) : string :=
  let ext := Filepath.Ext src in
  TrimSuffix (Filepath.Base src) ext +:+ ".o".

(** [compileOne] *)
Definition compileOne (H : Host) (o : Options) (src : string)
  : M (string * option error) :=
  let obj := objectPath src in
  w <- getWorld ;;
  cc <- getCache ;;
  let stale := needsRebuild w src obj cc in
  emit (EvStale src obj stale) ;;;
  if stale then
    err <- runCommand H (buildCompileCmd o src obj) o ;;
    match err with
    | Some e => ret (obj, Some e)
    | None => updateTimestamp src ;;; ret (obj, None)
    end
  else ret (obj, None).

(** [linkObjects] *)
Definition linkObjects (H : Host) (o : Options) (objs : list string) (out : string)
  : M (option error) :=
  runCommand H (linkLine o objs out) o.

(** The loop of [compileAndLink] over [o.Sources]; [objs] are the objects
    collected so far. *)
Fixpoint compileSources (H : Host) (o : Options) (srcs objs : list string)
  : M (list string * option error) :=
  match srcs with
  | [] => ret (objs, None)
  | s :: rest =>
      if negb (Test o) && isTestSource s then compileSources H o rest objs
      else
        r <- compileOne H o s ;;
        match r with
        | (_, Some e) => ret (objs, Some e)
        | (obj, None) => compileSources H o rest (objs ++ [obj])
        end
  end.

(** [compileAndLink]: the options come back with [OutputName] assigned
    when the link succeeded. *)
Definition compileAndLink (H : Host) (o : Options) : M (Options * option error) :=
  r <- compileSources H o (Sources o) [] ;;
  match r with
  | (_, Some e) => ret (o, Some e)
  | (objs, None) =>
      let on := ensureExeSuffix H (OutputName o) (Win64Docker o) in
      e <- linkObjects H o objs on ;;
      match e with
      | Some e => ret (o, Some e)
      | None => ret (setOutputName o on, None)
      end
  end.

(** [singleStepBuild] *)
Definition singleStepBuild (H : Host) (o : Options) (source : string)
  : M (Options * option error) :=
  let on := ensureExeSuffix H (OutputName o) (Win64Docker o) in
  let line := singleStepLine o source on in
  Println line ;;;
  e <- runCommand H line o ;;
  match e with
  | Some e => ret (o, Some e)
  | None => ret (setOutputName o on, None)
  end.

(** The first loop of [buildAndRunTests]: the objects of the sources that
    are not tests. *)
Fixpoint compileNormal (H : Host) (o : Options) (srcs normalObjs : list string)
  : M (list string * option error) :=
  match srcs with
  | [] => ret (normalObjs, None)
  | s :: rest =>
      if negb (isTestSource s) then
        r <- compileOne H o s ;;
        match r with
        | (_, Some e) => ret (normalObjs, Some e)
        | (obj, None) => compileNormal H o rest (normalObjs ++ [obj])
        end
      else compileNormal H o rest normalObjs
  end.

(** The second loop of [buildAndRunTests], over [o.TestSources]. *)
Fixpoint runTests (H : Host) (o : Options) (tests normalObjs : list string)
  : M (option error) :=
  match tests with
  | [] => ret None
  | s :: rest =>
      r <- compileOne H o s ;;
      match r with
      | (_, Some e) => ret (Some e)
      | (obj, None) =>
          let exe := ensureExeSuffix H (TrimSuffix obj ".o") (Win64Docker o) in
          e <- linkObjects H o (obj :: normalObjs) exe ;;
          match e with
          | Some e => ret (Some e)
          | None =>
              Println ("Running test: " +:+ exe) ;;;
              if Win64Docker o then
                Println "Cannot run Windows .exe test under Docker cross-compile." ;;;
                runTests H o rest normalObjs
              else
                e <- exec H ["./" +:+ exe] ;;
                match e with
                | Some e => ret (Some e)
                | None => runTests H o rest normalObjs
                end
          end
      end
  end.

(** [buildAndRunTests] *)
Definition buildAndRunTests (H : Host) (o : Options) : M (option error) :=
  r <- compileNormal H o (Sources o) [] ;;
  match r with
  | (_, Some e) => ret (Some e)
  | (normalObjs, None) => runTests H o (TestSources o) normalObjs
  end.

(** ** The run *)

(** The two ways a build is carried out (main.go, line 136). *)
Inductive Strategy :=
| SingleStep (source : string)
| MultiStep.

(** The test that chooses between [singleStepBuild] and [compileAndLink]. *)
Definition planStrategy (o : Options) (normalSources testSources : list string)
  : Strategy :=
  if (List.length normalSources =? 1)%nat && (List.length testSources =? 0)%nat
     && negb (Test o)
  then SingleStep (nth 0 normalSources "")
  else MultiStep.

(** [log.Fatal]: the message, then exit status 1. *)
Definition fatal (msg : string) : M unit :=
  Println msg ;;; emit (EvExit 1).

(** The sources that are tests, and those that are not, in walk order. *)
Definition testsOf (srcs : list string) : list string := List.filter isTestSource srcs.
Definition normalOf (srcs : list string) : list string :=
  List.filter (fun s => negb (isTestSource s)) srcs.

(** Lines 96 to 110 of [main]: sources, entry point and output name. *)
Definition classify (H : Host) (w : World) (o : Options) (srcs : list string)
  : Options :=
  let o := setSources o srcs (testsOf srcs) in
  let o := setMainSource o (findMainSource w srcs) in
  if negb (MainSource o =s "") then
    setOutputName o (guessOutputNameFromMain H w (MainSource o) (Win64Docker o))
  else if (0 <? List.length (normalOf srcs))%nat then
    setOutputName o
      (if Win64Docker o then "main.exe"
       else if GOOS H =s "windows" then "main.exe" else "main")
  else o.

(** Lines 117 to 121 of [main]: the headers no search path satisfies. *)
Definition withIncludeDirs (w : World) (o : Options) : Options :=
  setIncludeDirs o (discoverLocalIncludeDirs w) (discoverSystemIncludeDirs w).

Definition missingHeaders (H : Host) (w : World) (o : Options) : list string :=
  checkMissingHeaders w (gatherAllIncludes H w (Sources o)) o.

(** The build step proper (lines 136 to 145). *)
Definition buildStep (H : Host) (o : Options) (normalSources testSources : list string)
  : M (Options * option error) :=
  match planStrategy o normalSources testSources with
  | SingleStep source => singleStepBuild H o source
  | MultiStep =>
      r <- compileAndLink H o ;;
      match r with
      | (_, Some _) => ret r
      | (_, None) => saveCache ;;; ret r
      end
  end.

(** The optional run of the produced artifact (lines 153 to 165). *)
Definition runStep (H : Host) (o : Options) : M (option error) :=
  if Run o && negb (OutputName o =s "") then
    Println ("Running: " +:+ OutputName o) ;;;
    if Win64Docker o then
      Println "Cross-compiled .exe can't be run automatically under Docker." ;;;
      ret None
    else exec H ["./" +:+ OutputName o]
  else ret None.

(** Lines 133 to 166 of [main]. *)
Definition build (H : Host) (o : Options) (normalSources testSources : list string)
  : M unit :=
  loadCache ;;;
  r <- buildStep H o normalSources testSources ;;
  match r with
  | (_, Some _) => fatal "Build error:"
  | (o, None) =>
      t <- (if Test o && (0 <? List.length testSources)%nat
            then buildAndRunTests H o else ret None) ;;
      match t with
      | Some _ => fatal "Test error:"
      | None =>
          e <- runStep H o ;;
          match e with
          | Some _ => emit (EvExit 1)
          | None => Println ("Build complete on " +:+ DetectedDistro o)
          end
      end
  end.

(** [generateProFile], as far as the name of the file it creates; what is
    written there is not modelled. *)
Definition generateProFile (o : Options) : M unit :=
  emit (EvProFile (TrimSuffix (OutputName o) ".exe" +:+ ".pro")).

(** [main], from the parsed options on. *)
Definition mainWith (H : Host) (o : Options) : M unit :=
  if Version o then Println ("cxx2 version " +:+ version)
  else
    let o := adjustCompiler (setDetectedDistro o (distroName H)) in
    w <- getWorld ;;
    let srcs := discoverSources w in
    if (List.length srcs =? 0)%nat && negb (Clean o) then Println "No sources found."
    else
      let o := classify H w o srcs in
      if Clean o then emit EvCleanup
      else
        let o := withIncludeDirs w o in
        let missing := missingHeaders H w o in
        r <- match missing with
             | [] => ret (Some o)
             | _ => pkgDiscovery H o missing
             end ;;
        match r with
        | None => ret tt
        | Some o =>
            if Pro o then generateProFile o
            else build H o (normalOf srcs) (testsOf srcs)
        end.

(** [main] *)
Definition main (H : Host) (args : list string) : M unit :=
  mainWith H (parseArgs args).

(** A run of the program in a world: the final state. *)
Definition runMain (H : Host) (args : list string) (w : World) : State :=
  snd (main H args (mkState w ∅ [])).

(** *** Readings of a log *)

Definition runsOf (l : list Event) : list (list string) :=
  omap (fun e => match e with EvRun argv _ => Some argv | _ => None end) l.

Definition staleChecks (l : list Event) : list (string * bool) :=
  omap (fun e => match e with EvStale src _ b => Some (src, b) | _ => None end) l.

Definition stampsOf (l : list Event) : list string :=
  omap (fun e => match e with EvStamp src _ => Some src | _ => None end) l.

Definition printsOf (l : list Event) : list string :=
  omap (fun e => match e with EvPrint t => Some t | _ => None end) l.

(** ** A reference host

    A toolchain that does what the command line says: an invocation with
    [-c src -o obj] fails when [src] is not a regular file, and otherwise
    leaves a regular file [obj]; an invocation with [-o out] and no [-c]
    leaves a regular file [out]; anything else (a produced binary) succeeds
    and changes nothing.  A file written is stamped no earlier than any file
    of the world. *)

Module Reference.

Fixpoint argAfter (flag : string) (argv : list string) : option string :=
  match argv with
  | a :: ((b :: _) as rest) => if a =s flag then Some b else argAfter flag rest
  | _ => None
  end.

Definition latest (w : World) : Z :=
  map_fold (fun _ f t => Z.max t (modTime f)) 0 (files w).

Definition writeFile (w : World) (p : string) : World :=
  mkWorld (getwd w) (listing w)
    (<[p := mkFile true (latest w + 1) ""]> (files w)) (cxxcache w).

Definition toolchain (argv : list string) (w : World) : bool * World :=
  match argAfter "-o" argv with
  | Some out =>
      match argAfter "-c" argv with
      | Some src => if fileExists w src then (true, writeFile w out) else (false, w)
      | None => (true, writeFile w out)
      end
  | None => (true, w)
  end.

Definition host : Host :=
  mkHost "linux" "Debian GNU/Linux" toolchain (fun _ _ => ("", false))
    (fun _ _ => false) (fun l => l).

(** A source file last written at second [t]. *)
Definition source (t : Z) (text : string) : FileInfo :=
  mkFile true (t * 1000000000) text.

End Reference.

(** *** Scenario A: one file main.cpp *)

Definition worldA (cwd : string) : World :=
  mkWorld cwd [File "main.cpp"]
    {[ "main.cpp" := Reference.source 100 "int main() { return 0; }" ]} None.

(** *** Scenario B: util.cpp, util_test.cpp and main.cpp *)

Definition worldB (cwd : string) : World :=
  mkWorld cwd [File "main.cpp"; File "util.cpp"; File "util_test.cpp"]
    {[ "main.cpp" := Reference.source 100 "int main() { return 0; }";
       "util.cpp" := Reference.source 101 "int util() { return 1; }";
       "util_test.cpp" := Reference.source 102 "int main() { return 0; }" ]} None.


(** ** The vocabulary of the specification *)

(** *** Staleness (section 4.2) *)

(** The object artifact does not exist. *)
Definition objectAbsent (w : World) (obj : string) : Prop :=
  fileExists w obj = false.

(** The object's modification time precedes the source's. *)
Definition objectOlder (w : World) (src obj : string) : Prop :=
  exists si oi,
    Stat w src = Some si /\ Stat w obj = Some oi /\ modTime oi < modTime si.

(** The cached timestamp for the source differs from the source's current
    modification time. *)
Definition cacheDiffers (w : World) (src : string) (cc : gmap string Z) : Prop :=
  exists si, Stat w src = Some si /\ cached cc src <> Unix (modTime si).

(** An object file [a.o] whose source is gone. *)
Definition worldOrphan : World :=
  mkWorld "/home/u/p" [File "a.o"] {[ "a.o" := mkFile true 5 "" ]} None.

(** *** Kinds of sources (sections 3 and 4.1), read off the options
    [main] fills in *)

Definition IsTest (o : Options) (s : string) : Prop := In s (TestSources o).

Definition IsEntryPoint (o : Options) (s : string) : Prop :=
  MainSource o <> "" /\ s = MainSource o.

Definition IsNormal (o : Options) (s : string) : Prop :=
  In s (Sources o) /\ ~ IsTest o s /\ ~ IsEntryPoint o s.

(** *** Header resolution (section 4.4) *)

(** The name stripped of its extension, case-folded, with one leading [c]
    removed. *)
Definition normalizedName (header : string) : string :=
  TrimPrefix (ToLower (TrimSuffix header (Filepath.Ext header))) "c".

Definition onAllowList (header : string) : Prop :=
  In (normalizedName header) stdIncludesSkipList.

(** A file with the header's relative name exists under one of [dirs]. *)
Definition foundUnder (w : World) (dirs : list string) (inc : string) : Prop :=
  exists d, In d dirs /\ fileExists w (Filepath.Join d inc) = true.

Definition satisfied (w : World) (o : Options) (inc : string) : Prop :=
  onAllowList inc \/ foundUnder w (IncludeDirs o) inc \/
  foundUnder w (SystemIncludeDirs o) inc.

(** *** Two directories with a source of the same name *)

Definition worldTwins : World :=
  mkWorld "/home/u/twins"
    [Dir "a" [File "util.cpp"]; Dir "b" [File "util.cpp"]; File "main.cpp"]
    {[ "a/util.cpp" := Reference.source 100 "int f() { return 1; }";
       "b/util.cpp" := Reference.source 101 "int g() { return 2; }";
       "main.cpp" := Reference.source 102 "int main() { return 0; }" ]} None.

(** *** The options a run plans with (lines 75 to 118 of [main]) *)

Definition plannedOptions (H : Host) (w : World) (o : Options) : Options :=
  withIncludeDirs w
    (classify H w (adjustCompiler (setDetectedDistro o (distroName H)))
       (discoverSources w)).

(** [o'] is [o] with flags added by [mergePkgConfigFlags]. *)
Definition flagsOnly (o o' : Options) : Prop :=
  exists c l, o' = setExtraLDFlags (setExtraCFlags o c) l.

Definition isPrint (e : Event) : Prop :=
  match e with
  | EvPrint _ => True
  | _ => False
  end.

(** *** Scenario C: a source that includes a boost header *)

Definition newline : string := String (ascii_of_nat 10) "".

Definition worldC : World :=
  mkWorld "/home/u/convert" [File "main.cpp"]
    {[ "main.cpp" :=
         Reference.source 100
           ("#include <iostream>" +:+ newline +:+
            "#include <boost/lexical_cast.hpp>" +:+ newline +:+
            "int main() { return 0; }" +:+ newline) ]} None.

(** *** One state continues another *)

(** [st'] has the log of [st], and more. *)
Definition extends (st st' : State) : Prop :=
  exists evs, log st' = (log st ++ evs)%list.

(** Between [st] and [st'] a process was started. *)
Definition ranAProcess (st st' : State) : Prop :=
  exists evs, log st' = (log st ++ evs)%list /\ runsOf evs <> [].

(** *** Counting what a log did to a source *)

(** How often staleness was evaluated for [src]. *)
Definition timesChecked (src : string) (l : list Event) : nat :=
  List.length (List.filter (fun p => fst p =s src) (staleChecks l)).

(** How often the cache entry of [src] was written. *)
Definition timesStamped (src : string) (l : list Event) : nat :=
  List.length (List.filter (fun s => s =s src) (stampsOf l)).

(** *** Fail-fast (section 5) *)

(** An event that is no failed process. *)
Definition succeeded (e : Event) : Prop :=
  match e with
  | EvRun _ false => False
  | _ => True
  end.

Definition noFailure (evs : list Event) : Prop := Forall succeeded evs.

(** The events of a step agree with its result: without an error no
    process has failed; with an error, the failed process is the last
    event, it is the first to fail, and the error is its exit. *)
Definition failFast (r : option error) (evs : list Event) : Prop :=
  match r with
  | None => noFailure evs
  | Some e =>
      exists pre argv,
        evs = (pre ++ [EvRun argv false])%list /\ noFailure pre /\ e = ExitError argv
  end.

(** An event of the compilation of one of [srcs]: a staleness check, a
    printed line, a stamp, or a compiler process for one of them. *)
Definition compileEvent (o : Options) (srcs : list string) (e : Event) : Prop :=
  match e with
  | EvRun argv _ =>
      exists w src,
        In src srcs /\ argv = commandArgv o w (buildCompileCmd o src (objectPath src))
  | EvStale _ _ _ | EvPrint _ | EvStamp _ _ => True
  | _ => False
  end.

(** *** Scenario B as the specification describes it *)

(** The object files named on a command line, and its output. *)
Definition objectsOf (argv : list string) : list string :=
  List.filter (fun a => HasSuffix a ".o") argv.

Definition outputOf (argv : list string) : option string :=
  Reference.argAfter "-o" argv.

(** Among the processes run, one links main from the objects of util.cpp
    and main.cpp, and one links util_test from util_test.o and util.o. *)
Definition scenarioB_as_specified (runs : list (list string)) : Prop :=
  (exists argv, In argv runs /\ outputOf argv = Some "main" /\
                Permutation (objectsOf argv) ["util.o"; "main.o"]) /\
  (exists argv, In argv runs /\ outputOf argv = Some "util_test" /\
                Permutation (objectsOf argv) ["util_test.o"; "util.o"]).

(** *** Idempotence (section 8): what is asked of the toolchain *)

(** The sources [compileAndLink] compiles: all of them in test mode, those
    that are no tests otherwise. *)
Definition keptSources (o : Options) : list string :=
  List.filter (fun s => negb (negb (Test o) && isTestSource s)) (Sources o).

(** The processes of a multi-step build in a world: one compiler per kept
    source, and the linker. *)
Definition buildCommands (H : Host) (o : Options) (w : World) : list (list string) :=
  (map (fun s => commandArgv o w (buildCompileCmd o s (objectPath s))) (keptSources o) ++
   [commandArgv o w
      (linkLine o (map objectPath (keptSources o))
         (ensureExeSuffix H (OutputName o) (Win64Docker o)))])%list.

(** The object of [s] is a regular file that is not older than [s]. *)
Definition fresh (w : World) (s : string) : Prop :=
  exists si oi,
    Stat w s = Some si /\ Stat w (objectPath s) = Some oi /\
    isRegular oi = true /\ modTime si <= modTime oi.

(** The toolchain does its part: the processes of the build leave the
    sources as they are, a compiler that succeeds leaves a fresh object,
    and no process of the build makes an object stale. *)
Record toolchainKeepsObjects (H : Host) (o : Options) : Prop := {
  sources_untouched :
    forall w argv s,
      In argv (buildCommands H o w) -> In s (keptSources o) ->
      Stat (snd (runProcess H argv w)) s = Stat w s;
  object_written :
    forall w s,
      In s (keptSources o) ->
      fst (runProcess H (commandArgv o w (buildCompileCmd o s (objectPath s))) w) = true ->
      fresh (snd (runProcess H (commandArgv o w (buildCompileCmd o s (objectPath s))) w)) s;
  objects_kept :
    forall w argv s,
      In argv (buildCommands H o w) -> In s (keptSources o) ->
      fresh w s -> fresh (snd (runProcess H argv w)) s
}.

(** The state a second run starts its build from: the world the first run
    left, the cache read back from it, an empty log. *)
Definition secondRun (st1 : State) : State :=
  snd (loadCache (mkState (world st1) ∅ [])).

(** The options of a plain build in the directory of scenario B. *)
Definition optionsB : Options :=
  plannedOptions Reference.host (worldB "/home/u/proj") (parseArgs []).

(** *** One source compiled, as the log shows it *)

(** From [st] the source [s] has been evaluated and, when stale, compiled
    to its object: the log gained [evs], which hold one staleness check,
    that of [s] with the verdict of [needsRebuild] in [st]; when the
    verdict is yes, one process, the compiler on the command line of [s],
    which succeeded and left the world of [st']; when it is no, nothing
    else, and world and cache are those of [st]. *)
Definition compiledWhenStale (H : Host) (o : Options) (s : string)
  (st st' : State) (evs : list Event) : Prop :=
  let obj := objectPath s in
  let argv := commandArgv o (world st) (buildCompileCmd o s obj) in
  log st' = (log st ++ evs)%list /\
  staleChecks evs = [(s, needsRebuild (world st) s obj (cache st))] /\
  if needsRebuild (world st) s obj (cache st) then
    runProcess H argv (world st) = (true, world st') /\
    runsOf evs = [argv] /\ noFailure evs
  else
    world st' = world st /\ cache st' = cache st /\ runsOf evs = [].

(** *** Idempotence as the specification words it (section 8) *)

(** After a multi-step build from [st] that succeeded and saved the cache,
    a second run finds every source it compiles up to date. *)
Definition idempotent_as_specified (H : Host) (o : Options)
  (normal tests : list string) (st : State) : Prop :=
  forall o1 st1,
    planStrategy o normal tests = MultiStep ->
    buildStep H o normal tests st = ((o1, None), st1) ->
    forall s, In s (keptSources o) ->
      needsRebuild (world (secondRun st1)) s (objectPath s) (cache (secondRun st1)) = false.

(** A host whose toolchain stamps what it writes at the start of the
    epoch (a clock that is behind the sources). *)
Definition skewedToolchain (argv : list string) (w : World) : bool * World :=
  match Reference.argAfter "-o" argv with
  | Some out =>
      (true, mkWorld (getwd w) (listing w)
               (<[out := mkFile true 0 ""]> (files w)) (cxxcache w))
  | None => (true, w)
  end.

Definition skewedHost : Host :=
  mkHost "linux" "Debian GNU/Linux" skewedToolchain (fun _ _ => ("", false))
    (fun _ _ => false) (fun l => l).

(** The options of a plain build in the directory of scenario B on that
    host. *)
Definition optionsSkewed : Options :=
  plannedOptions skewedHost (worldB "/home/u/proj") (parseArgs []).

(** *** Counting over a pass *)

(** What a loop over sources adds to the counts: at most one evaluation
    and one stamp for each source it compiles, and exactly one evaluation
    when it comes to its end. *)
Definition passCounts (compiled : list string) (ok : bool) (evs : list Event) : Prop :=
  forall src,
    (timesChecked src evs <= count_occ string_dec compiled src)%nat /\
    (timesStamped src evs <= count_occ string_dec compiled src)%nat /\
    (ok = true -> timesChecked src evs = count_occ string_dec compiled src).

(** A result without an error. *)
Definition succeededB {A : Type} (r : option A) : bool :=
  match r with None => true | Some _ => false end.

(** ** Further vocabulary *)

(** *** The two tests of [mergePkgConfigFlags] *)

Definition isCompileFlag (f : string) : bool :=
  HasPrefix f "-I" || HasPrefix f "-D" || HasPrefix f "-F" ||
  HasPrefix f "-framework" || (HasPrefix f "-W" && negb (HasPrefix f "-Wl,")).

Definition isLinkFlag (f : string) : bool :=
  HasPrefix f "-l" || HasPrefix f "-L" || HasPrefix f "-Wl," ||
  HasPrefix f "-framework".

(** *** Membership of an argument, as a boolean *)

Definition hasArg (a : string) (args : list string) : bool :=
  existsb (fun x => x =s a) args.

(** *** An event of a cross-compiling run: no process but docker *)

Definition onDocker (e : Event) : Prop :=
  match e with
  | EvRun argv _ => exists rest, argv = "docker" :: rest
  | _ => True
  end.

(** An event that does not write the cache file. *)
Definition notSave (e : Event) : Prop :=
  match e with
  | EvSave => False
  | _ => True
  end.

(** *** The sources [generateProFile] lists *)

(** [contains] *)
Definition contains (list : list string) (s : string) : bool :=
  existsb (fun x => x =s s) list.

(** The slice [all] of [generateProFile]. *)
Definition proSources (o : Options) (normalSrc : list string) : list string :=
  (normalSrc ++
   (if negb (MainSource o =s "") && negb (contains normalSrc (MainSource o))
    then [MainSource o] else []))%list.

(** *** Further worlds *)

(** A directory whose listing names two sources that cannot be examined
    (they are gone by the time the build looks at them). *)
Definition worldGone : World :=
  mkWorld "/home/u/gone" [File "a.cpp"; File "b.cpp"] ∅ None.

(** The file [p] written again at second [t]. *)
Definition touch (w : World) (p : string) (t : Z) : World :=
  mkWorld (getwd w) (listing w)
    (match files w !! p with
     | Some f => <[p := mkFile (isRegular f) (t * 1000000000) (content f)]> (files w)
     | None => files w
     end) (cxxcache w).

(** The options of a cross build in the directory of scenario B. *)
Definition optionsCross : Options :=
  plannedOptions Reference.host (worldB "/home/u/proj")
    (parseArgs ["--win64-docker"; "test"; "run"]).

(** * Properties *)

(** ** The library functions on examples *)

Example ToLower_ex : Strings.ToLower "Util_TEST.Cpp" = "util_test.cpp".
Proof. reflexivity. Qed.

Example Fields_ex :
  Strings.Fields "g++  -std=c++20 -Wall   main.cpp -o main " =
  ["g++"; "-std=c++20"; "-Wall"; "main.cpp"; "-o"; "main"].
Proof. reflexivity. Qed.

Example Base_ex :
  map Filepath.Base ["src/a/util.cpp"; "util.cpp"; "a/b/"; "///"; ""; "/home/u/proj"]
  = ["util.cpp"; "util.cpp"; "b"; "/"; "."; "proj"].
Proof. reflexivity. Qed.

Example Ext_ex :
  map Filepath.Ext ["a/b.c/util.cpp"; "a.b/util"; "x.tar.gz"; "boost/lexical_cast.hpp"; "a/"]
  = [".cpp"; ""; ".gz"; ".hpp"; ""].
Proof. reflexivity. Qed.

Example Join_ex :
  [Filepath.Join "." "main.cpp"; Filepath.Join "sub" "a.cc"; Filepath.Join "include" "../x.h";
   Filepath.Join "/usr/include" "boost/lexical_cast.hpp"; Filepath.Join "../include" "a//b.h";
   Filepath.Join "." ".."; Filepath.Join "/" "../a"]
  = ["main.cpp"; "sub/a.cc"; "x.h"; "/usr/include/boost/lexical_cast.hpp"; "../include/a/b.h";
     ".."; "/a"].
Proof. reflexivity. Qed.

Example isTestSource_ex :
  map isTestSource ["util_test.cpp"; "a/Test.C"; "main.cpp"; "contest.cc"; "x/latest.c"; "t_test.cxx"]
  = [true; true; false; false; false; true].
Proof. reflexivity. Qed.

Example isStdInclude_ex :
  map isStdInclude ["iostream"; "string.h"; "cstring"; "VECTOR"; "cmath"; "boost/lexical_cast.hpp"]
  = [true; true; true; true; false; false].
Proof. reflexivity. Qed.

Example discoverIncludes_ex :
  discoverIncludes worldC "main.cpp" = ["iostream"; "boost/lexical_cast.hpp"].
Proof. reflexivity. Qed.

Example matchInclude_ex :
  map (fun l => matchInclude (chars l))
    ["  #  include <vector>"; "#include<a.h> // x"; "#include <>"; "// #include <x>";
     "#include <unterminated";
     "#include " +:+ String dquote ("local.h" +:+ String dquote "")]
  = [Some "vector"; Some "a.h"; None; None; None; Some "local.h"].
Proof. reflexivity. Qed.

(** ** Strings and paths *)

Section StringFacts.
Import Filepath.

Lemma chars_str (l : list ascii) : chars (str l) = l.
Proof. apply list_ascii_of_string_of_list_ascii. Qed.

Lemma str_chars (s : string) : str (chars s) = s.
Proof. apply string_of_list_ascii_of_string. Qed.

Lemma chars_app (a b : string) : chars (a +:+ b) = (chars a ++ chars b)%list.
Proof. induction a as [|c a IH]; simpl; [reflexivity | now rewrite IH]. Qed.

Lemma chars_ToLower (s : string) : chars (ToLower s) = map lowerChar (chars s).
Proof. unfold ToLower. apply chars_str. Qed.

Lemma extRev_untilSlash (r acc : list ascii) :
  extRev (untilSlash r) acc = extRev r acc.
Proof.
  revert acc. induction r as [|c r IH]; intros acc; simpl; [reflexivity|].
  destruct (isSlash c) eqn:Hs; simpl; [reflexivity|].
  rewrite Hs. destruct (isDot c); [reflexivity | apply IH].
Qed.

(** A path that does not end in a slash has the extension of its base name. *)
Lemma Ext_Base (p : string) (c : ascii) (r : list ascii) :
  rev (chars p) = c :: r -> isSlash c = false -> Ext (Base p) = Ext p.
Proof.
  intros Hr Hc. unfold Ext, Base.
  destruct (chars p) as [|a l] eqn:Hp; [discriminate|].
  rewrite Hr. simpl dropSlashes. rewrite Hc.
  rewrite chars_str, rev_involutive, extRev_untilSlash. reflexivity.
Qed.

(** The paths [discoverSources] keeps do not end in a slash. *)
Lemma isSourcePath_last (p : string) :
  isSourcePath p = true ->
  exists c r, rev (chars p) = c :: r /\ isSlash c = false.
Proof.
  unfold isSourcePath, HasSuffix. rewrite chars_ToLower, <- map_rev.
  destruct (rev (chars p)) as [|c r]; [simpl; discriminate|].
  intros Hsuf. exists c, r. split; [reflexivity|].
  destruct (isSlash c) eqn:Hc; [|reflexivity].
  apply Ascii.eqb_eq in Hc. subst c. simpl in Hsuf. discriminate.
Qed.

End StringFacts.

(** ** Source classifier *)

Lemma walkEntry_isSourcePath :
  forall (e : Entry) (parent s : string),
    In s (walkEntry parent e) -> isSourcePath s = true.
Proof.
  fix IH 1. intros [name | name entries] parent s; simpl.
  - destruct (isSourcePath (Filepath.Join parent name)) eqn:Hp; simpl.
    + intros [<- | []]. exact Hp.
    + intros [].
  - destruct (HasPrefix name "." && negb (name =s ".")); [intros []|].
    generalize (Filepath.Join parent name). intros dir.
    induction entries as [|e entries IHes]; simpl; [intros []|].
    rewrite in_app_iff. intros [Hin | Hin].
    + exact (IH e dir s Hin).
    + exact (IHes Hin).
Qed.

Lemma discoverSources_isSourcePath (w : World) (s : string) :
  In s (discoverSources w) -> isSourcePath s = true.
Proof.
  unfold discoverSources. rewrite in_flat_map. intros [e [_ Hin]].
  exact (walkEntry_isSourcePath e "." s Hin).
Qed.

(** A file named [main.<ext>] is no test. *)
Lemma isMainName_not_test (s : string) :
  isMainName s = true -> isTestSource s = false.
Proof.
  unfold isMainName, isTestSource.
  generalize (ToLower (Filepath.Base s)). intros l Hl.
  repeat (apply orb_true_iff in Hl; destruct Hl as [Hl | Hl]);
    apply String.eqb_eq in Hl; subst l; reflexivity.
Qed.

Lemma findMainSource_spec (w : World) (srcs : list string) :
  findMainSource w srcs <> "" ->
  In (findMainSource w srcs) srcs /\ isTestSource (findMainSource w srcs) = false.
Proof.
  unfold findMainSource.
  destruct (List.find isMainName srcs) as [m|] eqn:Hm.
  - intros _. apply find_some in Hm. destruct Hm as [Hin Hname].
    split; [exact Hin | apply isMainName_not_test, Hname].
  - set (nt := List.filter (fun s => negb (isTestSource s)) srcs).
    assert (Hnt : forall s, In s nt -> In s srcs /\ isTestSource s = false).
    { intros s Hs. apply filter_In in Hs. destruct Hs as [Hin Hneg].
      split; [exact Hin | now apply negb_true_iff]. }
    assert (Hfind : match List.find (hasMainFunc w) nt with Some s => s | None => "" end <> "" ->
                    In (match List.find (hasMainFunc w) nt with Some s => s | None => "" end) srcs /\
                    isTestSource (match List.find (hasMainFunc w) nt with Some s => s | None => "" end) = false).
    { destruct (List.find (hasMainFunc w) nt) as [m|] eqn:Hf; [|congruence].
      intros _. apply find_some in Hf. apply Hnt, Hf. }
    destruct nt as [|s [|s' nt']]; try exact Hfind.
    intros _. destruct (hasMainFunc w s); apply Hnt; left; reflexivity.
Qed.

Lemma TestSources_classify (H : Host) (w : World) (o : Options) (srcs : list string) :
  TestSources (classify H w o srcs) = testsOf srcs.
Proof.
  unfold classify. simpl.
  destruct (negb (findMainSource w srcs =s "")); [reflexivity|].
  destruct (0 <? _)%nat; reflexivity.
Qed.

Lemma MainSource_classify (H : Host) (w : World) (o : Options) (srcs : list string) :
  MainSource (classify H w o srcs) = findMainSource w srcs.
Proof.
  unfold classify. simpl.
  destruct (negb (findMainSource w srcs =s "")); [reflexivity|].
  destruct (0 <? _)%nat; reflexivity.
Qed.

Lemma Sources_classify (H : Host) (w : World) (o : Options) (srcs : list string) :
  Sources (classify H w o srcs) = srcs.
Proof.
  unfold classify. simpl.
  destruct (negb (findMainSource w srcs =s "")); [reflexivity|].
  destruct (0 <? _)%nat; reflexivity.
Qed.

(** C8. The kinds [main] assigns partition the discovered sources: every
    source is exactly one of test, entry point and normal; at most one
    source is the entry point, and the entry point is one of the sources. *)
Theorem classification_is_partition (H : Host) (w : World) (o : Options)
  (srcs : list string) :
  let o' := classify H w o srcs in
  (forall s, In s srcs ->
     (IsTest o' s /\ ~ IsEntryPoint o' s /\ ~ IsNormal o' s) \/
     (~ IsTest o' s /\ IsEntryPoint o' s /\ ~ IsNormal o' s) \/
     (~ IsTest o' s /\ ~ IsEntryPoint o' s /\ IsNormal o' s)) /\
  (forall s1 s2, IsEntryPoint o' s1 -> IsEntryPoint o' s2 -> s1 = s2) /\
  (forall s, IsEntryPoint o' s -> In s srcs /\ ~ IsTest o' s).
Proof.
  intros o'.
  assert (Hentry : forall s, IsEntryPoint o' s -> In s srcs /\ ~ IsTest o' s).
  { intros s [Hne Heq]. unfold o', IsTest in *.
    rewrite TestSources_classify. rewrite MainSource_classify in Hne, Heq.
    destruct (findMainSource_spec w srcs Hne) as [Hin Hnt]. subst s.
    split; [exact Hin|]. unfold testsOf. rewrite filter_In, Hnt.
    intros [_ Hf]. discriminate. }
  split; [|split].
  - intros s Hin.
    destruct (in_dec string_dec s (TestSources o')) as [Ht | Ht].
    + left. split; [exact Ht|]. split.
      * intros He. exact (proj2 (Hentry s He) Ht).
      * intros [_ [Hn _]]. exact (Hn Ht).
    + right.
      destruct (string_dec (MainSource o') "") as [Hm | Hm].
      * right. split; [exact Ht|].
        assert (Hne : ~ IsEntryPoint o' s) by (intros [Hne _]; exact (Hne Hm)).
        split; [exact Hne|]. split; [|split; assumption].
        unfold o'. rewrite Sources_classify. exact Hin.
      * destruct (string_dec s (MainSource o')) as [He | He].
        -- left. split; [exact Ht|]. split; [split; assumption|].
           intros [_ [_ Hn]]. apply Hn. split; assumption.
        -- right. split; [exact Ht|].
           assert (Hne : ~ IsEntryPoint o' s) by (intros [_ Heq]; exact (He Heq)).
           split; [exact Hne|]. split; [|split; assumption].
           unfold o'. rewrite Sources_classify. exact Hin.
  - intros s1 s2 [_ H1] [_ H2]. congruence.
  - exact Hentry.
Qed.

(** The object path is a function of the base name, for a path that does
    not end in a slash. *)
Lemma objectPath_Base (p : string) :
  isSourcePath p = true ->
  objectPath p =
  TrimSuffix (Filepath.Base p) (Filepath.Ext (Filepath.Base p)) +:+ ".o".
Proof.
  intros Hp. destruct (isSourcePath_last p Hp) as [c [r [Hr Hc]]].
  unfold objectPath. now rewrite (Ext_Base p c r Hr Hc).
Qed.

Lemma compileOne_object (H : Host) (o : Options) (src : string) (st : State) :
  fst (fst (compileOne H o src st)) = objectPath src.
Proof.
  unfold compileOne, bind, getWorld, getCache, emit, ret.
  destruct (needsRebuild _ _ _ _); [|reflexivity].
  destruct (runCommand _ _ _ _) as [[e|] st1]; [reflexivity|].
  destruct (updateTimestamp _ _); reflexivity.
Qed.



(** ** Staleness cache *)

Lemma fileExists_Stat (w : World) (p : string) :
  fileExists w p = true <-> exists i, Stat w p = Some i /\ isRegular i = true.
Proof.
  unfold fileExists. destruct (Stat w p) as [i|].
  - split; [intros Hr; exists i; auto | intros [j [[= <-] Hr]]; exact Hr].
  - split; [discriminate | intros [j [[=] _]]].
Qed.

Lemma needsRebuild_cases (w : World) (src obj : string) (cc : gmap string Z) :
  needsRebuild w src obj cc = true <->
  objectAbsent w obj \/ Stat w src = None \/ objectOlder w src obj \/
  cacheDiffers w src cc.
Proof.
  unfold needsRebuild, objectAbsent, objectOlder, cacheDiffers, Before.
  destruct (fileExists w obj) eqn:Hobj; simpl; [|tauto].
  apply fileExists_Stat in Hobj. destruct Hobj as [oi [Hoi _]]. rewrite Hoi.
  destruct (Stat w src) as [si|]; [|tauto].
  destruct (Z.ltb_spec (modTime oi) (modTime si)) as [Hlt | Hge].
  - split; [intros _|reflexivity]. right; right; left. exists si, oi. auto.
  - rewrite negb_true_iff, Z.eqb_neq. split.
    + intros Hne. right; right; right. exists si. auto.
    + intros [Habs | [Hnone | [Hold | Hdiff]]].
      * discriminate.
      * discriminate.
      * destruct Hold as [si' [oi' [[= <-] [[= <-] Hlt]]]]. lia.
      * destruct Hdiff as [si' [[= <-] Hne]]. exact Hne.
Qed.

(** C2, as the code has it. [needsRebuild] answers true exactly when the
    object file does not exist, or the source cannot be examined, or the
    object is older than the source, or the timestamp the cache holds for
    the source (zero when it holds none) is not the source's modification
    time in seconds. *)
Theorem needsRebuild_iff (w : World) (src obj : string) (cc : gmap string Z) :
  needsRebuild w src obj cc = true <->
  objectAbsent w obj \/ Stat w src = None \/ objectOlder w src obj \/
  cacheDiffers w src cc.
Proof. apply needsRebuild_cases. Qed.

(** C2, as the specification words it, fails where the object exists and
    the source does not: the answer is true, and none of the three
    conditions holds. *)
Lemma needsRebuild_three_conditions_fail :
  ~ (needsRebuild worldOrphan "a.cpp" "a.o" ∅ = true <->
     objectAbsent worldOrphan "a.o" \/ objectOlder worldOrphan "a.cpp" "a.o" \/
     cacheDiffers worldOrphan "a.cpp" ∅).
Proof.
  intros [Hto _].
  destruct (Hto eq_refl) as [Habs | [Hold | Hdiff]].
  - vm_compute in Habs. discriminate.
  - destruct Hold as [si [oi [Hs _]]]. vm_compute in Hs. discriminate.
  - destruct Hdiff as [si [Hs _]]. vm_compute in Hs. discriminate.
Qed.

(** When the source can be examined, the three conditions of the
    specification are the whole story. *)
Lemma needsRebuild_existing_source (w : World) (src obj : string)
  (cc : gmap string Z) (si : FileInfo) :
  Stat w src = Some si ->
  (needsRebuild w src obj cc = true <->
   objectAbsent w obj \/ objectOlder w src obj \/ cacheDiffers w src cc).
Proof.
  intros Hs. rewrite needsRebuild_cases. rewrite Hs.
  split; [intros [?|[?|[?|?]]] | intros [?|[?|?]]]; auto; discriminate.
Qed.

(** ** Header resolver *)

Lemma isStdInclude_onAllowList (inc : string) :
  isStdInclude inc = true <-> onAllowList inc.
Proof.
  unfold isStdInclude, onAllowList, normalizedName.
  rewrite existsb_exists. split.
  - intros [x [Hin Heq]]. apply String.eqb_eq in Heq. now subst x.
  - intros Hin. eexists. split; [exact Hin | apply String.eqb_refl].
Qed.

Lemma existsb_foundUnder (w : World) (dirs : list string) (inc : string) :
  existsb (fun d => fileExists w (Filepath.Join d inc)) dirs = true <->
  foundUnder w dirs inc.
Proof. unfold foundUnder. apply existsb_exists. Qed.

Lemma resolveHeader_Missing (w : World) (o : Options) (inc : string) :
  resolveHeader w o inc = Missing <-> ~ satisfied w o inc.
Proof.
  unfold resolveHeader, satisfied.
  rewrite <- isStdInclude_onAllowList, <- !existsb_foundUnder.
  destruct (isStdInclude inc); [split; [discriminate | intros Hn; exfalso; auto]|].
  destruct (existsb _ (IncludeDirs o)); [split; [discriminate | intros Hn; exfalso; auto]|].
  destruct (existsb _ (SystemIncludeDirs o)); [split; [discriminate | intros Hn; exfalso; auto]|].
  split; [intros _ [Hf | [Hf | Hf]]; discriminate | reflexivity].
Qed.

Lemma checkMissingHeaders_In (w : World) (o : Options) (incs : list string)
  (inc : string) :
  In inc (checkMissingHeaders w incs o) <->
  In inc incs /\ resolveHeader w o inc = Missing.
Proof.
  induction incs as [|a incs IH]; simpl; [tauto|].
  destruct (resolveHeader w o a) eqn:Ha; simpl; rewrite IH;
    (split; [intros Hin | intros [[-> | Hin] Hm]]); try tauto; try congruence.
  destruct Hin as [<- | Hin]; tauto.
Qed.

(** C5. A header is satisfied exactly when its normalized name is on the
    allow-list, or a file of its name exists under a local include
    directory, or under a system include directory; the resolver tries
    these in that order, and leaves every header in exactly one of the four
    outcomes; the headers reported are those of the input that are not
    satisfied. *)
Theorem header_resolution_total (w : World) (o : Options) (inc : string) :
  (resolveHeader w o inc = SatisfiedStandard <-> onAllowList inc) /\
  (resolveHeader w o inc = SatisfiedLocal <->
     ~ onAllowList inc /\ foundUnder w (IncludeDirs o) inc) /\
  (resolveHeader w o inc = SatisfiedSystem <->
     ~ onAllowList inc /\ ~ foundUnder w (IncludeDirs o) inc /\
     foundUnder w (SystemIncludeDirs o) inc) /\
  (resolveHeader w o inc = Missing <-> ~ satisfied w o inc) /\
  (resolveHeader w o inc <> Missing <-> satisfied w o inc) /\
  (forall incs, In inc (checkMissingHeaders w incs o) <->
                In inc incs /\ ~ satisfied w o inc).
Proof.
  assert (Hm := resolveHeader_Missing w o inc).
  assert (Hlast : forall incs, In inc (checkMissingHeaders w incs o) <->
                               In inc incs /\ ~ satisfied w o inc).
  { intros incs. rewrite checkMissingHeaders_In, Hm. reflexivity. }
  revert Hm Hlast. generalize (checkMissingHeaders w). intros cm.
  unfold resolveHeader, satisfied.
  pose proof (isStdInclude_onAllowList inc) as Ha.
  pose proof (existsb_foundUnder w (IncludeDirs o) inc) as Hl.
  pose proof (existsb_foundUnder w (SystemIncludeDirs o) inc) as Hy.
  destruct (isStdInclude inc);
    destruct (existsb _ (IncludeDirs o));
    destruct (existsb _ (SystemIncludeDirs o));
    intros Hm Hlast;
    (split; [|split; [|split; [|split; [|split; [|exact Hlast]]]]]);
    clear Hlast; intuition (try discriminate; try congruence).
Qed.

(** ** Processes and logs *)

Lemma fieldsL_nil (cur l : list ascii) :
  fieldsL cur l = [] -> cur = [] /\ forallb isSpace l = true.
Proof.
  revert cur. induction l as [|c l IH]; intros cur; simpl.
  - destruct cur; [auto | discriminate].
  - destruct (isSpace c); simpl.
    + destruct cur; [apply IH | discriminate].
    + intros Hf. destruct (IH _ Hf) as [Hc _]. discriminate.
Qed.

Lemma fieldsL_spaces (l : list ascii) :
  forallb isSpace l = true -> fieldsL [] l = [].
Proof.
  induction l as [|c l IH]; simpl; [reflexivity|].
  destruct (isSpace c); simpl; [exact IH | discriminate].
Qed.

Lemma Fields_nil (s : string) : Fields s = [] <-> forallb isSpace (chars s) = true.
Proof.
  unfold Fields. split; [intros Hf; apply (fieldsL_nil _ _ Hf) | apply fieldsL_spaces].
Qed.

Lemma Fields_app_l (a b : string) : Fields a <> [] -> Fields (a +:+ b) <> [].
Proof.
  rewrite !Fields_nil, chars_app, forallb_app. intros Hn Hf.
  apply andb_true_iff in Hf. tauto.
Qed.

Lemma Fields_app_r (a b : string) : Fields b <> [] -> Fields (a +:+ b) <> [].
Proof.
  rewrite !Fields_nil, chars_app, forallb_app. intros Hn Hf.
  apply andb_true_iff in Hf. tauto.
Qed.

Lemma Fields_dash_o (a b : string) : Fields (a +:+ " -o " +:+ b) <> [].
Proof. apply Fields_app_r, Fields_app_l. intros Hx. vm_compute in Hx. discriminate Hx. Qed.

Lemma Fields_buildCompileCmd (o : Options) (src obj : string) :
  Fields (buildCompileCmd o src obj) <> [].
Proof.
  unfold buildCompileCmd. do 8 apply Fields_app_r. apply Fields_dash_o.
Qed.

Lemma Fields_linkLine (o : Options) (objs : list string) (out : string) :
  Fields (linkLine o objs out) <> [].
Proof.
  unfold linkLine. destruct (_ =s ""); [|apply Fields_app_l];
    do 4 apply Fields_app_r; apply Fields_dash_o.
Qed.

Lemma Fields_singleStepLine (o : Options) (source on : string) :
  Fields (singleStepLine o source on) <> [].
Proof.
  unfold singleStepLine. destruct (_ =s ""); [|apply Fields_app_l];
    do 8 apply Fields_app_r; apply Fields_dash_o.
Qed.

(** What [runCommand] does with a line that has a field. *)
Lemma runCommand_eq (H : Host) (line : string) (o : Options) (st : State) :
  Fields line <> [] ->
  runCommand H line o st =
  let argv := commandArgv o (world st) line in
  match runProcess H argv (world st) with
  | (ok, w') =>
      (if ok then None else Some (ExitError argv),
       mkState w' (cache st)
         (log st ++ commandPrints o (world st) line ++ [EvRun argv ok]))
  end.
Proof.
  intros Hf. unfold runCommand, commandArgv, commandPrints, bind, Println, emit,
    getWorld, exec, ret.
  destruct (Fields line) as [|p ps] eqn:Hp; [congruence|].
  destruct (Win64Docker o); simpl;
    destruct (runProcess H _ (world st)) as [ok w']; simpl;
    rewrite <- ?app_assoc; reflexivity.
Qed.

Lemma runsOf_app (a b : list Event) : runsOf (a ++ b) = (runsOf a ++ runsOf b)%list.
Proof. apply omap_app. Qed.

Lemma staleChecks_app (a b : list Event) :
  staleChecks (a ++ b) = (staleChecks a ++ staleChecks b)%list.
Proof. apply omap_app. Qed.

Lemma stampsOf_app (a b : list Event) :
  stampsOf (a ++ b) = (stampsOf a ++ stampsOf b)%list.
Proof. apply omap_app. Qed.

Lemma printsOf_app (a b : list Event) :
  printsOf (a ++ b) = (printsOf a ++ printsOf b)%list.
Proof. apply omap_app. Qed.

Lemma commandPrints_quiet (o : Options) (w : World) (line : string) :
  runsOf (commandPrints o w line) = [] /\
  staleChecks (commandPrints o w line) = [] /\
  stampsOf (commandPrints o w line) = [] /\
  ~ In EvSave (commandPrints o w line).
Proof.
  unfold commandPrints. destruct (Win64Docker o); simpl; intuition discriminate.
Qed.

Lemma commandPrints_isPrint (o : Options) (w : World) (line : string) :
  Forall isPrint (commandPrints o w line).
Proof. unfold commandPrints. destruct (Win64Docker o); repeat constructor. Qed.

Lemma commandArgv_plain (o : Options) (w : World) (line : string) :
  Win64Docker o = false -> commandArgv o w line = Fields line.
Proof. unfold commandArgv. now intros ->. Qed.

(** From here on the two are used through the lemmas above. *)
Opaque commandPrints commandArgv.
Arguments buildCompileCmd : simpl never.
Arguments linkLine : simpl never.
Arguments singleStepLine : simpl never.
Arguments objectPath : simpl never.
Arguments needsRebuild : simpl never.
Arguments ensureExeSuffix : simpl never.

(** [compileOne], case by case: the object is fresh; the compiler fails;
    the compiler succeeds and the source is stamped; the compiler succeeds
    and the source cannot be examined afterwards. *)
Lemma compileOne_eq (H : Host) (o : Options) (src : string) (st : State) :
  compileOne H o src st =
  let obj := objectPath src in
  let line := buildCompileCmd o src obj in
  let argv := commandArgv o (world st) line in
  let pre := (log st ++ EvStale src obj true :: commandPrints o (world st) line)%list in
  if needsRebuild (world st) src obj (cache st) then
    match runProcess H argv (world st) with
    | (true, w') =>
        match Stat w' src with
        | Some i =>
            ((obj, None),
             mkState w' (<[src := Unix (modTime i)]> (cache st))
               (pre ++ [EvRun argv true; EvStamp src (Unix (modTime i))]))
        | None => ((obj, None), mkState w' (cache st) (pre ++ [EvRun argv true]))
        end
    | (false, w') =>
        ((obj, Some (ExitError argv)),
         mkState w' (cache st) (pre ++ [EvRun argv false]))
    end
  else ((obj, None),
        mkState (world st) (cache st) (log st ++ [EvStale src obj false])).
Proof.
  unfold compileOne, bind, getWorld, getCache, emit, ret. simpl.
  destruct (needsRebuild (world st) src (objectPath src) (cache st)); [|reflexivity].
  rewrite runCommand_eq by apply Fields_buildCompileCmd. simpl.
  destruct (runProcess H _ (world st)) as [[|] w']; simpl.
  - unfold updateTimestamp. simpl. destruct (Stat w' src) as [i|]; simpl;
      rewrite <- !app_assoc; simpl; rewrite <- ?app_assoc; reflexivity.
  - rewrite <- !app_assoc. reflexivity.
Qed.

(** ** Build planner: the choice of strategy *)

Lemma planStrategy_single (o : Options) (normal tests : list string) :
  (exists source, planStrategy o normal tests = SingleStep source) <->
  List.length normal = 1%nat /\ List.length tests = 0%nat /\ Test o = false.
Proof.
  unfold planStrategy.
  destruct (Nat.eqb_spec (List.length normal) 1);
    destruct (Nat.eqb_spec (List.length tests) 0);
    destruct (Test o); simpl; split;
    try (intros [s Hs]; discriminate); try (intros [? [? ?]]; congruence);
    eauto.
Qed.

Lemma planStrategy_source (o : Options) (normal tests : list string) (source : string) :
  planStrategy o normal tests = SingleStep source -> normal = [source].
Proof.
  unfold planStrategy.
  destruct (Nat.eqb_spec (List.length normal) 1) as [Hl|]; simpl; [|discriminate].
  destruct (_ && _); [|discriminate]. intros [= <-].
  destruct normal as [|s [|s' l]]; simpl in *; congruence.
Qed.

(** C1. The single-step strategy is chosen exactly when there is one
    source that is no test, no test source, and test mode is off; in every
    other case the build is [compileAndLink] followed by saving the cache.
    A single-step build is one process, started on the command line that
    names the source and the final artifact; it evaluates no staleness,
    stamps nothing, and does not write the cache file. *)
Theorem single_step_exactly_when (H : Host) (o : Options)
  (normal tests : list string) (st : State) :
  ((exists source, planStrategy o normal tests = SingleStep source) <->
   List.length normal = 1%nat /\ List.length tests = 0%nat /\ Test o = false) /\
  (planStrategy o normal tests = MultiStep <->
   ~ (List.length normal = 1%nat /\ List.length tests = 0%nat /\ Test o = false)) /\
  (forall source, planStrategy o normal tests = SingleStep source ->
     normal = [source] /\
     let on := ensureExeSuffix H (OutputName o) (Win64Docker o) in
     let line := singleStepLine o source on in
     let argv := commandArgv o (world st) line in
     let st' := snd (buildStep H o normal tests st) in
     exists evs,
       log st' = (log st ++ evs)%list /\
       runsOf evs = [argv] /\
       staleChecks evs = [] /\ stampsOf evs = [] /\ ~ In EvSave evs /\
       cache st' = cache st /\
       world st' = snd (runProcess H argv (world st))) /\
  (planStrategy o normal tests = MultiStep ->
   buildStep H o normal tests st =
   (r <- compileAndLink H o ;;
    match r with
    | (_, Some _) => ret r
    | (_, None) => saveCache ;;; ret r
    end) st).
Proof.
  split; [apply planStrategy_single|]. split; [|split].
  - rewrite <- planStrategy_single.
    destruct (planStrategy o normal tests) as [s|]; split; try discriminate; eauto.
    + intros Hn. exfalso. eauto.
    + intros _ [s Hs]. discriminate.
  - intros source Hs. split; [eapply planStrategy_source; eassumption|].
    cbv zeta.
    set (line := singleStepLine o source (ensureExeSuffix H (OutputName o) (Win64Docker o))).
    set (argv := commandArgv o (world st) line).
    destruct (commandPrints_quiet o (world st) line) as [Hq1 [Hq2 [Hq3 Hq4]]].
    assert (Hst : snd (buildStep H o normal tests st) =
                  mkState (snd (runProcess H argv (world st))) (cache st)
                    (log st ++ [EvPrint line] ++ commandPrints o (world st) line ++
                     [EvRun argv (fst (runProcess H argv (world st)))])).
    { unfold buildStep. rewrite Hs. unfold singleStepBuild, bind, Println, emit, ret.
      fold line. rewrite runCommand_eq by apply Fields_singleStepLine.
      cbv zeta. cbn [world cache log]. fold argv.
      destruct (runProcess H argv (world st)) as [[|] w'];
        cbn [fst snd]; rewrite <- !app_assoc; reflexivity. }
    rewrite Hst. cbn [world cache log].
    exists ([EvPrint line] ++ commandPrints o (world st) line ++
            [EvRun argv (fst (runProcess H argv (world st)))])%list.
    split; [reflexivity|].
    rewrite !runsOf_app, !staleChecks_app, !stampsOf_app, Hq1, Hq2, Hq3.
    split; [reflexivity|]. split; [reflexivity|]. split; [reflexivity|].
    split; [|split; reflexivity].
    rewrite !in_app_iff.
    intros [[Hin | []] | [Hin | [Hin | []]]];
      [discriminate | exact (Hq4 Hin) | discriminate].
  - intros Hm. unfold buildStep. rewrite Hm. reflexivity.
Qed.

(** ** The run: which options reach the build *)

Lemma parseArgs_fixed (args : list string) (o : Options) :
  Std (fold_left parseArg args o) = Std o /\
  ExtraCFlags (fold_left parseArg args o) = ExtraCFlags o /\
  ExtraLDFlags (fold_left parseArg args o) = ExtraLDFlags o.
Proof.
  revert o. induction args as [|a args IH]; intros o; simpl; [auto|].
  destruct (IH (parseArg o a)) as [H1 [H2 H3]]. rewrite H1, H2, H3. auto.
Qed.

Lemma adjustCompiler_fields (o : Options) :
  let o' := adjustCompiler o in
  Std o' = Std o /\ Win64Docker o' = Win64Docker o /\ Sloppy o' = Sloppy o /\
  Run o' = Run o /\ Test o' = Test o /\ Clean o' = Clean o /\ Pro o' = Pro o /\
  Version o' = Version o /\ DetectedDistro o' = DetectedDistro o /\
  ExtraCFlags o' = ExtraCFlags o /\ ExtraLDFlags o' = ExtraLDFlags o.
Proof. unfold adjustCompiler. destruct (_ && _); simpl; repeat split. Qed.

Lemma classify_fields (H : Host) (w : World) (o : Options) (srcs : list string) :
  let o' := classify H w o srcs in
  CXX o' = CXX o /\
  Std o' = Std o /\ Win64Docker o' = Win64Docker o /\ Sloppy o' = Sloppy o /\
  Run o' = Run o /\ Test o' = Test o /\ Clean o' = Clean o /\ Pro o' = Pro o /\
  Version o' = Version o /\ DetectedDistro o' = DetectedDistro o /\
  ExtraCFlags o' = ExtraCFlags o /\ ExtraLDFlags o' = ExtraLDFlags o.
Proof.
  unfold classify. simpl.
  destruct (negb (findMainSource w srcs =s "")); [simpl; repeat split|].
  destruct (0 <? _)%nat; simpl; repeat split.
Qed.

Lemma plannedOptions_fields (H : Host) (w : World) (o : Options) :
  let o' := plannedOptions H w o in
  Std o' = Std o /\ Win64Docker o' = Win64Docker o /\ Sloppy o' = Sloppy o /\
  Run o' = Run o /\ Test o' = Test o /\ Clean o' = Clean o /\ Pro o' = Pro o /\
  Version o' = Version o /\ DetectedDistro o' = distroName H /\
  ExtraCFlags o' = ExtraCFlags o /\ ExtraLDFlags o' = ExtraLDFlags o /\
  Sources o' = discoverSources w /\ TestSources o' = testsOf (discoverSources w) /\
  MainSource o' = findMainSource w (discoverSources w).
Proof.
  unfold plannedOptions, withIncludeDirs. simpl.
  set (o0 := adjustCompiler (setDetectedDistro o (distroName H))).
  destruct (classify_fields H w o0 (discoverSources w))
    as (_ & C2 & C3 & C4 & C5 & C6 & C7 & C8 & C9 & C10 & C11 & C12).
  destruct (adjustCompiler_fields (setDetectedDistro o (distroName H)))
    as (A2 & A3 & A4 & A5 & A6 & A7 & A8 & A9 & A10 & A11 & A12).
  fold o0 in A2, A3, A4, A5, A6, A7, A8, A9, A10, A11, A12.
  rewrite C2, C3, C4, C5, C6, C7, C8, C9, C10, C11, C12.
  rewrite A2, A3, A4, A5, A6, A7, A8, A9, A10, A11, A12. simpl.
  rewrite Sources_classify, TestSources_classify, MainSource_classify.
  repeat split.
Qed.

Lemma flagsOnly_refl (o : Options) : flagsOnly o o.
Proof. exists (ExtraCFlags o), (ExtraLDFlags o). destruct o; reflexivity. Qed.

Lemma flagsOnly_trans (o1 o2 o3 : Options) :
  flagsOnly o1 o2 -> flagsOnly o2 o3 -> flagsOnly o1 o3.
Proof. intros [c [l ->]] [c' [l' ->]]. exists c', l'. reflexivity. Qed.

Lemma mergeFlag_flagsOnly (o : Options) (f : string) : flagsOnly o (mergeFlag o f).
Proof.
  unfold mergeFlag. destruct (_ || _).
  - exists (ExtraCFlags o ++ [f])%list, (ExtraLDFlags o). destruct o; reflexivity.
  - destruct (_ || _); [|apply flagsOnly_refl].
    exists (ExtraCFlags o), (ExtraLDFlags o ++ [f])%list. destruct o; reflexivity.
Qed.

Lemma mergePkgConfigFlags_flagsOnly (flags : string) (o : Options) :
  flagsOnly o (mergePkgConfigFlags flags o).
Proof.
  unfold mergePkgConfigFlags. generalize (Fields flags). intros fs. revert o.
  induction fs as [|f fs IH]; intros o; simpl; [apply flagsOnly_refl|].
  eapply flagsOnly_trans; [apply mergeFlag_flagsOnly | apply IH].
Qed.

Lemma Forall_isPrint_runsOf (evs : list Event) :
  Forall isPrint evs -> runsOf evs = [].
Proof.
  induction 1 as [|e evs He _ IH]; [reflexivity|].
  destruct e; try contradiction. exact IH.
Qed.

(** The loop of [pkgDiscovery] prints, and changes nothing but the flags. *)
Lemma reportMissing_spec (H : Host) (missing : list string) :
  forall (o : Options) (st : State),
  exists o' evs,
    reportMissing H o missing st = (o', mkState (world st) (cache st) (log st ++ evs)) /\
    flagsOnly o o' /\ Forall isPrint evs /\
    (forall h, In h missing -> In (EvPrint ("   " +:+ h)) evs).
Proof.
  induction missing as [|h rest IH]; intros o st.
  - exists o, []. simpl. unfold ret. rewrite app_nil_r. destruct st.
    repeat split; [apply flagsOnly_refl | constructor | intros h []].
  - simpl. unfold bind, Println, emit, getWorld. simpl.
    set (st1 := mkState (world st) (cache st) (log st ++ [EvPrint ("   " +:+ h)])).
    assert (Hstep : forall o1 st2 evs0,
              flagsOnly o o1 -> Forall isPrint evs0 ->
              st2 = mkState (world st) (cache st) (log st1 ++ evs0) ->
              exists o' evs,
                reportMissing H o1 rest st2 =
                  (o', mkState (world st) (cache st) (log st ++ evs)) /\
                flagsOnly o o' /\ Forall isPrint evs /\
                (forall h0, In h0 (h :: rest) -> In (EvPrint ("   " +:+ h0)) evs)).
    { intros o1 st2 evs0 Hfl Hpr ->.
      destruct (IH o1 (mkState (world st) (cache st) (log st1 ++ evs0)))
        as (o' & evs & Heq & Hfl' & Hpr' & Hin).
      exists o', ([EvPrint ("   " +:+ h)] ++ evs0 ++ evs)%list.
      split; [|split; [|split]].
      - rewrite Heq. simpl. rewrite <- !app_assoc. reflexivity.
      - eapply flagsOnly_trans; eassumption.
      - apply Forall_app. split; [repeat constructor|].
        apply Forall_app. split; assumption.
      - intros h0 [<- | Hr]; [left; reflexivity|].
        right. apply in_app_iff. right. apply in_app_iff. right. apply Hin, Hr. }
    destruct (mapHeaderToPkg h (DetectedDistro o)) as [pkg cmd].
    destruct (negb (pkg =s "") && negb (cmd =s "")).
    + simpl. destruct (gatherPkgConfigFlags H (world st) pkg) as [flags|].
      * destruct (negb (flags =s "")).
        -- apply (Hstep _ _ [EvPrint ("    Possibly install with: " +:+ cmd)]);
             [apply mergePkgConfigFlags_flagsOnly | repeat constructor | reflexivity].
        -- apply (Hstep _ _ [EvPrint ("    Possibly install with: " +:+ cmd)]);
             [apply flagsOnly_refl | repeat constructor | reflexivity].
      * apply (Hstep _ _ [EvPrint ("    Possibly install with: " +:+ cmd)]);
          [apply flagsOnly_refl | repeat constructor | reflexivity].
    + apply (Hstep _ _ []); [apply flagsOnly_refl | constructor |].
      unfold st1. simpl. rewrite app_nil_r. reflexivity.
Qed.

(** ** Logs only grow *)

Lemma extends_refl (st : State) : extends st st.
Proof. exists []. now rewrite app_nil_r. Qed.

Lemma extends_trans (a b c : State) : extends a b -> extends b c -> extends a c.
Proof.
  intros [e1 H1] [e2 H2]. exists (e1 ++ e2)%list. now rewrite H2, H1, app_assoc.
Qed.

Lemma ran_then_extends (a b c : State) : ranAProcess a b -> extends b c -> ranAProcess a c.
Proof.
  intros [e1 [H1 Hr]] [e2 H2]. exists (e1 ++ e2)%list.
  split; [now rewrite H2, H1, app_assoc|].
  rewrite runsOf_app. intros Hx. apply app_eq_nil in Hx. tauto.
Qed.

Lemma extends_then_ran (a b c : State) : extends a b -> ranAProcess b c -> ranAProcess a c.
Proof.
  intros [e1 H1] [e2 [H2 Hr]]. exists (e1 ++ e2)%list.
  split; [now rewrite H2, H1, app_assoc|].
  rewrite runsOf_app. intros Hx. apply app_eq_nil in Hx. tauto.
Qed.

Lemma ran_extends (a b : State) : ranAProcess a b -> extends a b.
Proof. intros [e [He _]]. now exists e. Qed.

Lemma extends_log (st : State) (w : World) (cc : gmap string Z) (evs : list Event) :
  extends st (mkState w cc (log st ++ evs)).
Proof. now exists evs. Qed.

Lemma runCommand_ran (H : Host) (line : string) (o : Options) (st : State) :
  Fields line <> [] -> ranAProcess st (snd (runCommand H line o st)).
Proof.
  intros Hf. rewrite (runCommand_eq H line o st Hf). cbv zeta.
  destruct (runProcess H _ (world st)) as [ok w']. cbn [snd].
  eexists. split; [reflexivity|].
  rewrite runsOf_app. destruct (commandPrints_quiet o (world st) line) as [-> _].
  discriminate.
Qed.

Lemma exec_ran (H : Host) (argv : list string) (st : State) :
  ranAProcess st (snd (exec H argv st)).
Proof.
  unfold exec. destruct (runProcess H argv (world st)) as [ok w']. cbn [snd].
  eexists. split; [reflexivity | discriminate].
Qed.

Lemma compileOne_extends (H : Host) (o : Options) (src : string) (st : State) :
  extends st (snd (compileOne H o src st)) /\
  (snd (fst (compileOne H o src st)) <> None ->
   ranAProcess st (snd (compileOne H o src st))).
Proof.
  rewrite compileOne_eq. cbv zeta.
  destruct (needsRebuild _ _ _ _).
  - destruct (runProcess H _ (world st)) as [[|] w'].
    + destruct (Stat w' src); cbn [fst snd]; (split; [|congruence]);
        rewrite <- app_assoc; apply extends_log.
    + cbn [fst snd]. rewrite <- app_assoc. split; [apply extends_log|].
      intros _. eexists. split; [reflexivity|].
      change (EvStale src (objectPath src) true :: ?l)
        with ([EvStale src (objectPath src) true] ++ l)%list.
      rewrite !runsOf_app.
      destruct (commandPrints_quiet o (world st)
                  (buildCompileCmd o src (objectPath src))) as [-> _].
      discriminate.
  - cbn [fst snd]. split; [apply extends_log | congruence].
Qed.

Lemma compileSources_extends (H : Host) (o : Options) (srcs : list string) :
  forall (objs : list string) (st : State),
    extends st (snd (compileSources H o srcs objs st)) /\
    (snd (fst (compileSources H o srcs objs st)) <> None ->
     ranAProcess st (snd (compileSources H o srcs objs st))).
Proof.
  induction srcs as [|s rest IH]; intros objs st; simpl.
  - unfold ret. cbn [fst snd]. split; [apply extends_refl | congruence].
  - destruct (negb (Test o) && isTestSource s); [apply IH|].
    unfold bind. destruct (compileOne_extends H o s st) as [Hext Hran].
    destruct (compileOne H o s st) as [[obj [e|]] st1]; cbn [fst snd] in *.
    + unfold ret. cbn [fst snd]. split; [exact Hext | intros _; apply Hran; congruence].
    + destruct (IH (objs ++ [obj])%list st1) as [Hext' Hran'].
      split; [eapply extends_trans; eassumption|].
      intros Hne. eapply extends_then_ran; [exact Hext | exact (Hran' Hne)].
Qed.

Lemma compileAndLink_ran (H : Host) (o : Options) (st : State) :
  ranAProcess st (snd (compileAndLink H o st)).
Proof.
  unfold compileAndLink, bind.
  destruct (compileSources_extends H o (Sources o) [] st) as [Hext Hran].
  destruct (compileSources H o (Sources o) [] st) as [[objs [e|]] st1];
    cbn [fst snd] in *.
  - unfold ret. cbn [snd]. apply Hran. congruence.
  - unfold linkObjects.
    pose proof (runCommand_ran H _ o st1
                  (Fields_linkLine o objs (ensureExeSuffix H (OutputName o) (Win64Docker o))))
      as Hlink.
    destruct (runCommand H _ o st1) as [[e|] st2]; unfold ret; cbn [snd] in *;
      eapply extends_then_ran; eassumption.
Qed.

Lemma singleStepBuild_ran (H : Host) (o : Options) (source : string) (st : State) :
  ranAProcess st (snd (singleStepBuild H o source st)).
Proof.
  unfold singleStepBuild, bind, Println, emit.
  set (st1 := mkState _ _ _).
  pose proof (runCommand_ran H _ o st1
                (Fields_singleStepLine o source
                   (ensureExeSuffix H (OutputName o) (Win64Docker o)))) as Hrun.
  assert (Hext : extends st st1) by apply extends_log.
  destruct (runCommand H _ o st1) as [[e|] st2]; unfold ret; cbn [snd] in *;
    eapply extends_then_ran; eassumption.
Qed.

Lemma buildStep_ran (H : Host) (o : Options) (normal tests : list string) (st : State) :
  ranAProcess st (snd (buildStep H o normal tests st)).
Proof.
  unfold buildStep. destruct (planStrategy o normal tests).
  - apply singleStepBuild_ran.
  - unfold bind. pose proof (compileAndLink_ran H o st) as Hran.
    destruct (compileAndLink H o st) as [[o' [e|]] st1]; unfold ret; cbn [snd] in *.
    + exact Hran.
    + eapply ran_then_extends; [exact Hran|]. unfold saveCache. cbn [snd].
      apply extends_log.
Qed.

Lemma compileNormal_extends (H : Host) (o : Options) (srcs : list string) :
  forall (objs : list string) (st : State),
    extends st (snd (compileNormal H o srcs objs st)).
Proof.
  induction srcs as [|s rest IH]; intros objs st; simpl.
  - apply extends_refl.
  - destruct (negb (isTestSource s)); [|apply IH].
    unfold bind. destruct (compileOne_extends H o s st) as [Hext _].
    destruct (compileOne H o s st) as [[obj [e|]] st1]; cbn [fst snd] in *.
    + exact Hext.
    + eapply extends_trans; [exact Hext | apply IH].
Qed.

Lemma runTests_extends (H : Host) (o : Options) (tests : list string) :
  forall (objs : list string) (st : State),
    extends st (snd (runTests H o tests objs st)).
Proof.
  induction tests as [|s rest IH]; intros objs st; simpl.
  - apply extends_refl.
  - unfold bind. destruct (compileOne_extends H o s st) as [Hext _].
    destruct (compileOne H o s st) as [[obj [e|]] st1]; cbn [fst snd] in *;
      [exact Hext|].
    unfold linkObjects.
    pose proof (ran_extends _ _ (runCommand_ran H _ o st1
       (Fields_linkLine o (obj :: objs)
          (ensureExeSuffix H (TrimSuffix obj ".o") (Win64Docker o))))) as Hlink.
    destruct (runCommand H _ o st1) as [[e|] st2]; cbn [snd] in *.
    + eapply extends_trans; eassumption.
    + unfold Println, emit. cbn [snd].
      set (st3 := mkState _ _ _).
      assert (H3 : extends st st3).
      { eapply extends_trans; [exact Hext|]. eapply extends_trans; [exact Hlink|].
        apply extends_log. }
      destruct (Win64Docker o).
      * eapply extends_trans; [exact H3|].
        eapply extends_trans; [|apply IH]. apply extends_log.
      * pose proof (ran_extends _ _ (exec_ran H ["./" +:+ ensureExeSuffix H (TrimSuffix obj ".o") false] st3)) as He.
        destruct (exec H _ st3) as [[e|] st4]; cbn [snd] in *.
        -- eapply extends_trans; eassumption.
        -- eapply extends_trans; [exact H3|].
           eapply extends_trans; [exact He | apply IH].
Qed.

Lemma buildAndRunTests_extends (H : Host) (o : Options) (st : State) :
  extends st (snd (buildAndRunTests H o st)).
Proof.
  unfold buildAndRunTests, bind.
  pose proof (compileNormal_extends H o (Sources o) [] st) as Hn.
  destruct (compileNormal H o (Sources o) [] st) as [[objs [e|]] st1];
    cbn [snd] in *; [exact Hn|].
  eapply extends_trans; [exact Hn | apply runTests_extends].
Qed.

Lemma runStep_extends (H : Host) (o : Options) (st : State) :
  extends st (snd (runStep H o st)).
Proof.
  unfold runStep. destruct (_ && _); [|apply extends_refl].
  unfold bind, Println, emit. destruct (Win64Docker o).
  - cbn [snd world cache log]. rewrite <- app_assoc. apply extends_log.
  - eapply extends_trans; [|apply ran_extends, exec_ran]. apply extends_log.
Qed.

Lemma fatal_extends (msg : string) (st : State) : extends st (snd (fatal msg st)).
Proof.
  unfold fatal, bind, Println, emit. cbn [snd world cache log].
  rewrite <- app_assoc. apply extends_log.
Qed.

(** Whatever the strategy, [build] starts at least one process. *)
Lemma build_ran (H : Host) (o : Options) (normal tests : list string) (st : State) :
  ranAProcess st (snd (build H o normal tests st)).
Proof.
  unfold build, bind, loadCache.
  set (st0 := mkState _ _ _).
  assert (H0 : extends st st0) by (exists []; simpl; now rewrite app_nil_r).
  pose proof (buildStep_ran H o normal tests st0) as Hb.
  destruct (buildStep H o normal tests st0) as [[o1 [e|]] st1]; cbn [snd] in *.
  - eapply extends_then_ran; [exact H0|].
    eapply ran_then_extends; [exact Hb | apply fatal_extends].
  - eapply extends_then_ran; [exact H0|].
    eapply ran_then_extends; [exact Hb|].
    assert (Ht : extends st1
              (snd ((if Test o1 && (0 <? List.length tests)%nat
                     then buildAndRunTests H o1 else ret None) st1))).
    { destruct (_ && _); [apply buildAndRunTests_extends | apply extends_refl]. }
    destruct ((if Test o1 && (0 <? List.length tests)%nat
               then buildAndRunTests H o1 else ret None) st1) as [[e|] st2];
      cbn [snd] in *.
    + eapply extends_trans; [exact Ht | apply fatal_extends].
    + eapply extends_trans; [exact Ht|].
      pose proof (runStep_extends H o1 st2) as Hr.
      destruct (runStep H o1 st2) as [[e|] st3]; cbn [snd] in *.
      * eapply extends_trans; [exact Hr|]. unfold emit. cbn [snd]. apply extends_log.
      * eapply extends_trans; [exact Hr|]. unfold Println, emit. cbn [snd].
        apply extends_log.
Qed.

(** ** The run: unresolved headers *)

Lemma flagsOnly_switches (o o' : Options) :
  flagsOnly o o' ->
  Sloppy o' = Sloppy o /\ Pro o' = Pro o /\ Test o' = Test o /\ Run o' = Run o /\
  Win64Docker o' = Win64Docker o /\ Sources o' = Sources o /\
  TestSources o' = TestSources o /\ OutputName o' = OutputName o.
Proof. intros [c [l ->]]. simpl. repeat split. Qed.

Lemma pkgDiscovery_spec (H : Host) (o : Options) (missing : list string) (st : State) :
  exists o' evs,
    flagsOnly o o' /\ Forall isPrint evs /\
    In (EvPrint "Missing headers:") evs /\
    (forall h, In h missing -> In (EvPrint ("   " +:+ h)) evs) /\
    pkgDiscovery H o missing st =
      (if Sloppy o then Some o' else None,
       mkState (world st) (cache st)
         (log st ++ evs ++ (if Sloppy o then [] else [EvExit 1]))).
Proof.
  unfold pkgDiscovery, bind, Println, emit.
  set (st1 := mkState (world st) (cache st) (log st ++ [EvPrint "Missing headers:"])).
  destruct (reportMissing_spec H missing o st1) as (o' & evs & Heq & Hfl & Hpr & Hin).
  rewrite Heq. destruct (flagsOnly_switches o o' Hfl) as [Hs _]. rewrite Hs.
  exists o'. destruct (Sloppy o); cbn [negb world cache log].
  - exists ([EvPrint "Missing headers:"] ++ evs ++
            [EvPrint "Continuing in sloppy mode, ignoring missing headers."])%list.
    split; [exact Hfl|]. split; [|split; [|split]].
    + apply Forall_app. split; [repeat constructor|].
      apply Forall_app. split; [exact Hpr | repeat constructor].
    + apply in_app_iff. left. left. reflexivity.
    + intros h Hh. apply in_app_iff. right. apply in_app_iff. left. apply Hin, Hh.
    + unfold ret. unfold st1. cbn [world cache log].
      rewrite app_nil_r, <- !app_assoc. reflexivity.
  - exists ([EvPrint "Missing headers:"] ++ evs ++
            [EvPrint "";
             EvPrint "Cannot proceed unless sloppy mode is used or you fix missing headers."])%list.
    split; [exact Hfl|]. split; [|split; [|split]].
    + apply Forall_app. split; [repeat constructor|].
      apply Forall_app. split; [exact Hpr | repeat constructor].
    + apply in_app_iff. left. left. reflexivity.
    + intros h Hh. apply in_app_iff. right. apply in_app_iff. left. apply Hin, Hh.
    + unfold ret. unfold st1. cbn [world cache log].
      rewrite <- !app_assoc. reflexivity.
Qed.

(** [main] once past the early returns: the options are planned, the
    headers resolved, and the build (or the project file) follows unless
    [pkgDiscovery] has ended the process. *)
Lemma mainWith_planned (H : Host) (o : Options) (st : State) :
  Version o = false -> Clean o = false -> discoverSources (world st) <> [] ->
  mainWith H o st =
  let w := world st in
  let o1 := plannedOptions H w o in
  let srcs := discoverSources w in
  (r <- match missingHeaders H w o1 with
        | [] => ret (Some o1)
        | _ => pkgDiscovery H o1 (missingHeaders H w o1)
        end ;;
   match r with
   | None => ret tt
   | Some o2 =>
       if Pro o2 then generateProFile o2
       else build H o2 (normalOf srcs) (testsOf srcs)
   end) st.
Proof.
  intros Hv Hc Hs. unfold mainWith. rewrite Hv. unfold bind at 1. unfold getWorld.
  destruct (discoverSources (world st)) as [|s srcs] eqn:Hsrc; [congruence|].
  cbn [List.length Nat.eqb andb].
  set (o0 := adjustCompiler (setDetectedDistro o (distroName H))).
  destruct (classify_fields H (world st) o0 (s :: srcs))
    as (_ & _ & _ & _ & _ & _ & Hcl & _).
  destruct (adjustCompiler_fields (setDetectedDistro o (distroName H)))
    as (_ & _ & _ & _ & _ & Hcl' & _).
  fold o0 in Hcl'. rewrite Hcl, Hcl'.
  change (Clean (setDetectedDistro o (distroName H))) with (Clean o). rewrite Hc.
  cbv zeta. unfold plannedOptions. fold o0. rewrite Hsrc. reflexivity.
Qed.

Lemma In_printsOf (t : string) (evs : list Event) :
  In (EvPrint t) evs -> In t (printsOf evs).
Proof.
  induction evs as [|e evs IH]; [intros []|].
  intros [-> | Hin]; [left; reflexivity|].
  destruct e; simpl; auto.
Qed.

(** C4. With a header unresolved and sloppy mode off, the run prints the
    list of missing headers, every one of them, and exits with status 1
    without having started any process; in sloppy mode [pkgDiscovery]
    returns, and the run goes on to the build, which starts a process. *)
Theorem unresolved_headers_stop_the_run (H : Host) (args : list string) (w : World) :
  let o := parseArgs args in
  let o1 := plannedOptions H w o in
  let missing := missingHeaders H w o1 in
  let srcs := discoverSources w in
  Version o = false -> Clean o = false -> srcs <> [] -> missing <> [] ->
  (Sloppy o = false ->
   let st' := runMain H args w in
   runsOf (log st') = [] /\
   (exists evs, log st' = (evs ++ [EvExit 1])%list /\ Forall isPrint evs) /\
   In "Missing headers:" (printsOf (log st')) /\
   (forall h, In h missing -> In ("   " +:+ h) (printsOf (log st'))) /\
   world st' = w) /\
  (Sloppy o = true ->
   exists o2 st1,
     pkgDiscovery H o1 missing (mkState w ∅ []) = (Some o2, st1) /\
     flagsOnly o1 o2 /\ world st1 = w /\ runsOf (log st1) = [] /\
     runMain H args w =
       snd ((if Pro o then generateProFile o2
             else build H o2 (normalOf srcs) (testsOf srcs)) st1) /\
     (Pro o = false -> runsOf (log (runMain H args w)) <> [])).
Proof.
  intros o o1 missing srcs Hv Hc Hs Hm.
  assert (Hmain : runMain H args w =
            snd ((r <- pkgDiscovery H o1 missing ;;
                  match r with
                  | None => ret tt
                  | Some o2 =>
                      if Pro o2 then generateProFile o2
                      else build H o2 (normalOf srcs) (testsOf srcs)
                  end) (mkState w ∅ []))).
  { unfold runMain, main. fold o.
    rewrite (mainWith_planned H o (mkState w ∅ []) Hv Hc Hs). cbv zeta.
    cbn [world]. fold o1. fold missing. fold srcs.
    destruct missing; [congruence | reflexivity]. }
  destruct (pkgDiscovery_spec H o1 missing (mkState w ∅ []))
    as (o2 & evs & Hfl & Hpr & Hhead & Hall & Heq).
  destruct (plannedOptions_fields H w o) as (_ & _ & Hsl & _ & _ & _ & Hpro & _).
  fold o1 in Hsl, Hpro.
  destruct (flagsOnly_switches o1 o2 Hfl) as (_ & Hpro2 & _).
  cbn [world cache log] in Heq. rewrite app_nil_l in Heq.
  split; intros Hsloppy; rewrite Hsl, Hsloppy in Heq.
  - cbv zeta. rewrite Hmain. unfold bind. rewrite Heq. unfold ret. cbn [snd log world].
    split; [|split; [|split; [|split]]].
    + rewrite runsOf_app, (Forall_isPrint_runsOf evs Hpr). reflexivity.
    + exists evs. split; [reflexivity | exact Hpr].
    + rewrite printsOf_app. apply in_app_iff. left. apply In_printsOf, Hhead.
    + intros h Hh. rewrite printsOf_app. apply in_app_iff. left.
      apply In_printsOf, Hall, Hh.
    + reflexivity.
  - rewrite app_nil_r in Heq. exists o2, (mkState w ∅ evs).
    split; [exact Heq|]. split; [exact Hfl|]. split; [reflexivity|].
    split; [apply Forall_isPrint_runsOf, Hpr|].
    assert (Hrun : runMain H args w =
              snd ((if Pro o then generateProFile o2
                    else build H o2 (normalOf srcs) (testsOf srcs)) (mkState w ∅ evs))).
    { rewrite Hmain. unfold bind. rewrite Heq, Hpro2, Hpro. reflexivity. }
    split; [exact Hrun|].
    intros Hp. rewrite Hrun, Hp.
    destruct (build_ran H o2 (normalOf srcs) (testsOf srcs) (mkState w ∅ evs))
      as [evs' [Hlog Hne]].
    rewrite Hlog, runsOf_app. intros Hx. apply app_eq_nil in Hx. tauto.
Qed.

(** Scenario C: main.cpp includes a boost header that no directory holds;
    without sloppy mode the run stops before any process is started. *)
Lemma unresolved_headers_stop_the_run_witness :
  runsOf (log (runMain Reference.host [] worldC)) = [] /\
  In "   boost/lexical_cast.hpp" (printsOf (log (runMain Reference.host [] worldC))).
Proof.
  assert (Hm : In "boost/lexical_cast.hpp"
                 (missingHeaders Reference.host worldC
                    (plannedOptions Reference.host worldC (parseArgs []))))
    by (vm_compute; tauto).
  destruct (unresolved_headers_stop_the_run Reference.host [] worldC) as [Hstop _].
  - reflexivity.
  - reflexivity.
  - vm_compute. discriminate.
  - vm_compute. discriminate.
  - destruct (Hstop eq_refl) as (Hruns & _ & _ & Hall & _).
    split; [exact Hruns | exact (Hall _ Hm)].
Defined.

(** ** The run: a single source *)

Lemma prefixL_app (p l : list ascii) : prefixL p (p ++ l) = true.
Proof.
  induction p as [|c p IH]; simpl; [reflexivity|].
  now rewrite Ascii.eqb_refl, IH.
Qed.

Lemma HasSuffix_app (b s : string) : HasSuffix (b +:+ s) s = true.
Proof. unfold HasSuffix. rewrite chars_app, rev_app_distr. apply prefixL_app. Qed.

Lemma ensureExeSuffix_guess (H : Host) (w : World) (m : string) (d : bool) :
  ensureExeSuffix H (guessOutputNameFromMain H w m d) d =
  guessOutputNameFromMain H w m d.
Proof.
  unfold ensureExeSuffix, guessOutputNameFromMain.
  set (b := if Filepath.Base (getwd w) =s "src" then _ else _).
  destruct d, (GOOS H =s "windows"), (HasSuffix b ".exe") eqn:Hb; simpl;
    rewrite ?HasSuffix_app, ?Hb; reflexivity.
Qed.

(** The single-step build, in closed form. *)
Lemma buildStep_single (H : Host) (o : Options) (normal tests : list string)
  (st : State) (source : string) :
  planStrategy o normal tests = SingleStep source ->
  let on := ensureExeSuffix H (OutputName o) (Win64Docker o) in
  let line := singleStepLine o source on in
  let argv := commandArgv o (world st) line in
  buildStep H o normal tests st =
  match runProcess H argv (world st) with
  | (ok, w') =>
      (if ok then (setOutputName o on, None) else (o, Some (ExitError argv)),
       mkState w' (cache st)
         (log st ++ [EvPrint line] ++ commandPrints o (world st) line ++ [EvRun argv ok]))
  end.
Proof.
  intros Hs. cbv zeta. unfold buildStep. rewrite Hs.
  unfold singleStepBuild, bind, Println, emit, ret.
  rewrite runCommand_eq by apply Fields_singleStepLine.
  cbv zeta. cbn [world cache log].
  destruct (runProcess H _ (world st)) as [[|] w']; rewrite <- !app_assoc; reflexivity.
Qed.

(** C9, as the code has it. In a directory whose only source is main.cpp,
    a plain build (no test mode, no missing header) selects the single-step
    strategy and starts the compiler on
    [<toolchain> -std=c++20 <flags> main.cpp -o <out>], where [<out>] is the
    base name of the working directory, or [main] when that name is [src],
    with [.exe] appended for a Windows target; nothing else is started
    unless the artifact is to be run. *)
Theorem scenarioA_single_command (H : Host) (args : list string) (w : World) :
  let o := parseArgs args in
  let o1 := plannedOptions H w o in
  let dir := Filepath.Base (getwd w) in
  let name := if dir =s "src" then "main" else dir in
  let out :=
    if (Win64Docker o || (GOOS H =s "windows")) && negb (HasSuffix name ".exe")
    then name +:+ ".exe" else name in
  let line := CXX o1 +:+ " " +:+ "-std=c++20" +:+ " " +:+ compileFlags o1 +:+ " " +:+
              "" +:+ " " +:+ "main.cpp" +:+ " -o " +:+ out in
  discoverSources w = ["main.cpp"] ->
  Version o = false -> Clean o = false -> Pro o = false -> Test o = false ->
  missingHeaders H w o1 = [] ->
  MainSource o1 = "main.cpp" /\
  OutputName o1 = out /\
  planStrategy o1 (normalOf (discoverSources w)) (testsOf (discoverSources w))
    = SingleStep "main.cpp" /\
  singleStepLine o1 "main.cpp" (ensureExeSuffix H (OutputName o1) (Win64Docker o1)) = line /\
  exists rest,
    runsOf (log (runMain H args w)) = commandArgv o1 w line :: rest /\
    (Run o = false -> rest = []).
Proof.
  intros o o1 dir name out line Hsrc Hv Hc Hp Ht Hm.
  destruct (plannedOptions_fields H w o)
    as (Fstd & Fdock & _ & Frun & Ftest & _ & Fpro & _ & _ & Fc & Fl & Fsrc & Ftests & Fmain).
  fold o1 in Fstd, Fdock, Frun, Ftest, Fpro, Fc, Fl, Fsrc, Ftests, Fmain.
  destruct (parseArgs_fixed args defaultOptions) as (Pstd & Pc & Pl).
  fold (parseArgs args) in Pstd, Pc, Pl. fold o in Pstd, Pc, Pl.
  simpl in Pstd, Pc, Pl.
  assert (Emain : MainSource o1 = "main.cpp") by (rewrite Fmain, Hsrc; reflexivity).
  assert (Eout : OutputName o1 = out).
  { unfold o1, plannedOptions, withIncludeDirs. simpl OutputName.
    unfold classify. rewrite Hsrc.
    change (findMainSource w ["main.cpp"]) with "main.cpp". cbn [MainSource setMainSource negb String.eqb Ascii.eqb Bool.eqb].
    simpl OutputName. simpl Win64Docker.
    destruct (adjustCompiler_fields (setDetectedDistro o (distroName H)))
      as (_ & Ad & _).
    rewrite Ad. simpl Win64Docker.
    unfold guessOutputNameFromMain. fold dir.
    change (TrimSuffix (Filepath.Base "main.cpp") (Filepath.Ext "main.cpp")) with "main".
    change ("main" =s "") with false. cbv iota. fold name. unfold out.
    destruct (Win64Docker o), (GOOS H =s "windows"), (HasSuffix name ".exe"); reflexivity. }
  assert (Eplan : planStrategy o1 (normalOf (discoverSources w)) (testsOf (discoverSources w))
                  = SingleStep "main.cpp").
  { rewrite Hsrc. unfold planStrategy. rewrite Ftest, Ht. reflexivity. }
  assert (Eon : ensureExeSuffix H (OutputName o1) (Win64Docker o1) = out).
  { rewrite Eout, Fdock. unfold ensureExeSuffix, out.
    destruct (Win64Docker o), (GOOS H =s "windows"), (HasSuffix name ".exe") eqn:Hn;
      simpl; rewrite ?HasSuffix_app, ?Hn; reflexivity. }
  assert (Eline : singleStepLine o1 "main.cpp"
                    (ensureExeSuffix H (OutputName o1) (Win64Docker o1)) = line).
  { rewrite Eon. unfold singleStepLine, stdFlag. rewrite Fstd, Pstd, Fc, Pc, Fl, Pl.
    reflexivity. }
  split; [exact Emain|]. split; [exact Eout|]. split; [exact Eplan|].
  split; [exact Eline|].
  unfold runMain, main. fold o.
  assert (Hne : discoverSources (world (mkState w ∅ [])) <> [])
    by (cbn [world]; rewrite Hsrc; discriminate).
  rewrite (mainWith_planned H o (mkState w ∅ []) Hv Hc Hne).
  cbv zeta. cbn [world]. fold o1. rewrite Hm. unfold bind at 1. unfold ret at 1.
  rewrite Fpro, Hp. unfold build. unfold bind at 1. unfold loadCache.
  unfold bind at 1.
  rewrite (buildStep_single H o1 _ _ _ "main.cpp" Eplan).
  cbv zeta. cbn [world cache log]. rewrite Eline.
  destruct (runProcess H (commandArgv o1 w line) w) as [[|] w'].
  - assert (Hskip : Test (setOutputName o1 out) && (0 <? List.length (testsOf (discoverSources w)))%nat = false).
    { change (Test (setOutputName o1 out)) with (Test o1).
      rewrite Ftest, Ht. reflexivity. }
    rewrite Eon, Hskip. unfold bind at 1. unfold ret at 1. unfold bind at 1.
    set (st1 := mkState w' _ _).
    pose proof (runStep_extends H (setOutputName o1 out) st1) as [evs Hevs].
    assert (Hnorun : Run o = false -> runStep H (setOutputName o1 out) st1 = (None, st1)).
    { intros Hr. unfold runStep.
      change (Run (setOutputName o1 out)) with (Run o1).
      rewrite Frun, Hr. reflexivity. }
    destruct (runStep H (setOutputName o1 out) st1) as [[e|] st2] eqn:Hstep;
      cbn [snd] in Hevs |- *.
    + exists (runsOf evs). unfold emit. cbn [snd log]. rewrite Hevs. unfold st1.
      cbn [log]. rewrite !runsOf_app.
      destruct (commandPrints_quiet o1 w line) as [-> _]. simpl. rewrite app_nil_r.
      split; [reflexivity|]. intros Hr. specialize (Hnorun Hr). discriminate.
    + exists (runsOf evs). unfold Println, emit. cbn [snd log].
      pose proof Hevs as Hevs0. rewrite Hevs. unfold st1.
      cbn [log]. rewrite !runsOf_app.
      destruct (commandPrints_quiet o1 w line) as [-> _]. simpl. rewrite app_nil_r.
      split; [reflexivity|]. intros Hr. specialize (Hnorun Hr).
      injection Hnorun as Hst. rewrite Hst in Hevs0.
      assert (He : evs = []).
      { apply (app_inv_head (log st1)). rewrite app_nil_r. symmetry. exact Hevs0. }
      rewrite He. reflexivity.
  - exists []. unfold fatal, bind, Println, emit. cbn [snd log world cache].
    rewrite !runsOf_app. destruct (commandPrints_quiet o1 w line) as [-> _].
    split; [reflexivity | reflexivity].
Qed.

(** C9, as the specification words it, fails in a directory that is named
    neither src nor main: the artifact takes the directory's name. *)
Lemma scenarioA_output_is_not_main :
  runsOf (log (runMain Reference.host [] (worldA "/home/u/hello"))) =
    [Fields ("g++ -std=c++20 " +:+ compileFlags defaultOptions +:+ " main.cpp -o hello")] /\
  runsOf (log (runMain Reference.host [] (worldA "/home/u/hello"))) <>
    [Fields ("g++ -std=c++20 " +:+ compileFlags defaultOptions +:+ " main.cpp -o main")].
Proof. split; [vm_compute; reflexivity | vm_compute; discriminate]. Qed.

Lemma scenarioA_single_command_witness :
  OutputName (plannedOptions Reference.host (worldA "/home/u/hello") (parseArgs [])) = "hello" /\
  planStrategy (plannedOptions Reference.host (worldA "/home/u/hello") (parseArgs []))
    (normalOf (discoverSources (worldA "/home/u/hello")))
    (testsOf (discoverSources (worldA "/home/u/hello"))) = SingleStep "main.cpp".
Proof.
  destruct (scenarioA_single_command Reference.host [] (worldA "/home/u/hello"))
    as (_ & Hout & Hplan & _).
  - reflexivity.
  - reflexivity.
  - reflexivity.
  - reflexivity.
  - reflexivity.
  - vm_compute. reflexivity.
  - split; [exact Hout | exact Hplan].
Defined.

(** ** Staleness cache: when an entry is written *)

Lemma timesChecked_app (src : string) (a b : list Event) :
  timesChecked src (a ++ b) = (timesChecked src a + timesChecked src b)%nat.
Proof.
  unfold timesChecked. now rewrite staleChecks_app, List.filter_app, List.length_app.
Qed.

Lemma timesStamped_app (src : string) (a b : list Event) :
  timesStamped src (a ++ b) = (timesStamped src a + timesStamped src b)%nat.
Proof.
  unfold timesStamped. now rewrite stampsOf_app, List.filter_app, List.length_app.
Qed.

Lemma commandPrints_counts (o : Options) (w : World) (line src : string) :
  timesChecked src (commandPrints o w line) = 0%nat /\
  timesStamped src (commandPrints o w line) = 0%nat.
Proof.
  unfold timesChecked, timesStamped.
  destruct (commandPrints_quiet o w line) as (_ & -> & -> & _). auto.
Qed.

(** One call of [compileOne] evaluates its source once, and stamps it at
    most once and no other source. *)
Lemma compileOne_counts (H : Host) (o : Options) (s : string) (st : State) :
  exists evs,
    log (snd (compileOne H o s st)) = (log st ++ evs)%list /\
    forall src,
      (timesChecked src evs <= if string_dec s src then 1 else 0)%nat /\
      (timesStamped src evs <= if string_dec s src then 1 else 0)%nat.
Proof.
  rewrite compileOne_eq. cbv zeta.
  assert (Hone : forall src b,
            (timesChecked src [EvStale s (objectPath s) b] <= if string_dec s src then 1 else 0)%nat).
  { intros src b. unfold timesChecked. simpl.
    destruct (string_dec s src) as [-> | Hne].
    - rewrite String.eqb_refl. simpl. lia.
    - apply String.eqb_neq in Hne. rewrite Hne. simpl. lia. }
  assert (Hstamp : forall src t,
            (timesStamped src [EvStamp s t] <= if string_dec s src then 1 else 0)%nat).
  { intros src t. unfold timesStamped. simpl.
    destruct (string_dec s src) as [-> | Hne].
    - rewrite String.eqb_refl. simpl. lia.
    - apply String.eqb_neq in Hne. rewrite Hne. simpl. lia. }
  destruct (needsRebuild _ _ _ _).
  - destruct (runProcess H _ (world st)) as [[|] w'].
    + destruct (Stat w' s) as [i|]; cbn [snd log]; rewrite <- app_assoc;
        eexists; (split; [reflexivity|]); intros src;
        change (EvStale s (objectPath s) true :: ?l)
          with ([EvStale s (objectPath s) true] ++ l)%list;
        destruct (commandPrints_counts o (world st)
                    (buildCompileCmd o s (objectPath s)) src) as [Hc Hs];
        rewrite !timesChecked_app, !timesStamped_app, Hc, Hs;
        specialize (Hone src true).
      * change [EvRun ?a true; EvStamp s ?t] with ([EvRun a true] ++ [EvStamp s t])%list.
        rewrite timesChecked_app, timesStamped_app.
        specialize (Hstamp src (Unix (modTime i))).
        unfold timesChecked, timesStamped in *. simpl in *. lia.
      * unfold timesChecked, timesStamped in *. simpl in *. lia.
    + cbn [snd log]. rewrite <- app_assoc.
      eexists; (split; [reflexivity|]); intros src.
      change (EvStale s (objectPath s) true :: ?l)
        with ([EvStale s (objectPath s) true] ++ l)%list.
      destruct (commandPrints_counts o (world st)
                  (buildCompileCmd o s (objectPath s)) src) as [Hc Hs].
      rewrite !timesChecked_app, !timesStamped_app, Hc, Hs.
      specialize (Hone src true).
      unfold timesChecked, timesStamped in *. simpl in *. lia.
  - cbn [snd log]. eexists; (split; [reflexivity|]); intros src.
    specialize (Hone src false). split; [exact Hone|].
    unfold timesStamped. simpl. lia.
Qed.

Lemma compileSources_counts (H : Host) (o : Options) (srcs : list string) :
  forall (objs : list string) (st : State),
  exists evs,
    log (snd (compileSources H o srcs objs st)) = (log st ++ evs)%list /\
    forall src,
      (timesChecked src evs <= count_occ string_dec srcs src)%nat /\
      (timesStamped src evs <= count_occ string_dec srcs src)%nat.
Proof.
  induction srcs as [|s rest IH]; intros objs st; simpl compileSources.
  - exists []. unfold ret. cbn [snd]. rewrite app_nil_r. split; [reflexivity|].
    intros src. unfold timesChecked, timesStamped. simpl. lia.
  - destruct (negb (Test o) && isTestSource s).
    + destruct (IH objs st) as [evs [Hlog Hcnt]]. exists evs. split; [exact Hlog|].
      intros src. destruct (Hcnt src). simpl. destruct (string_dec s src); lia.
    + unfold bind. destruct (compileOne_counts H o s st) as [e1 [Hlog1 Hcnt1]].
      destruct (compileOne H o s st) as [[obj [e|]] st1]; cbn [snd] in *.
      * exists e1. unfold ret. cbn [snd]. split; [exact Hlog1|].
        intros src. destruct (Hcnt1 src). simpl. destruct (string_dec s src); lia.
      * destruct (IH (objs ++ [obj])%list st1) as [e2 [Hlog2 Hcnt2]].
        exists (e1 ++ e2)%list. split; [now rewrite Hlog2, Hlog1, app_assoc|].
        intros src. rewrite timesChecked_app, timesStamped_app.
        destruct (Hcnt1 src), (Hcnt2 src). simpl. destruct (string_dec s src); lia.
Qed.

Lemma compileAndLink_counts (H : Host) (o : Options) (st : State) :
  exists evs,
    log (snd (compileAndLink H o st)) = (log st ++ evs)%list /\
    forall src,
      (timesChecked src evs <= count_occ string_dec (Sources o) src)%nat /\
      (timesStamped src evs <= count_occ string_dec (Sources o) src)%nat.
Proof.
  unfold compileAndLink, bind.
  destruct (compileSources_counts H o (Sources o) [] st) as [e1 [Hlog1 Hcnt1]].
  destruct (compileSources H o (Sources o) [] st) as [[objs [e|]] st1]; cbn [snd] in *.
  - exists e1. unfold ret. cbn [snd]. auto.
  - unfold linkObjects.
    rewrite runCommand_eq by apply Fields_linkLine. cbv zeta.
    set (line := linkLine o objs _).
    destruct (runProcess H _ (world st1)) as [ok w'].
    exists (e1 ++ commandPrints o (world st1) line ++
            [EvRun (commandArgv o (world st1) line) ok])%list.
    split.
    + destruct ok; unfold ret; cbn [snd log]; now rewrite Hlog1, <- app_assoc.
    + intros src. rewrite !timesChecked_app, !timesStamped_app.
      destruct (commandPrints_counts o (world st1) line src) as [-> ->].
      destruct (Hcnt1 src). unfold timesChecked, timesStamped in *. simpl. lia.
Qed.

(** The sources a pass compiles, among [srcs]. *)
Lemma count_occ_split (srcs : list string) (src : string) :
  (count_occ string_dec (normalOf srcs) src + count_occ string_dec (testsOf srcs) src
   = count_occ string_dec srcs src)%nat.
Proof.
  unfold normalOf, testsOf. induction srcs as [|s rest IH]; [reflexivity|].
  simpl. destruct (isTestSource s); simpl; destruct (string_dec s src); lia.
Qed.

Lemma count_occ_filter_le (f : string -> bool) (srcs : list string) (src : string) :
  (count_occ string_dec (List.filter f srcs) src <= count_occ string_dec srcs src)%nat.
Proof.
  induction srcs as [|s rest IH]; [reflexivity|].
  simpl. destruct (f s); simpl; destruct (string_dec s src); lia.
Qed.

Lemma quiet_counts (src : string) (evs : list Event) :
  staleChecks evs = [] -> stampsOf evs = [] ->
  timesChecked src evs = 0%nat /\ timesStamped src evs = 0%nat.
Proof. unfold timesChecked, timesStamped. now intros -> ->. Qed.

(** A call of [compileOne] evaluates its source exactly once. *)
Lemma compileOne_checks (H : Host) (o : Options) (s : string) (st : State) :
  exists evs,
    log (snd (compileOne H o s st)) = (log st ++ evs)%list /\
    forall src,
      timesChecked src evs = (if string_dec s src then 1 else 0)%nat /\
      (timesStamped src evs <= if string_dec s src then 1 else 0)%nat.
Proof.
  rewrite compileOne_eq. cbv zeta.
  assert (Hone : forall src b,
            timesChecked src [EvStale s (objectPath s) b] =
              (if string_dec s src then 1 else 0)%nat).
  { intros src b. unfold timesChecked. simpl.
    destruct (string_dec s src) as [-> | Hne].
    - now rewrite String.eqb_refl.
    - apply String.eqb_neq in Hne. now rewrite Hne. }
  assert (Hstamp : forall src t,
            (timesStamped src [EvStamp s t] <= if string_dec s src then 1 else 0)%nat).
  { intros src t. unfold timesStamped. simpl.
    destruct (string_dec s src) as [-> | Hne].
    - rewrite String.eqb_refl. simpl. lia.
    - apply String.eqb_neq in Hne. rewrite Hne. simpl. lia. }
  destruct (needsRebuild _ _ _ _).
  - destruct (runProcess H _ (world st)) as [[|] w'].
    + destruct (Stat w' s) as [i|]; cbn [snd log]; rewrite <- app_assoc;
        eexists; (split; [reflexivity|]); intros src;
        change (EvStale s (objectPath s) true :: ?l)
          with ([EvStale s (objectPath s) true] ++ l)%list;
        destruct (commandPrints_counts o (world st)
                    (buildCompileCmd o s (objectPath s)) src) as [Hc Hs];
        rewrite !timesChecked_app, !timesStamped_app, Hc, Hs, (Hone src true).
      * change [EvRun ?a true; EvStamp s ?t] with ([EvRun a true] ++ [EvStamp s t])%list.
        rewrite timesChecked_app, timesStamped_app.
        specialize (Hstamp src (Unix (modTime i))).
        unfold timesChecked, timesStamped in *. simpl in *. lia.
      * unfold timesChecked, timesStamped in *. simpl in *. lia.
    + cbn [snd log]. rewrite <- app_assoc.
      eexists; (split; [reflexivity|]); intros src.
      change (EvStale s (objectPath s) true :: ?l)
        with ([EvStale s (objectPath s) true] ++ l)%list.
      destruct (commandPrints_counts o (world st)
                  (buildCompileCmd o s (objectPath s)) src) as [Hc Hs].
      rewrite !timesChecked_app, !timesStamped_app, Hc, Hs, (Hone src true).
      unfold timesChecked, timesStamped in *. simpl in *. lia.
  - cbn [snd log]. eexists; (split; [reflexivity|]); intros src.
    split; [apply Hone|]. unfold timesStamped. simpl. lia.
Qed.

Lemma passCounts_nil (ok : bool) : passCounts [] ok [].
Proof. intros src. unfold timesChecked, timesStamped. simpl. auto. Qed.

Lemma passCounts_stop (s : string) (rest : list string) (e1 : list Event) :
  (forall src,
     timesChecked src e1 = (if string_dec s src then 1 else 0)%nat /\
     (timesStamped src e1 <= if string_dec s src then 1 else 0)%nat) ->
  passCounts (s :: rest) false e1.
Proof.
  intros H1 src. destruct (H1 src) as [Hc Hs]. simpl.
  destruct (string_dec s src); repeat split; try lia; try discriminate.
Qed.

Lemma passCounts_cons (s : string) (rest : list string) (ok : bool)
      (e1 e2 : list Event) :
  (forall src,
     timesChecked src e1 = (if string_dec s src then 1 else 0)%nat /\
     (timesStamped src e1 <= if string_dec s src then 1 else 0)%nat) ->
  passCounts rest ok e2 -> passCounts (s :: rest) ok (e1 ++ e2).
Proof.
  intros H1 H2 src. destruct (H1 src) as [Hc Hs]. destruct (H2 src) as (Hc2 & Hs2 & Heq).
  rewrite timesChecked_app, timesStamped_app. simpl.
  destruct (string_dec s src); repeat split; try lia; intros Hok; specialize (Heq Hok); lia.
Qed.

Lemma passCounts_quiet (compiled : list string) (ok : bool) (e1 e2 : list Event) :
  passCounts compiled true e1 -> staleChecks e2 = [] -> stampsOf e2 = [] ->
  passCounts compiled ok (e1 ++ e2).
Proof.
  intros H1 Hc Hs src. destruct (H1 src) as (H1c & H1s & H1e).
  destruct (quiet_counts src e2 Hc Hs) as [Q1 Q2].
  rewrite timesChecked_app, timesStamped_app, Q1, Q2, !Nat.add_0_r.
  specialize (H1e eq_refl). repeat split; auto; lia.
Qed.

Lemma passCounts_app (c1 c2 : list string) (ok : bool) (e1 e2 : list Event) :
  passCounts c1 true e1 -> passCounts c2 ok e2 -> passCounts (c1 ++ c2) ok (e1 ++ e2).
Proof.
  intros H1 H2 src. destruct (H1 src) as (A1 & A2 & A3). destruct (H2 src) as (B1 & B2 & B3).
  rewrite timesChecked_app, timesStamped_app, count_occ_app. specialize (A3 eq_refl).
  repeat split; try lia. intros Hok. specialize (B3 Hok). lia.
Qed.

Lemma passCounts_weaken (compiled : list string) (ok : bool) (evs : list Event) :
  passCounts compiled true evs -> passCounts compiled ok evs.
Proof. intros H1 src. destruct (H1 src) as (A1 & A2 & A3). auto. Qed.

Lemma compileSources_checks (H : Host) (o : Options) (srcs : list string) :
  forall (objs : list string) (st : State),
  exists evs,
    log (snd (compileSources H o srcs objs st)) = (log st ++ evs)%list /\
    passCounts (List.filter (fun s => negb (negb (Test o) && isTestSource s)) srcs)
      (succeededB (snd (fst (compileSources H o srcs objs st)))) evs.
Proof.
  induction srcs as [|s rest IH]; intros objs st; simpl compileSources.
  - exists []. unfold ret. cbn [fst snd]. rewrite app_nil_r. split; [reflexivity|].
    apply passCounts_nil.
  - simpl List.filter. destruct (negb (Test o) && isTestSource s); cbn [negb]; [apply IH|].
    unfold bind. destruct (compileOne_checks H o s st) as [e1 [Hlog1 Hcnt1]].
    destruct (compileOne H o s st) as [[obj [e|]] st1]; cbn [snd] in *.
    + exists e1. unfold ret. cbn [fst snd]. split; [exact Hlog1|].
      now apply passCounts_stop.
    + destruct (IH (objs ++ [obj])%list st1) as [e2 [Hlog2 Hcnt2]].
      exists (e1 ++ e2)%list. split; [now rewrite Hlog2, Hlog1, app_assoc|].
      now apply passCounts_cons.
Qed.

Lemma compileNormal_checks (H : Host) (o : Options) (srcs : list string) :
  forall (objs : list string) (st : State),
  exists evs,
    log (snd (compileNormal H o srcs objs st)) = (log st ++ evs)%list /\
    passCounts (normalOf srcs)
      (succeededB (snd (fst (compileNormal H o srcs objs st)))) evs.
Proof.
  induction srcs as [|s rest IH]; intros objs st; simpl compileNormal.
  - exists []. unfold ret. cbn [fst snd]. rewrite app_nil_r. split; [reflexivity|].
    apply passCounts_nil.
  - unfold normalOf. simpl List.filter. fold (normalOf rest).
    destruct (negb (isTestSource s)); [|apply IH].
    unfold bind. destruct (compileOne_checks H o s st) as [e1 [Hlog1 Hcnt1]].
    destruct (compileOne H o s st) as [[obj [e|]] st1]; cbn [snd] in *.
    + exists e1. unfold ret. cbn [fst snd]. split; [exact Hlog1|].
      now apply passCounts_stop.
    + destruct (IH (objs ++ [obj])%list st1) as [e2 [Hlog2 Hcnt2]].
      exists (e1 ++ e2)%list. split; [now rewrite Hlog2, Hlog1, app_assoc|].
      now apply passCounts_cons.
Qed.

(** A command leaves neither a staleness check nor a stamp. *)
Lemma runCommand_quiet (H : Host) (line : string) (o : Options) (st : State) :
  Fields line <> [] ->
  exists evs,
    log (snd (runCommand H line o st)) = (log st ++ evs)%list /\
    staleChecks evs = [] /\ stampsOf evs = [].
Proof.
  intros Hf. rewrite (runCommand_eq H line o st Hf). cbv zeta.
  destruct (runProcess H _ (world st)) as [ok w']. cbn [snd log].
  eexists. split; [reflexivity|].
  rewrite staleChecks_app, stampsOf_app.
  destruct (commandPrints_quiet o (world st) line) as (_ & -> & -> & _). auto.
Qed.

Lemma runTests_checks (H : Host) (o : Options) (tests : list string) :
  forall (objs : list string) (st : State) (r : option error) (st' : State),
    runTests H o tests objs st = (r, st') ->
    exists evs,
      log st' = (log st ++ evs)%list /\ passCounts tests (succeededB r) evs.
Proof.
  induction tests as [|t rest IH]; intros objs st r st' Heq; simpl runTests in Heq.
  - unfold ret in Heq. injection Heq as <- <-. exists []. rewrite app_nil_r.
    split; [reflexivity | apply passCounts_nil].
  - unfold bind at 1 in Heq. destruct (compileOne_checks H o t st) as [e1 [Hlog1 Hcnt1]].
    destruct (compileOne H o t st) as [[obj [e|]] st1]; cbn [snd] in *.
    { unfold ret in Heq. injection Heq as <- <-. exists e1. split; [exact Hlog1|].
      now apply passCounts_stop. }
    unfold bind at 1 in Heq. unfold linkObjects in Heq.
    set (exe := ensureExeSuffix H (TrimSuffix obj ".o") (Win64Docker o)) in *.
    destruct (runCommand_quiet H (linkLine o (obj :: objs) exe) o st1
                (Fields_linkLine o (obj :: objs) exe)) as (e2 & Hlog2 & Hc2 & Hs2).
    assert (Hone : passCounts [t] true e1).
    { intros src. destruct (Hcnt1 src) as [Hc Hs]. simpl.
      destruct (string_dec t src); repeat split; lia. }
    assert (Hstop : forall e4,
              staleChecks e4 = [] -> stampsOf e4 = [] ->
              passCounts (t :: rest) false ((e1 ++ e2) ++ e4)).
    { intros e4 Hc4 Hs4. change (t :: rest) with ([t] ++ rest)%list.
      rewrite <- (app_nil_r ((e1 ++ e2) ++ e4)). apply passCounts_app.
      - apply passCounts_quiet; [now apply passCounts_quiet | exact Hc4 | exact Hs4].
      - intros src. unfold timesChecked, timesStamped. simpl.
        repeat split; try lia; try discriminate. }
    assert (Hstep : forall e4,
              staleChecks e4 = [] -> stampsOf e4 = [] ->
              forall ok e5,
                passCounts rest ok e5 ->
                passCounts (t :: rest) ok (((e1 ++ e2) ++ e4) ++ e5)).
    { intros e4 Hc4 Hs4 ok e5 H5.
      change (t :: rest) with ([t] ++ rest)%list. apply passCounts_app; [|exact H5].
      apply passCounts_quiet; [now apply passCounts_quiet | exact Hc4 | exact Hs4]. }
    destruct (runCommand H _ o st1) as [[e|] st2]; cbn [snd] in *.
    { unfold ret in Heq. injection Heq as <- <-. exists ((e1 ++ e2) ++ [])%list.
      split; [now rewrite app_nil_r, Hlog2, Hlog1, app_assoc|].
      now apply Hstop. }
    unfold bind at 1 in Heq. unfold Println at 1, emit at 1 in Heq.
    set (p1 := EvPrint ("Running test: " +:+ exe)) in *.
    destruct (Win64Docker o).
    + unfold bind at 1 in Heq. unfold Println at 1, emit at 1 in Heq.
      cbn [world cache log] in Heq.
      set (p2 := EvPrint "Cannot run Windows .exe test under Docker cross-compile.") in *.
      destruct (IH _ _ _ _ Heq) as [e5 [Hlog5 Hcnt5]]. cbn [log] in Hlog5.
      exists (((e1 ++ e2) ++ [p1; p2]) ++ e5)%list. split.
      * rewrite Hlog5, Hlog2, Hlog1. now rewrite <- !app_assoc.
      * now apply Hstep.
    + unfold bind at 1 in Heq. unfold exec at 1 in Heq. cbn [world cache log] in Heq.
      destruct (runProcess H ["./" +:+ exe] (world st2)) as [[|] w5].
      * destruct (IH _ _ _ _ Heq) as [e5 [Hlog5 Hcnt5]]. cbn [log] in Hlog5.
        exists (((e1 ++ e2) ++ [p1; EvRun ["./" +:+ exe] true]) ++ e5)%list. split.
        -- rewrite Hlog5, Hlog2, Hlog1. now rewrite <- !app_assoc.
        -- now apply Hstep.
      * unfold ret in Heq. injection Heq as <- <-. cbn [log].
        exists ((e1 ++ e2) ++ [p1; EvRun ["./" +:+ exe] false])%list. split.
        -- rewrite Hlog2, Hlog1. now rewrite <- !app_assoc.
        -- now apply Hstop.
Qed.

Lemma buildAndRunTests_checks (H : Host) (o : Options) (st : State) :
  exists evs,
    log (snd (buildAndRunTests H o st)) = (log st ++ evs)%list /\
    passCounts (normalOf (Sources o) ++ TestSources o)
      (succeededB (fst (buildAndRunTests H o st))) evs.
Proof.
  unfold buildAndRunTests, bind.
  destruct (compileNormal_checks H o (Sources o) [] st) as (e1 & Hlog1 & Hcnt1).
  destruct (compileNormal H o (Sources o) [] st) as [[objs [e|]] st1]; cbn [fst snd] in *.
  - exists e1. unfold ret. cbn [fst snd]. split; [exact Hlog1|].
    intros src. destruct (Hcnt1 src) as (A1 & A2 & _). rewrite count_occ_app.
    repeat split; try lia; try discriminate.
  - destruct (runTests H o (TestSources o) objs st1) as [r st2] eqn:Hrt.
    destruct (runTests_checks H o (TestSources o) objs st1 r st2 Hrt)
      as (e2 & Hlog2 & Hcnt2).
    exists (e1 ++ e2)%list. cbn [fst snd].
    split; [now rewrite Hlog2, Hlog1, app_assoc|].
    now apply passCounts_app.
Qed.

Lemma compileAndLink_checks (H : Host) (o : Options) (st : State) :
  exists evs,
    log (snd (compileAndLink H o st)) = (log st ++ evs)%list /\
    passCounts (List.filter (fun s => negb (negb (Test o) && isTestSource s)) (Sources o))
      (succeededB (snd (fst (compileAndLink H o st)))) evs.
Proof.
  unfold compileAndLink, bind.
  destruct (compileSources_checks H o (Sources o) [] st) as (e1 & Hlog1 & Hcnt1).
  destruct (compileSources H o (Sources o) [] st) as [[objs [e|]] st1]; cbn [fst snd] in *.
  - exists e1. unfold ret. cbn [fst snd]. auto.
  - unfold linkObjects.
    set (line := linkLine o objs _).
    destruct (runCommand_quiet H line o st1 (Fields_linkLine o objs _))
      as (e2 & Hlog2 & Hc2 & Hs2).
    destruct (runCommand H line o st1) as [[e|] st2]; unfold ret; cbn [fst snd] in *;
      (exists (e1 ++ e2)%list; split; [now rewrite Hlog2, Hlog1, app_assoc|]);
      now apply passCounts_quiet.
Qed.

(** The options the build step hands on are the ones it got, but for the
    output name. *)
Lemma buildStep_options (H : Host) (o : Options) (normal tests : list string)
      (st : State) :
  fst (fst (buildStep H o normal tests st)) = o \/
  exists on, fst (fst (buildStep H o normal tests st)) = setOutputName o on.
Proof.
  unfold buildStep. destruct (planStrategy o normal tests) as [source|].
  - unfold singleStepBuild, bind. cbv zeta. unfold Println, emit.
    match goal with
    | |- context [runCommand H ?l o ?s] => destruct (runCommand H l o s) as [[e|] st1]
    end; cbn [fst]; [left | right; eexists]; reflexivity.
  - unfold bind at 1. unfold compileAndLink, bind.
    destruct (compileSources H o (Sources o) [] st) as [[objs [e|]] st1];
      [left; reflexivity|].
    unfold linkObjects. destruct (runCommand H _ o st1) as [[e|] st2]; cbn [fst];
      [left; reflexivity|].
    unfold saveCache, ret. cbn [fst]. right. eexists. reflexivity.
Qed.

Lemma kept_in_test_mode (o : Options) (srcs : list string) :
  Test o = true ->
  List.filter (fun s => negb (negb (Test o) && isTestSource s)) srcs = srcs.
Proof.
  intros Ht. rewrite Ht. cbn [negb andb].
  induction srcs as [|s rest IH]; [reflexivity|]. simpl. now rewrite IH.
Qed.

(** The build step: the evaluations of the compile-and-link pass, or none
    in the single-step build. *)
Lemma buildStep_checks (H : Host) (o : Options) (normal tests : list string)
      (st : State) :
  exists evs,
    log (snd (buildStep H o normal tests st)) = (log st ++ evs)%list /\
    (forall src,
       (timesChecked src evs <= count_occ string_dec (Sources o) src)%nat /\
       (timesStamped src evs <= count_occ string_dec (Sources o) src)%nat) /\
    (Test o = true -> snd (fst (buildStep H o normal tests st)) = None ->
     forall src, timesChecked src evs = count_occ string_dec (Sources o) src).
Proof.
  unfold buildStep. destruct (planStrategy o normal tests) as [source|] eqn:Hplan.
  - unfold singleStepBuild, bind. cbv zeta. unfold Println at 1, emit at 1.
    set (line := singleStepLine o source _).
    set (st0 := mkState (world st) (cache st) (log st ++ [EvPrint line])).
    destruct (runCommand_quiet H line o st0 (Fields_singleStepLine o source _))
      as (e2 & Hlog2 & Hc2 & Hs2).
    assert (Hq : forall src, timesChecked src ([EvPrint line] ++ e2) = 0%nat /\
                             timesStamped src ([EvPrint line] ++ e2) = 0%nat).
    { intros src. apply quiet_counts;
        rewrite ?staleChecks_app, ?stampsOf_app, ?Hc2, ?Hs2; reflexivity. }
    assert (Hnt : Test o = false).
    { unfold planStrategy in Hplan. destruct (Test o); [|reflexivity].
      rewrite andb_false_r in Hplan. discriminate. }
    exists ([EvPrint line] ++ e2)%list.
    destruct (runCommand H line o st0) as [[e|] st1]; unfold ret; cbn [fst snd] in *;
      (split; [rewrite Hlog2; unfold st0; cbn [log]; now rewrite <- app_assoc|]);
      (split; [intros src; destruct (Hq src) as [-> ->]; lia | congruence]).
  - unfold bind.
    destruct (compileAndLink_checks H o st) as (e1 & Hlog1 & Hcnt1).
    assert (Hle : forall src,
              (timesChecked src e1 <= count_occ string_dec (Sources o) src)%nat /\
              (timesStamped src e1 <= count_occ string_dec (Sources o) src)%nat).
    { intros src. destruct (Hcnt1 src) as (A1 & A2 & _).
      pose proof (count_occ_filter_le
                    (fun s => negb (negb (Test o) && isTestSource s)) (Sources o) src).
      lia. }
    destruct (compileAndLink H o st) as [[o1 [e|]] st1]; cbn [fst snd] in *.
    + exists e1. unfold ret. cbn [fst snd]. split; [exact Hlog1|].
      split; [exact Hle | congruence].
    + unfold saveCache, ret. cbn [fst snd log].
      exists (e1 ++ [EvSave])%list. split; [now rewrite Hlog1, app_assoc|].
      assert (Hsave : forall src, timesChecked src [EvSave] = 0%nat /\
                                  timesStamped src [EvSave] = 0%nat)
        by (intros src; now apply quiet_counts).
      split.
      * intros src. rewrite timesChecked_app, timesStamped_app.
        destruct (Hsave src) as [-> ->]. destruct (Hle src). lia.
      * intros Ht _ src. rewrite timesChecked_app.
        destruct (Hsave src) as [-> _]. destruct (Hcnt1 src) as (_ & _ & A3).
        rewrite (A3 eq_refl), (kept_in_test_mode o (Sources o) Ht). lia.
Qed.

Lemma runStep_quiet (H : Host) (o : Options) (st : State) :
  exists evs,
    log (snd (runStep H o st)) = (log st ++ evs)%list /\
    staleChecks evs = [] /\ stampsOf evs = [].
Proof.
  unfold runStep. destruct (Run o && _).
  - unfold bind at 1. unfold Println at 1, emit at 1.
    destruct (Win64Docker o).
    + unfold bind, Println, emit, ret. cbn [snd log]. rewrite <- app_assoc.
      eexists. split; [reflexivity|]. split; reflexivity.
    + unfold exec. cbn [world cache log].
      destruct (runProcess H _ (world st)) as [ok w']. cbn [snd log].
      rewrite <- app_assoc. eexists. split; [reflexivity|]. split; reflexivity.
  - exists []. unfold ret. cbn [snd]. now rewrite app_nil_r.
Qed.

(** A whole build: the evaluations of the build step and of the test
    sequence, and nothing else. *)
Lemma build_checks (H : Host) (o : Options) (normal tests : list string) (st : State) :
  exists evs,
    log (snd (build H o normal tests st)) = (log st ++ evs)%list /\
    (forall src,
       (timesChecked src evs <=
          count_occ string_dec (Sources o) src +
          count_occ string_dec (normalOf (Sources o) ++ TestSources o) src)%nat /\
       (timesStamped src evs <=
          count_occ string_dec (Sources o) src +
          count_occ string_dec (normalOf (Sources o) ++ TestSources o) src)%nat) /\
    (Test o = true -> tests <> [] -> ~ In (EvExit 1) evs ->
     forall src,
       timesChecked src evs =
         (count_occ string_dec (Sources o) src +
          count_occ string_dec (normalOf (Sources o) ++ TestSources o) src)%nat).
Proof.
  assert (Hfatal : forall msg s,
            log (snd (fatal msg s)) = (log s ++ [EvPrint msg; EvExit 1])%list).
  { intros msg s. unfold fatal, bind, Println, emit. cbn [snd log].
    now rewrite <- app_assoc. }
  unfold build. unfold bind at 1. unfold loadCache at 1.
  set (st0 := mkState (world st) _ (log st)).
  unfold bind at 1.
  destruct (buildStep_checks H o normal tests st0) as (e1 & Hlog1 & Hle1 & Heq1).
  pose proof (buildStep_options H o normal tests st0) as Ho.
  destruct (buildStep H o normal tests st0) as [[o1 [e|]] st1]; cbn [fst snd] in *.
  { (* the build step failed *)
    exists (e1 ++ [EvPrint "Build error:"; EvExit 1])%list.
    split; [rewrite Hfatal, Hlog1; unfold st0; cbn [log]; now rewrite app_assoc|].
    split.
    - intros src. rewrite timesChecked_app, timesStamped_app.
      destruct (quiet_counts src [EvPrint "Build error:"; EvExit 1] eq_refl eq_refl)
        as [-> ->].
      destruct (Hle1 src). lia.
    - intros _ _ Hno. exfalso. apply Hno. apply in_app_iff. right. right. left. reflexivity. }
  assert (Hs1 : Sources o1 = Sources o /\ TestSources o1 = TestSources o /\ Test o1 = Test o).
  { destruct Ho as [-> | [on ->]]; repeat split. }
  destruct Hs1 as (Hsrc & Htests & Htest).
  unfold bind at 1.
  assert (H2 : exists e2,
            log (snd ((if Test o1 && (0 <? List.length tests)%nat
                       then buildAndRunTests H o1 else ret None) st1))
            = (log st1 ++ e2)%list /\
            passCounts (normalOf (Sources o) ++ TestSources o)
              (Test o && negb (Nat.eqb (List.length tests) 0) &&
               succeededB (fst ((if Test o1 && (0 <? List.length tests)%nat
                                 then buildAndRunTests H o1 else ret None) st1))) e2).
  { rewrite Htest. destruct (Test o); cbn [andb].
    - destruct tests as [|t ts]; cbn [List.length Nat.ltb Nat.leb Nat.eqb negb andb].
      + exists []. unfold ret. cbn [snd]. rewrite app_nil_r. split; [reflexivity|].
        intros src. unfold timesChecked, timesStamped. simpl.
        repeat split; try lia; try discriminate.
      + destruct (buildAndRunTests_checks H o1 st1) as (e2 & Hlog2 & Hcnt2).
        rewrite Hsrc, Htests in Hcnt2. exists e2. auto.
    - exists []. unfold ret. cbn [snd]. rewrite app_nil_r. split; [reflexivity|].
      intros src. unfold timesChecked, timesStamped. simpl.
      repeat split; try lia; try discriminate. }
  destruct H2 as (e2 & Hlog2 & Hcnt2).
  destruct ((if Test o1 && (0 <? List.length tests)%nat
             then buildAndRunTests H o1 else ret None) st1) as [[e|] st2];
    cbn [fst snd succeededB] in *.
  { (* the test sequence failed *)
    exists (e1 ++ e2 ++ [EvPrint "Test error:"; EvExit 1])%list.
    split; [rewrite Hfatal, Hlog2, Hlog1; unfold st0; cbn [log];
            now rewrite <- !app_assoc|].
    split.
    - intros src. rewrite !timesChecked_app, !timesStamped_app.
      destruct (quiet_counts src [EvPrint "Test error:"; EvExit 1] eq_refl eq_refl)
        as [-> ->].
      destruct (Hle1 src). destruct (Hcnt2 src) as (A1 & A2 & _). lia.
    - intros _ _ Hno. exfalso. apply Hno. rewrite !in_app_iff. right. right. right. left.
      reflexivity. }
  unfold bind.
  destruct (runStep_quiet H o1 st2) as (e3 & Hlog3 & Hc3 & Hs3).
  assert (Hdone : forall last,
            staleChecks [last] = [] -> stampsOf [last] = [] ->
            forall src,
              (timesChecked src (e1 ++ e2 ++ e3 ++ [last]) <=
                 count_occ string_dec (Sources o) src +
                 count_occ string_dec (normalOf (Sources o) ++ TestSources o) src)%nat /\
              (timesStamped src (e1 ++ e2 ++ e3 ++ [last]) <=
                 count_occ string_dec (Sources o) src +
                 count_occ string_dec (normalOf (Sources o) ++ TestSources o) src)%nat /\
              (Test o = true -> tests <> [] ->
               timesChecked src (e1 ++ e2 ++ e3 ++ [last]) =
                 (count_occ string_dec (Sources o) src +
                  count_occ string_dec (normalOf (Sources o) ++ TestSources o) src)%nat)).
  { intros last Hcl Hsl src. rewrite !timesChecked_app, !timesStamped_app.
    destruct (quiet_counts src e3 Hc3 Hs3) as [-> ->].
    destruct (quiet_counts src [last] Hcl Hsl) as [-> ->].
    destruct (Hle1 src) as [L1 L2]. destruct (Hcnt2 src) as (A1 & A2 & A3).
    repeat split; try lia.
    intros Ht Hne. rewrite (Heq1 Ht eq_refl src).
    rewrite Ht in A3. destruct tests as [|t ts]; [congruence|].
    specialize (A3 eq_refl). lia. }
  destruct (runStep H o1 st2) as [[e|] st3]; cbn [snd] in *.
  - exists (e1 ++ e2 ++ e3 ++ [EvExit 1])%list.
    split; [unfold emit; cbn [snd log]; rewrite Hlog3, Hlog2, Hlog1; unfold st0; cbn [log];
            now rewrite <- !app_assoc|].
    split.
    + intros src. destruct (Hdone (EvExit 1) eq_refl eq_refl src)
        as (B1 & B2 & _). auto.
    + intros Ht Hne _ src.
      destruct (Hdone (EvExit 1) eq_refl eq_refl src) as (_ & _ & B3). auto.
  - set (last := EvPrint ("Build complete on " +:+ DetectedDistro o1)).
    exists (e1 ++ e2 ++ e3 ++ [last])%list.
    split; [unfold Println, emit; cbn [snd log]; rewrite Hlog3, Hlog2, Hlog1; unfold st0;
            cbn [log]; now rewrite <- !app_assoc|].
    split.
    + intros src. destruct (Hdone last eq_refl eq_refl src)
        as (B1 & B2 & _). auto.
    + intros Ht Hne _ src.
      destruct (Hdone last eq_refl eq_refl src) as (_ & _ & B3). auto.
Qed.

(** C7, as the code has it. A call of [compileOne] writes the cache entry
    of its own source and of no other, with the modification time the
    source has then, and only directly after the compiler started for that
    source has succeeded; when the call fails the cache stays as it was.
    In the compile-and-link pass over distinct sources every source is
    evaluated at most once and stamped at most once, and so it is in the
    test sequence, which goes through [compileOne] again.  Within one run
    every source is therefore evaluated at most twice and stamped at most
    twice, and a run in test mode with a test source that does not end in
    exit status 1 evaluates every source exactly twice. *)
Theorem cache_written_only_after_successful_compile (H : Host) (o : Options) :
  (forall src st,
     let r := compileOne H o src st in
     let argv := commandArgv o (world st) (buildCompileCmd o src (objectPath src)) in
     (snd (fst r) <> None ->
      cache (snd r) = cache st /\ stampsOf (log (snd r)) = stampsOf (log st)) /\
     ((cache (snd r) = cache st /\ stampsOf (log (snd r)) = stampsOf (log st)) \/
      (exists i pre,
         snd (fst r) = None /\
         fst (runProcess H argv (world st)) = true /\
         log (snd r) = (pre ++ [EvRun argv true; EvStamp src (Unix (modTime i))])%list /\
         Stat (world (snd r)) src = Some i /\
         cache (snd r) = <[src := Unix (modTime i)]> (cache st) /\
         stampsOf (log (snd r)) = (stampsOf (log st) ++ [src])%list))) /\
  (List.NoDup (Sources o) ->
   forall st, exists evs,
     log (snd (compileAndLink H o st)) = (log st ++ evs)%list /\
     forall src, (timesChecked src evs <= 1)%nat /\ (timesStamped src evs <= 1)%nat) /\
  (List.NoDup (Sources o) -> TestSources o = testsOf (Sources o) ->
   (forall st, exists evs,
      log (snd (buildAndRunTests H o st)) = (log st ++ evs)%list /\
      forall src, (timesChecked src evs <= 1)%nat /\ (timesStamped src evs <= 1)%nat) /\
   (forall normal tests st, exists evs,
      log (snd (build H o normal tests st)) = (log st ++ evs)%list /\
      (forall src, (timesChecked src evs <= 2)%nat /\ (timesStamped src evs <= 2)%nat) /\
      (Test o = true -> tests <> [] -> ~ In (EvExit 1) evs ->
       forall src, In src (Sources o) -> timesChecked src evs = 2%nat))).
Proof.
  split; [|split].
  - intros src st. cbv zeta. rewrite compileOne_eq. cbv zeta.
    destruct (commandPrints_quiet o (world st)
                (buildCompileCmd o src (objectPath src))) as (_ & _ & Hq & _).
    destruct (needsRebuild _ _ _ _).
    + destruct (runProcess H _ (world st)) as [[|] w'] eqn:Hrun.
      * destruct (Stat w' src) as [i|] eqn:Hstat; cbn [fst snd cache log world].
        -- split; [congruence|]. right. exists i. eexists.
           split; [reflexivity|]. split; [reflexivity|]. split; [reflexivity|].
           split; [exact Hstat|]. split; [reflexivity|].
           change (EvStale src (objectPath src) true :: ?l)
             with ([EvStale src (objectPath src) true] ++ l)%list.
           rewrite !stampsOf_app, Hq. simpl. now rewrite ?app_nil_r.
        -- split; [congruence|]. left. split; [reflexivity|].
           change (EvStale src (objectPath src) true :: ?l)
             with ([EvStale src (objectPath src) true] ++ l)%list.
           rewrite !stampsOf_app, Hq. simpl. now rewrite ?app_nil_r.
      * cbn [fst snd cache log world].
        assert (Hsame : stampsOf ((log st ++ EvStale src (objectPath src) true ::
                           commandPrints o (world st) (buildCompileCmd o src (objectPath src))) ++
                          [EvRun (commandArgv o (world st) (buildCompileCmd o src (objectPath src))) false])
                        = stampsOf (log st)).
        { change (EvStale src (objectPath src) true :: ?l)
            with ([EvStale src (objectPath src) true] ++ l)%list.
          rewrite !stampsOf_app, Hq. simpl. now rewrite ?app_nil_r. }
        split; [intros _; split; [reflexivity | exact Hsame]|].
        left. split; [reflexivity | exact Hsame].
    + cbn [fst snd cache log world].
      assert (Hsame : stampsOf (log st ++ [EvStale src (objectPath src) false]) = stampsOf (log st)).
      { rewrite stampsOf_app. simpl. now rewrite ?app_nil_r. }
      split; [congruence|]. left. split; [reflexivity | exact Hsame].
  - intros Hnd st. destruct (compileAndLink_counts H o st) as [evs [Hlog Hcnt]].
    exists evs. split; [exact Hlog|]. intros src. destruct (Hcnt src) as [Hc Hs].
    pose proof (proj1 (NoDup_count_occ string_dec (Sources o)) Hnd src). lia.
  - intros Hnd Hts.
    assert (Hsplit : forall src,
              count_occ string_dec (normalOf (Sources o) ++ TestSources o) src =
              count_occ string_dec (Sources o) src).
    { intros src. rewrite count_occ_app, Hts. apply count_occ_split. }
    assert (Hone : forall src, (count_occ string_dec (Sources o) src <= 1)%nat)
      by (apply NoDup_count_occ; exact Hnd).
    split.
    + intros st. destruct (buildAndRunTests_checks H o st) as (evs & Hlog & Hcnt).
      exists evs. split; [exact Hlog|]. intros src.
      destruct (Hcnt src) as (A1 & A2 & _). rewrite Hsplit in A1, A2.
      specialize (Hone src). lia.
    + intros normal tests st.
      destruct (build_checks H o normal tests st) as (evs & Hlog & Hle & Heq).
      exists evs. split; [exact Hlog|]. split.
      * intros src. destruct (Hle src) as [A1 A2]. rewrite Hsplit in A1, A2.
        specialize (Hone src). lia.
      * intros Ht Hne Hno src Hin. rewrite (Heq Ht Hne Hno src), Hsplit.
        assert (count_occ string_dec (Sources o) src = 1%nat).
        { apply NoDup_count_occ'; assumption. }
        lia.
Qed.

(** Scenario B in test mode on the reference host: the run comes to its
    end, and every source has been evaluated twice. *)
Lemma cache_written_only_after_successful_compile_witness :
  let o := plannedOptions Reference.host (worldB "/home/u/src") (parseArgs ["test"]) in
  exists evs,
    log (snd (build Reference.host o (normalOf (Sources o)) (testsOf (Sources o))
                (mkState (worldB "/home/u/src") ∅ []))) = ([] ++ evs)%list /\
    (forall src, (timesChecked src evs <= 2)%nat /\ (timesStamped src evs <= 2)%nat) /\
    (forall src, In src (Sources o) -> timesChecked src evs = 2%nat).
Proof.
  intros o.
  assert (Hs : Sources o = ["main.cpp"; "util.cpp"; "util_test.cpp"])
    by (vm_compute; reflexivity).
  assert (Hnd : List.NoDup (Sources o)).
  { rewrite Hs. repeat constructor; simpl; intuition discriminate. }
  assert (Hts : TestSources o = testsOf (Sources o)) by (vm_compute; reflexivity).
  destruct (cache_written_only_after_successful_compile Reference.host o) as (_ & _ & P3).
  destruct (P3 Hnd Hts) as [_ Pb].
  destruct (Pb (normalOf (Sources o)) (testsOf (Sources o))
              (mkState (worldB "/home/u/src") ∅ [])) as (evs & Hlog & Hle & Heq).
  exists evs. split; [exact Hlog|]. split; [exact Hle|].
  apply Heq.
  - vm_compute. reflexivity.
  - vm_compute. discriminate.
  - cbn [log app] in Hlog. rewrite <- Hlog. vm_compute. intuition discriminate.
Defined.

(** C7, as the specification words it, fails in test mode: the test
    sequence evaluates again every source the build has already evaluated. *)
Lemma sources_checked_twice_in_test_mode :
  ~ (forall src,
       (timesChecked src (log (runMain Reference.host ["test"] (worldB "/home/u/src"))) <= 1)%nat).
Proof.
  intros Hall. specialize (Hall "main.cpp"). vm_compute in Hall. lia.
Qed.

Example scenarioB_checks :
  staleChecks (log (runMain Reference.host ["test"] (worldB "/home/u/src")))
  = [("main.cpp", true); ("util.cpp", true); ("util_test.cpp", true);
     ("main.cpp", false); ("util.cpp", false); ("util_test.cpp", false)].
Proof. vm_compute. reflexivity. Qed.

(** ** Build planner: what is compiled and linked, and fail-fast *)

Lemma isPrint_succeeded (evs : list Event) : Forall isPrint evs -> noFailure evs.
Proof. apply List.Forall_impl. intros [] Hp; try contradiction; exact I. Qed.

Lemma isPrint_compileEvent (o : Options) (srcs : list string) (evs : list Event) :
  Forall isPrint evs -> Forall (compileEvent o srcs) evs.
Proof. apply List.Forall_impl. intros [] Hp; try contradiction; exact I. Qed.

Lemma compileEvent_incl (o : Options) (l1 l2 : list string) (evs : list Event) :
  incl l1 l2 -> Forall (compileEvent o l1) evs -> Forall (compileEvent o l2) evs.
Proof.
  intros Hincl. apply List.Forall_impl. intros [] He; simpl in *; auto.
  destruct He as (w & src & Hin & Heq). exists w, src. auto.
Qed.

Lemma failFast_app (r : option error) (a b : list Event) :
  noFailure a -> failFast r b -> failFast r (a ++ b).
Proof.
  intros Ha. destruct r as [e|]; simpl.
  - intros (pre & argv & -> & Hpre & He). exists (a ++ pre)%list, argv.
    split; [now rewrite app_assoc|]. split; [|exact He].
    apply Forall_app. auto.
  - intros Hb. apply Forall_app. auto.
Qed.

(** What one call of [runCommand] leaves in the log. *)
Lemma runCommand_outcome (H : Host) (line : string) (o : Options) (st : State) :
  Fields line <> [] ->
  let argv := commandArgv o (world st) line in
  exists ok,
    log (snd (runCommand H line o st)) =
      (log st ++ commandPrints o (world st) line ++ [EvRun argv ok])%list /\
    fst (runCommand H line o st) = (if ok then None else Some (ExitError argv)) /\
    cache (snd (runCommand H line o st)) = cache st.
Proof.
  intros Hf. cbv zeta. rewrite (runCommand_eq H line o st Hf). cbv zeta.
  destruct (runProcess H _ (world st)) as [ok w']. exists ok. auto.
Qed.

Lemma failFast_command (o : Options) (w : World) (line : string) (ok : bool) :
  let argv := commandArgv o w line in
  failFast (if ok then None else Some (ExitError argv))
    (commandPrints o w line ++ [EvRun argv ok]).
Proof.
  cbv zeta. pose proof (isPrint_succeeded _ (commandPrints_isPrint o w line)) as Hp.
  destruct ok; unfold failFast, noFailure.
  - apply Forall_app. split; [exact Hp | repeat constructor].
  - eexists _, _. split; [reflexivity|]. split; [exact Hp | reflexivity].
Qed.

Lemma compileOne_outcome (H : Host) (o : Options) (src : string) (st : State) :
  exists evs,
    log (snd (compileOne H o src st)) = (log st ++ evs)%list /\
    failFast (snd (fst (compileOne H o src st))) evs /\
    Forall (compileEvent o [src]) evs.
Proof.
  rewrite compileOne_eq. cbv zeta.
  set (line := buildCompileCmd o src (objectPath src)).
  set (argv := commandArgv o (world st) line).
  pose proof (commandPrints_isPrint o (world st) line) as Hp.
  assert (Hrun : forall ok, compileEvent o [src] (EvRun argv ok)).
  { intros ok. exists (world st), src. split; [left; reflexivity | reflexivity]. }
  destruct (needsRebuild _ _ _ _).
  - destruct (runProcess H argv (world st)) as [[|] w'].
    + destruct (Stat w' src) as [i|]; cbn [fst snd log]; rewrite <- app_assoc;
        eexists; (split; [reflexivity|]); split.
      * unfold failFast, noFailure. constructor; [exact I|]. apply Forall_app.
        split; [apply isPrint_succeeded, Hp | repeat constructor].
      * constructor; [exact I|]. apply Forall_app.
        split; [apply isPrint_compileEvent, Hp|]. repeat constructor. apply Hrun.
      * unfold failFast, noFailure. constructor; [exact I|]. apply Forall_app.
        split; [apply isPrint_succeeded, Hp | repeat constructor].
      * constructor; [exact I|]. apply Forall_app.
        split; [apply isPrint_compileEvent, Hp|]. repeat constructor. apply Hrun.
    + cbn [fst snd log]. rewrite <- app_assoc. eexists. split; [reflexivity|]. split.
      * unfold failFast. exists (EvStale src (objectPath src) true :: commandPrints o (world st) line), argv.
        split; [reflexivity|]. split; [|reflexivity].
        constructor; [exact I | apply isPrint_succeeded, Hp].
      * constructor; [exact I|]. apply Forall_app.
        split; [apply isPrint_compileEvent, Hp|]. repeat constructor. apply Hrun.
  - cbn [fst snd log]. eexists. split; [reflexivity|]. split; repeat constructor.
Qed.

(** The loop of [compileAndLink]: the objects it collects, and its events. *)
Lemma compileSources_outcome (H : Host) (o : Options) (srcs : list string) :
  forall (objs : list string) (st : State),
  exists evs,
    log (snd (compileSources H o srcs objs st)) = (log st ++ evs)%list /\
    failFast (snd (fst (compileSources H o srcs objs st))) evs /\
    Forall (compileEvent o srcs) evs /\
    (snd (fst (compileSources H o srcs objs st)) = None ->
     fst (fst (compileSources H o srcs objs st)) =
       (objs ++ map objectPath
                  (List.filter (fun s => negb (negb (Test o) && isTestSource s)) srcs))%list).
Proof.
  induction srcs as [|s rest IH]; intros objs st; simpl compileSources.
  - exists []. unfold ret. cbn [fst snd]. rewrite !app_nil_r.
    repeat split; constructor.
  - simpl List.filter. destruct (negb (Test o) && isTestSource s); cbn [negb].
    + destruct (IH objs st) as (evs & Hlog & Hff & Hce & Hobjs).
      exists evs. repeat split; auto.
      eapply compileEvent_incl; [|exact Hce]. intros x Hx. right. exact Hx.
    + unfold bind. destruct (compileOne_outcome H o s st) as (e1 & Hlog1 & Hff1 & Hce1).
      pose proof (compileOne_object H o s st) as Hobj.
      destruct (compileOne H o s st) as [[obj [e|]] st1]; cbn [fst snd] in *.
      * exists e1. unfold ret. cbn [fst snd]. repeat split; auto; [|congruence].
        eapply compileEvent_incl; [|exact Hce1]. intros x [<- | []]. left. reflexivity.
      * destruct (IH (objs ++ [obj])%list st1) as (e2 & Hlog2 & Hff2 & Hce2 & Hobjs2).
        exists (e1 ++ e2)%list. split; [now rewrite Hlog2, Hlog1, app_assoc|].
        split; [apply failFast_app; assumption|]. split.
        -- apply Forall_app. split.
           ++ eapply compileEvent_incl; [|exact Hce1]. intros x [<- | []]. left. reflexivity.
           ++ eapply compileEvent_incl; [|exact Hce2]. intros x Hx. right. exact Hx.
        -- intros Hnone. rewrite (Hobjs2 Hnone), Hobj. simpl map.
           now rewrite <- app_assoc.
Qed.

(** The first loop of [buildAndRunTests]. *)
Lemma compileNormal_outcome (H : Host) (o : Options) (srcs : list string) :
  forall (objs : list string) (st : State),
  exists evs,
    log (snd (compileNormal H o srcs objs st)) = (log st ++ evs)%list /\
    failFast (snd (fst (compileNormal H o srcs objs st))) evs /\
    Forall (compileEvent o srcs) evs /\
    (snd (fst (compileNormal H o srcs objs st)) = None ->
     fst (fst (compileNormal H o srcs objs st)) =
       (objs ++ map objectPath (normalOf srcs))%list).
Proof.
  induction srcs as [|s rest IH]; intros objs st; simpl compileNormal.
  - exists []. unfold ret. cbn [fst snd]. rewrite !app_nil_r.
    repeat split; constructor.
  - unfold normalOf. simpl List.filter. fold (normalOf rest).
    destruct (negb (isTestSource s)).
    + unfold bind. destruct (compileOne_outcome H o s st) as (e1 & Hlog1 & Hff1 & Hce1).
      pose proof (compileOne_object H o s st) as Hobj.
      destruct (compileOne H o s st) as [[obj [e|]] st1]; cbn [fst snd] in *.
      * exists e1. unfold ret. cbn [fst snd]. repeat split; auto; [|congruence].
        eapply compileEvent_incl; [|exact Hce1]. intros x [<- | []]. left. reflexivity.
      * destruct (IH (objs ++ [obj])%list st1) as (e2 & Hlog2 & Hff2 & Hce2 & Hobjs2).
        exists (e1 ++ e2)%list. split; [now rewrite Hlog2, Hlog1, app_assoc|].
        split; [apply failFast_app; assumption|]. split.
        -- apply Forall_app. split.
           ++ eapply compileEvent_incl; [|exact Hce1]. intros x [<- | []]. left. reflexivity.
           ++ eapply compileEvent_incl; [|exact Hce2]. intros x Hx. right. exact Hx.
        -- intros Hnone. rewrite (Hobjs2 Hnone), Hobj. simpl map.
           now rewrite <- app_assoc.
    + destruct (IH objs st) as (evs & Hlog & Hff & Hce & Hobjs).
      exists evs. repeat split; auto.
      eapply compileEvent_incl; [|exact Hce]. intros x Hx. right. exact Hx.
Qed.

(** [compileAndLink], when it succeeds: every source that is kept is
    compiled or found fresh, and the last process links their objects, in
    the order of the sources, into the output. *)
Lemma compileAndLink_shape (H : Host) (o o' : Options) (st st' : State) :
  compileAndLink H o st = ((o', None), st') ->
  let on := ensureExeSuffix H (OutputName o) (Win64Docker o) in
  let line :=
    linkLine o
      (map objectPath
         (List.filter (fun s => negb (negb (Test o) && isTestSource s)) (Sources o))) on in
  o' = setOutputName o on /\
  exists evs w1,
    log st' = (log st ++ evs ++ commandPrints o w1 line ++
               [EvRun (commandArgv o w1 line) true])%list /\
    Forall (compileEvent o (Sources o)) evs /\ noFailure evs.
Proof.
  unfold compileAndLink, bind. cbv zeta.
  destruct (compileSources_outcome H o (Sources o) [] st) as (evs & Hlog & Hff & Hce & Hobjs).
  destruct (compileSources H o (Sources o) [] st) as [[objs [e|]] st1];
    cbn [fst snd] in *; [unfold ret; congruence|].
  rewrite (Hobjs eq_refl). cbn [app]. unfold linkObjects.
  rewrite runCommand_eq by apply Fields_linkLine. cbv zeta.
  destruct (runProcess H _ (world st1)) as [[|] w']; unfold ret; [|congruence].
  intros [= <- <-]. split; [reflexivity|].
  exists evs, (world st1). cbn [log]. rewrite Hlog, <- app_assoc. auto.
Qed.

(** The test sequence, whatever the tests: a process that fails is the
    last thing it does. *)
Lemma runTests_outcome (H : Host) (o : Options) (tests : list string) :
  forall (objs : list string) (st : State),
  exists evs,
    log (snd (runTests H o tests objs st)) = (log st ++ evs)%list /\
    failFast (fst (runTests H o tests objs st)) evs.
Proof.
  induction tests as [|t rest IH]; intros objs st; simpl runTests.
  - exists []. unfold ret. cbn [fst snd]. rewrite app_nil_r. split; [reflexivity|].
    constructor.
  - unfold bind. destruct (compileOne_outcome H o t st) as (e1 & Hlog1 & Hff1 & _).
    destruct (compileOne H o t st) as [[obj [e|]] st1]; cbn [fst snd] in *.
    + exists e1. unfold ret. cbn [fst snd]. auto.
    + unfold linkObjects.
      set (exe := ensureExeSuffix H (TrimSuffix obj ".o") (Win64Docker o)).
      set (line := linkLine o (obj :: objs) exe).
      rewrite runCommand_eq by apply Fields_linkLine. cbv zeta.
      pose proof (failFast_command o (world st1) line) as Hcmd. cbv zeta in Hcmd.
      destruct (runProcess H _ (world st1)) as [[|] w'].
      * specialize (Hcmd true). cbn [failFast] in Hcmd.
        unfold Println, emit. cbn [world cache log].
        set (evl := (commandPrints o (world st1) line ++
                     [EvRun (commandArgv o (world st1) line) true])%list) in *.
        destruct (Win64Docker o) eqn:Hd.
        -- set (st3 := mkState _ _ _).
           destruct (IH objs st3) as (e3 & Hlog3 & Hff3).
           exists (e1 ++ evl ++ [EvPrint ("Running test: " +:+ exe);
                                 EvPrint "Cannot run Windows .exe test under Docker cross-compile."] ++ e3)%list.
           split.
           ++ rewrite Hlog3. unfold st3. cbn [log]. rewrite Hlog1.
              rewrite <- !app_assoc. reflexivity.
           ++ apply failFast_app; [exact Hff1|]. apply failFast_app; [exact Hcmd|].
              apply failFast_app; [repeat constructor | exact Hff3].
        -- unfold exec. cbn [world cache log].
           destruct (runProcess H ["./" +:+ exe] w') as [[|] w''].
           ++ set (st3 := mkState _ _ _).
              destruct (IH objs st3) as (e3 & Hlog3 & Hff3).
              exists (e1 ++ evl ++ [EvPrint ("Running test: " +:+ exe);
                                    EvRun ["./" +:+ exe] true] ++ e3)%list.
              split.
              ** rewrite Hlog3. unfold st3. cbn [log]. rewrite Hlog1.
                 rewrite <- !app_assoc. reflexivity.
              ** apply failFast_app; [exact Hff1|]. apply failFast_app; [exact Hcmd|].
                 apply failFast_app; [repeat constructor | exact Hff3].
           ++ exists (e1 ++ evl ++ [EvPrint ("Running test: " +:+ exe)] ++
                      [EvRun ["./" +:+ exe] false])%list.
              cbn [fst snd log]. split.
              ** rewrite Hlog1. rewrite <- !app_assoc. reflexivity.
              ** apply failFast_app; [exact Hff1|]. apply failFast_app; [exact Hcmd|].
                 exists [EvPrint ("Running test: " +:+ exe)], ["./" +:+ exe].
                 split; [reflexivity|]. split; [repeat constructor | reflexivity].
      * specialize (Hcmd false).
        exists (e1 ++ commandPrints o (world st1) line ++
                [EvRun (commandArgv o (world st1) line) false])%list.
        cbn [fst snd log]. split.
        -- rewrite Hlog1. rewrite <- !app_assoc. reflexivity.
        -- apply failFast_app; [exact Hff1 | exact Hcmd].
Qed.

Lemma buildAndRunTests_outcome (H : Host) (o : Options) (st : State) :
  exists evs,
    log (snd (buildAndRunTests H o st)) = (log st ++ evs)%list /\
    failFast (fst (buildAndRunTests H o st)) evs.
Proof.
  unfold buildAndRunTests, bind.
  destruct (compileNormal_outcome H o (Sources o) [] st) as (e1 & Hlog1 & Hff1 & _).
  destruct (compileNormal H o (Sources o) [] st) as [[objs [e|]] st1];
    cbn [fst snd] in *.
  - exists e1. unfold ret. cbn [fst snd]. auto.
  - destruct (runTests_outcome H o (TestSources o) objs st1) as (e2 & Hlog2 & Hff2).
    exists (e1 ++ e2)%list. split; [now rewrite Hlog2, Hlog1, app_assoc|].
    apply failFast_app; assumption.
Qed.

(** The test sequence with one test source, when it succeeds: the test is
    compiled or found fresh, its object is linked in front of the objects
    of all sources that are no tests, and the executable is run. *)
Lemma buildAndRunTests_single (H : Host) (o : Options) (t : string) (st st' : State) :
  TestSources o = [t] ->
  buildAndRunTests H o st = (None, st') ->
  let exe := ensureExeSuffix H (TrimSuffix (objectPath t) ".o") (Win64Docker o) in
  let line := linkLine o (objectPath t :: map objectPath (normalOf (Sources o))) exe in
  exists evs w1,
    log st' =
      (log st ++ evs ++ commandPrints o w1 line ++
       [EvRun (commandArgv o w1 line) true; EvPrint ("Running test: " +:+ exe)] ++
       (if Win64Docker o
        then [EvPrint "Cannot run Windows .exe test under Docker cross-compile."]
        else [EvRun ["./" +:+ exe] true]))%list /\
    Forall (compileEvent o (Sources o ++ [t])) evs /\ noFailure evs.
Proof.
  intros Ht. unfold buildAndRunTests, bind. rewrite Ht. cbv zeta.
  destruct (compileNormal_outcome H o (Sources o) [] st) as (e1 & Hlog1 & Hff1 & Hce1 & Hobjs).
  destruct (compileNormal H o (Sources o) [] st) as [[objs [e|]] st1];
    cbn [fst snd] in *; [unfold ret; congruence|].
  rewrite (Hobjs eq_refl). cbn [app]. simpl runTests. unfold bind.
  destruct (compileOne_outcome H o t st1) as (e2 & Hlog2 & Hff2 & Hce2).
  pose proof (compileOne_object H o t st1) as Hobj.
  destruct (compileOne H o t st1) as [[obj [e|]] st2]; cbn [fst snd] in *;
    [unfold ret; congruence|].
  subst obj. unfold linkObjects.
  rewrite runCommand_eq by apply Fields_linkLine. cbv zeta.
  destruct (runProcess H _ (world st2)) as [[|] w']; [|unfold ret; congruence].
  unfold Println, emit. cbn [world cache log].
  assert (Hce : Forall (compileEvent o (Sources o ++ [t])) (e1 ++ e2)).
  { apply Forall_app. split.
    - eapply compileEvent_incl; [|exact Hce1]. intros x Hx. apply in_app_iff. auto.
    - eapply compileEvent_incl; [|exact Hce2]. intros x Hx. apply in_app_iff. auto. }
  assert (Hnf : noFailure (e1 ++ e2)) by (apply Forall_app; split; assumption).
  destruct (Win64Docker o) eqn:Hd.
  - unfold ret. intros Heq. injection Heq as <-. exists (e1 ++ e2)%list, (world st2).
    cbn [log]. rewrite Hlog2, Hlog1, <- !app_assoc.
    split; [reflexivity | split; assumption].
  - unfold exec. cbn [world cache log].
    destruct (runProcess H _ w') as [[|] w'']; unfold ret; [|congruence].
    intros Heq. injection Heq as <-. exists (e1 ++ e2)%list, (world st2).
    cbn [log]. rewrite Hlog2, Hlog1, <- !app_assoc.
    split; [reflexivity | split; assumption].
Qed.

Lemma OutputName_planned_main (H : Host) (w : World) (o : Options) :
  findMainSource w (discoverSources w) = "main.cpp" ->
  OutputName (plannedOptions H w o) =
  guessOutputNameFromMain H w "main.cpp" (Win64Docker o).
Proof.
  intros Hmain. unfold plannedOptions, withIncludeDirs.
  change (OutputName (setIncludeDirs ?x _ _)) with (OutputName x).
  unfold classify. cbn [MainSource setMainSource]. rewrite Hmain.
  change (negb ("main.cpp" =s "")) with true. cbv iota.
  cbn [OutputName setOutputName Win64Docker setMainSource setSources].
  destruct (adjustCompiler_fields (setDetectedDistro o (distroName H))) as (_ & -> & _).
  reflexivity.
Qed.

Lemma guessOutputName_main_cpp (H : Host) (w : World) (d : bool) :
  guessOutputNameFromMain H w "main.cpp" d =
  let dir := Filepath.Base (getwd w) in
  let name := if dir =s "src" then "main" else dir in
  if (d || (GOOS H =s "windows")) && negb (HasSuffix name ".exe")
  then name +:+ ".exe" else name.
Proof.
  unfold guessOutputNameFromMain. cbv zeta.
  change (TrimSuffix (Filepath.Base "main.cpp") (Filepath.Ext "main.cpp")) with "main".
  change ("main" =s "") with false. cbv iota.
  destruct d, (GOOS H =s "windows"), (HasSuffix _ ".exe"); reflexivity.
Qed.

(** One successful call of [compileOne], in the log. *)
Lemma compileOne_compiled (H : Host) (o : Options) (s obj : string) (st st' : State) :
  compileOne H o s st = ((obj, None), st') ->
  obj = objectPath s /\ exists evs, compiledWhenStale H o s st st' evs.
Proof.
  rewrite compileOne_eq. cbv zeta. unfold compiledWhenStale. cbv zeta.
  destruct (commandPrints_quiet o (world st) (buildCompileCmd o s (objectPath s)))
    as (Hqr & Hqc & _ & _).
  pose proof (commandPrints_isPrint o (world st) (buildCompileCmd o s (objectPath s)))
    as Hpr.
  destruct (needsRebuild (world st) s (objectPath s) (cache st)).
  - destruct (runProcess H _ (world st)) as [[|] w'] eqn:Hrun; [|discriminate].
    destruct (Stat w' s) as [i|]; intros [= <- <-]; (split; [reflexivity|]);
      cbn [log world]; rewrite <- app_assoc; eexists; (split; [reflexivity|]);
      change (EvStale s (objectPath s) true :: ?l)
        with ([EvStale s (objectPath s) true] ++ l)%list;
      rewrite !staleChecks_app, !runsOf_app, Hqr, Hqc;
      (split; [reflexivity|]); (split; [reflexivity|]); (split; [reflexivity|]);
      unfold noFailure; rewrite !Forall_app; repeat split;
      try (apply isPrint_succeeded, Hpr); repeat (constructor; try exact I).
  - intros [= <- <-]. split; [reflexivity|]. cbn [log world cache].
    eexists. split; [reflexivity|]. repeat split.
Qed.

Ltac compile_step Heq s st st1 ev Hc :=
  unfold bind at 1 in Heq;
  let obj := fresh "obj" in
  let e := fresh "e" in
  destruct (compileOne _ _ s st) as [[obj [e|]] st1] eqn:Hc;
  [unfold ret in Heq; discriminate Heq|];
  apply compileOne_compiled in Hc;
  let Hobj := fresh "Hobj" in
  destruct Hc as [Hobj [ev Hc]]; subst obj.

(** C3, as the code has it. In a directory with main.cpp, util.cpp and
    util_test.cpp and test mode on, the multi-step strategy is taken.  A
    build that succeeds has evaluated main.cpp, util.cpp and util_test.cpp
    in this order and compiled each of them that was stale to its object,
    and has then linked main.o, util.o and util_test.o (the test source
    included) into the artifact named after the working directory ([main]
    when that is [src]).  A test sequence that succeeds has evaluated, and
    compiled when stale, main.cpp, util.cpp and then util_test.cpp, has
    linked util_test.o with main.o and util.o into util_test and has run it
    (unless cross-compiling under docker).  Whenever the test sequence
    fails, the process that failed (compiler, linker or test executable)
    is the last thing it did. *)
Theorem scenarioB_build_and_test (H : Host) (args : list string) (w : World) (st : State) :
  let o := plannedOptions H w (parseArgs args) in
  let dir := Filepath.Base (getwd w) in
  let name := if dir =s "src" then "main" else dir in
  let out :=
    if (Win64Docker o || (GOOS H =s "windows")) && negb (HasSuffix name ".exe")
    then name +:+ ".exe" else name in
  let exe := ensureExeSuffix H "util_test" (Win64Docker o) in
  let mainLink := linkLine o ["main.o"; "util.o"; "util_test.o"] out in
  let testLink := linkLine o ["util_test.o"; "main.o"; "util.o"] exe in
  discoverSources w = ["main.cpp"; "util.cpp"; "util_test.cpp"] ->
  Test (parseArgs args) = true ->
  (Sources o = ["main.cpp"; "util.cpp"; "util_test.cpp"] /\
   TestSources o = ["util_test.cpp"] /\
   planStrategy o (normalOf (Sources o)) (TestSources o) = MultiStep) /\
  (forall o' st',
     compileAndLink H o st = ((o', None), st') ->
     OutputName o' = out /\
     exists st1 st2 st3 e1 e2 e3,
       compiledWhenStale H o "main.cpp" st st1 e1 /\
       compiledWhenStale H o "util.cpp" st1 st2 e2 /\
       compiledWhenStale H o "util_test.cpp" st2 st3 e3 /\
       runProcess H (commandArgv o (world st3) mainLink) (world st3) = (true, world st') /\
       log st' = (log st3 ++ commandPrints o (world st3) mainLink ++
                  [EvRun (commandArgv o (world st3) mainLink) true])%list) /\
  (forall st',
     buildAndRunTests H o st = (None, st') ->
     exists st1 st2 st3 w4 e1 e2 e3,
       compiledWhenStale H o "main.cpp" st st1 e1 /\
       compiledWhenStale H o "util.cpp" st1 st2 e2 /\
       compiledWhenStale H o "util_test.cpp" st2 st3 e3 /\
       runProcess H (commandArgv o (world st3) testLink) (world st3) = (true, w4) /\
       (if Win64Docker o then world st' = w4
        else runProcess H ["./" +:+ exe] w4 = (true, world st')) /\
       log st' =
         (log st3 ++ commandPrints o (world st3) testLink ++
          [EvRun (commandArgv o (world st3) testLink) true;
           EvPrint ("Running test: " +:+ exe)] ++
          (if Win64Docker o
           then [EvPrint "Cannot run Windows .exe test under Docker cross-compile."]
           else [EvRun ["./" +:+ exe] true]))%list) /\
  (exists evs,
     log (snd (buildAndRunTests H o st)) = (log st ++ evs)%list /\
     failFast (fst (buildAndRunTests H o st)) evs).
Proof.
  intros o dir name out exe mainLink testLink Hsrc Htest.
  destruct (plannedOptions_fields H w (parseArgs args))
    as (_ & Fd & _ & _ & Ft & _ & _ & _ & _ & _ & _ & Fs & Fts & Fm).
  fold o in Fd, Ft, Fs, Fts, Fm. rewrite Hsrc in Fs, Fts, Fm. rewrite Htest in Ft.
  assert (Fts' : TestSources o = ["util_test.cpp"]) by (rewrite Fts; reflexivity).
  assert (Hout : OutputName o = out).
  { unfold o. rewrite OutputName_planned_main by (rewrite Hsrc; reflexivity).
    rewrite guessOutputName_main_cpp. cbv zeta. fold dir. fold name.
    unfold out. rewrite Fd. reflexivity. }
  assert (Hon : ensureExeSuffix H (OutputName o) (Win64Docker o) = out).
  { rewrite Hout. unfold ensureExeSuffix, out.
    destruct (Win64Docker o), (GOOS H =s "windows"), (HasSuffix name ".exe") eqn:Hn;
      simpl; rewrite ?HasSuffix_app, ?Hn; reflexivity. }
  assert (E1 : objectPath "main.cpp" = "main.o") by (vm_compute; reflexivity).
  assert (E2 : objectPath "util.cpp" = "util.o") by (vm_compute; reflexivity).
  assert (E3 : objectPath "util_test.cpp" = "util_test.o") by (vm_compute; reflexivity).
  assert (T1 : isTestSource "main.cpp" = false) by (vm_compute; reflexivity).
  assert (T2 : isTestSource "util.cpp" = false) by (vm_compute; reflexivity).
  assert (T3 : isTestSource "util_test.cpp" = true) by (vm_compute; reflexivity).
  assert (E4 : TrimSuffix "util_test.o" ".o" = "util_test") by (vm_compute; reflexivity).
  split; [|split; [|split]].
  - split; [exact Fs|]. split; [exact Fts'|].
    unfold planStrategy. rewrite Fs, Fts', Ft. reflexivity.
  - intros o' st' Hcl. unfold compileAndLink in Hcl. rewrite Fs, Hon in Hcl.
    unfold bind at 1 in Hcl. cbn [compileSources] in Hcl. rewrite Ft in Hcl.
    cbn [negb andb] in Hcl.
    compile_step Hcl "main.cpp" st st1 e1 C1.
    compile_step Hcl "util.cpp" st1 st2 e2 C2.
    compile_step Hcl "util_test.cpp" st2 st3 e3 C3.
    unfold ret at 1 in Hcl. cbn [app] in Hcl. rewrite E1, E2, E3 in Hcl.
    unfold linkObjects in Hcl. fold mainLink in Hcl. unfold bind at 1 in Hcl.
    rewrite runCommand_eq in Hcl by apply Fields_linkLine. cbv zeta in Hcl.
    destruct (runProcess H _ (world st3)) as [[|] w'] eqn:Hrun;
      unfold ret in Hcl; [|discriminate Hcl].
    injection Hcl as <- <-. split; [reflexivity|].
    exists st1, st2, st3, e1, e2, e3. cbn [world log].
    split; [exact C1|]. split; [exact C2|]. split; [exact C3|].
    split; [exact Hrun | reflexivity].
  - intros st' Hrt. unfold buildAndRunTests in Hrt. rewrite Fs, Fts' in Hrt.
    unfold bind at 1 in Hrt. cbn [compileNormal] in Hrt. rewrite T1, T2, T3 in Hrt.
    cbn [negb] in Hrt.
    compile_step Hrt "main.cpp" st st1 e1 C1.
    compile_step Hrt "util.cpp" st1 st2 e2 C2.
    unfold ret at 1 in Hrt. cbn [app runTests] in Hrt.
    compile_step Hrt "util_test.cpp" st2 st3 e3 C3.
    rewrite E1, E2, E3, E4 in Hrt. fold exe in Hrt.
    unfold bind at 1 in Hrt. unfold linkObjects in Hrt. fold testLink in Hrt.
    rewrite runCommand_eq in Hrt by apply Fields_linkLine. cbv zeta in Hrt.
    destruct (runProcess H _ (world st3)) as [[|] w4] eqn:Hrun;
      [|unfold ret in Hrt; discriminate Hrt].
    unfold bind at 1 in Hrt. unfold Println at 1, emit at 1 in Hrt.
    cbn [world cache log] in Hrt.
    exists st1, st2, st3, w4, e1, e2, e3.
    split; [exact C1|]. split; [exact C2|]. split; [exact C3|].
    split; [exact Hrun|].
    destruct (Win64Docker o).
    + unfold bind, Println, emit, ret in Hrt. cbn [world cache log] in Hrt.
      injection Hrt as <-. cbn [world log].
      split; [first [reflexivity | exact Hexe]|]. rewrite <- !app_assoc. reflexivity.
    + unfold bind at 1 in Hrt. unfold exec in Hrt. cbn [world cache log] in Hrt.
      destruct (runProcess H ["./" +:+ exe] w4) as [[|] w5] eqn:Hexe;
        unfold ret in Hrt; [|discriminate Hrt].
      injection Hrt as <-. cbn [world log].
      split; [first [reflexivity | exact Hexe]|]. rewrite <- !app_assoc. reflexivity.
  - apply buildAndRunTests_outcome.
Qed.

(** C3, as the specification words it, fails on the reference toolchain in
    a directory named src: no process links util_test from util_test.o and
    util.o alone (main.o is linked in as well, and util_test.o goes into
    main). *)
Lemma scenarioB_links_differ :
  ~ scenarioB_as_specified
      (runsOf (log (runMain Reference.host ["test"] (worldB "/home/u/src")))).
Proof.
  intros [_ (argv & Hin & Hout & Hperm)].
  apply Permutation_length in Hperm.
  vm_compute in Hin.
  repeat (destruct Hin as [<- | Hin]; [vm_compute in Hout, Hperm; congruence|]).
  exact Hin.
Qed.

Example scenarioB_links :
  map (fun argv => (outputOf argv, objectsOf argv))
    (runsOf (log (runMain Reference.host ["test"] (worldB "/home/u/src"))))
  = [(Some "main.o", ["main.o"]); (Some "util.o", ["util.o"]);
     (Some "util_test.o", ["util_test.o"]);
     (Some "main", ["main.o"; "util.o"; "util_test.o"]);
     (Some "util_test", ["util_test.o"; "main.o"; "util.o"]);
     (None, [])].
Proof. vm_compute. reflexivity. Qed.

(** Scenario B on the reference host, in a directory named src: the build
    and the test sequence both succeed, and what they did is as above. *)
Lemma scenarioB_build_and_test_witness :
  let H := Reference.host in
  let w := worldB "/home/u/src" in
  let st := mkState w ∅ [] in
  let o := plannedOptions H w (parseArgs ["test"]) in
  let dir := Filepath.Base (getwd w) in
  let name := if dir =s "src" then "main" else dir in
  let out :=
    if (Win64Docker o || (GOOS H =s "windows")) && negb (HasSuffix name ".exe")
    then name +:+ ".exe" else name in
  let exe := ensureExeSuffix H "util_test" (Win64Docker o) in
  let mainLink := linkLine o ["main.o"; "util.o"; "util_test.o"] out in
  let testLink := linkLine o ["util_test.o"; "main.o"; "util.o"] exe in
  let o' := fst (fst (compileAndLink H o st)) in
  let st' := snd (compileAndLink H o st) in
  let st'' := snd (buildAndRunTests H o st) in
  (Sources o = ["main.cpp"; "util.cpp"; "util_test.cpp"] /\
   TestSources o = ["util_test.cpp"] /\
   planStrategy o (normalOf (Sources o)) (TestSources o) = MultiStep) /\
  (OutputName o' = out /\
   exists st1 st2 st3 e1 e2 e3,
     compiledWhenStale H o "main.cpp" st st1 e1 /\
     compiledWhenStale H o "util.cpp" st1 st2 e2 /\
     compiledWhenStale H o "util_test.cpp" st2 st3 e3 /\
     runProcess H (commandArgv o (world st3) mainLink) (world st3) = (true, world st') /\
     log st' = (log st3 ++ commandPrints o (world st3) mainLink ++
                [EvRun (commandArgv o (world st3) mainLink) true])%list) /\
  (exists st1 st2 st3 w4 e1 e2 e3,
     compiledWhenStale H o "main.cpp" st st1 e1 /\
     compiledWhenStale H o "util.cpp" st1 st2 e2 /\
     compiledWhenStale H o "util_test.cpp" st2 st3 e3 /\
     runProcess H (commandArgv o (world st3) testLink) (world st3) = (true, w4) /\
     (if Win64Docker o then world st'' = w4
      else runProcess H ["./" +:+ exe] w4 = (true, world st'')) /\
     log st'' =
       (log st3 ++ commandPrints o (world st3) testLink ++
        [EvRun (commandArgv o (world st3) testLink) true;
         EvPrint ("Running test: " +:+ exe)] ++
        (if Win64Docker o
         then [EvPrint "Cannot run Windows .exe test under Docker cross-compile."]
         else [EvRun ["./" +:+ exe] true]))%list).
Proof.
  intros H w st o dir name out exe mainLink testLink o' st' st''.
  destruct (scenarioB_build_and_test H ["test"] w st) as (P1 & P2 & P3 & _);
    [reflexivity | reflexivity |].
  split; [exact P1|]. split.
  - apply (P2 o' st'). vm_compute. reflexivity.
  - apply (P3 st''). vm_compute. reflexivity.
Defined.

(** ** Idempotence *)

Lemma needsRebuild_false_iff (w : World) (src obj : string) (cc : gmap string Z) :
  needsRebuild w src obj cc = false <->
  exists si oi,
    Stat w src = Some si /\ Stat w obj = Some oi /\ isRegular oi = true /\
    modTime si <= modTime oi /\ cached cc src = Unix (modTime si).
Proof.
  unfold needsRebuild, fileExists, Before.
  destruct (Stat w obj) as [oi|]; simpl.
  - destruct (isRegular oi) eqn:Hr; simpl.
    + destruct (Stat w src) as [si|].
      * destruct (Z.ltb_spec (modTime oi) (modTime si)) as [Hlt | Hge].
        -- split; [discriminate|]. intros (si' & oi' & [= <-] & [= <-] & _ & Hle & _). lia.
        -- rewrite negb_false_iff, Z.eqb_eq. split.
           ++ intros Heq. exists si, oi. auto.
           ++ intros (si' & oi' & [= <-] & [= <-] & _ & _ & Heq). exact Heq.
      * split; [discriminate|]. intros (si' & oi' & [=] & _).
    + split; [discriminate|]. intros (si' & oi' & _ & [= <-] & Hreg & _). congruence.
  - split; [discriminate|]. intros (si' & oi' & _ & [=] & _).
Qed.

(** A source is up to date: its object is fresh and the cache holds its
    modification time. *)
Lemma upToDate_iff (w : World) (s : string) (cc : gmap string Z) :
  needsRebuild w s (objectPath s) cc = false <->
  fresh w s /\ (forall si, Stat w s = Some si -> cached cc s = Unix (modTime si)).
Proof.
  rewrite needsRebuild_false_iff. unfold fresh. split.
  - intros (si & oi & Hs & Ho & Hr & Hle & Hc). split; [exists si, oi; auto|].
    intros si' Hs'. congruence.
  - intros [(si & oi & Hs & Ho & Hr & Hle) Hc]. exists si, oi. auto 6.
Qed.

Section Idempotence.

Variable H : Host.
Variable o : Options.
Hypothesis tools : toolchainKeepsObjects H o.

Let upToDate (st : State) (s : string) : Prop :=
  needsRebuild (world st) s (objectPath s) (cache st) = false.

Lemma compile_in_buildCommands (w : World) (s : string) :
  In s (keptSources o) ->
  In (commandArgv o w (buildCompileCmd o s (objectPath s))) (buildCommands H o w).
Proof.
  intros Hs. unfold buildCommands. apply in_app_iff. left.
  apply in_map_iff. exists s. auto.
Qed.

(** A call of [compileOne] that succeeds leaves its source up to date, and
    the sources that were up to date stay so. *)
Lemma compileOne_upToDate (s : string) (st : State) :
  In s (keptSources o) ->
  snd (fst (compileOne H o s st)) = None ->
  upToDate (snd (compileOne H o s st)) s /\
  (forall s0, In s0 (keptSources o) -> upToDate st s0 ->
              upToDate (snd (compileOne H o s st)) s0).
Proof.
  intros Hs. unfold upToDate. rewrite compileOne_eq. cbv zeta.
  set (argv := commandArgv o (world st) (buildCompileCmd o s (objectPath s))).
  destruct (needsRebuild (world st) s (objectPath s) (cache st)) eqn:Hstale.
  - pose proof (object_written H o tools (world st) s Hs) as Hwritten.
    pose proof (fun s0 => sources_untouched H o tools (world st) argv s0
                            (compile_in_buildCommands (world st) s Hs)) as Hsrc.
    pose proof (fun s0 => objects_kept H o tools (world st) argv s0
                            (compile_in_buildCommands (world st) s Hs)) as Hkept.
    fold argv in Hwritten.
    destruct (runProcess H argv (world st)) as [[|] w']; cbn [fst snd] in *;
      [|discriminate].
    specialize (Hwritten eq_refl).
    destruct (Stat w' s) as [i|] eqn:Hstat; cbn [fst snd world cache]; intros _.
    + split.
      * apply upToDate_iff. split; [exact Hwritten|].
        intros si Hsi. unfold cached. rewrite lookup_insert_eq. simpl. congruence.
      * intros s0 Hs0 Hup. apply upToDate_iff in Hup. destruct Hup as [Hf Hc].
        apply upToDate_iff. split; [apply Hkept; assumption|].
        intros si Hsi. unfold cached.
        destruct (string_dec s s0) as [<- | Hne].
        -- rewrite lookup_insert_eq. simpl. congruence.
        -- rewrite lookup_insert_ne by exact Hne. apply Hc.
           rewrite <- (Hsrc s0 Hs0). exact Hsi.
    + exfalso. destruct Hwritten as (si & _ & Hsi & _). congruence.
  - cbn [fst snd world cache]. intros _. split; [exact Hstale | auto].
Qed.

(** After the loop of [compileAndLink] every source it went through is up
    to date, as are those that were before. *)
Lemma compileSources_upToDate (srcs : list string) :
  forall (objs : list string) (st : State),
    incl (List.filter (fun s => negb (negb (Test o) && isTestSource s)) srcs)
         (keptSources o) ->
    snd (fst (compileSources H o srcs objs st)) = None ->
    forall s0, In s0 (keptSources o) ->
      (In s0 srcs \/ upToDate st s0) ->
      upToDate (snd (compileSources H o srcs objs st)) s0.
Proof.
  induction srcs as [|s rest IH]; intros objs st Hincl Hok s0 Hs0 Hcase;
    simpl compileSources in *.
  - destruct Hcase as [[] | Hup]. exact Hup.
  - simpl List.filter in Hincl.
    destruct (negb (Test o) && isTestSource s) eqn:Hskip; cbn [negb] in Hincl.
    + apply IH; auto. destruct Hcase as [[<- | Hin] | Hup]; auto.
      exfalso. unfold keptSources in Hs0. apply filter_In in Hs0.
      destruct Hs0 as [_ Hk]. rewrite Hskip in Hk. discriminate.
    + assert (Hs : In s (keptSources o)) by (apply Hincl; left; reflexivity).
      unfold bind in *.
      pose proof (compileOne_upToDate s st Hs) as Hone.
      destruct (compileOne H o s st) as [[obj [e|]] st1]; cbn [fst snd] in *;
        [discriminate|].
      destruct (Hone eq_refl) as [Hnow Hkeep].
      apply IH; auto.
      * intros x Hx. apply Hincl. right. exact Hx.
      * destruct Hcase as [[<- | Hin] | Hup]; auto.
Qed.

(** A second pass over up-to-date sources starts no process and leaves the
    world and the cache as they are. *)
Lemma compileSources_fresh (srcs : list string) :
  forall (objs : list string) (st : State),
    (forall s, In s srcs -> negb (negb (Test o) && isTestSource s) = true ->
               upToDate st s) ->
    let r := compileSources H o srcs objs st in
    snd (fst r) = None /\ world (snd r) = world st /\ cache (snd r) = cache st /\
    exists evs,
      log (snd r) = (log st ++ evs)%list /\ runsOf evs = [] /\ stampsOf evs = [] /\
      Forall (fun p => snd p = false) (staleChecks evs).
Proof.
  induction srcs as [|s rest IH]; intros objs st Hup; simpl compileSources.
  - unfold ret. cbn [fst snd]. repeat split. exists []. rewrite app_nil_r.
    repeat split. constructor.
  - destruct (negb (Test o) && isTestSource s) eqn:Hskip.
    + apply IH. intros x Hx. apply Hup. right. exact Hx.
    + unfold bind. rewrite compileOne_eq. cbv zeta.
      assert (Hf : needsRebuild (world st) s (objectPath s) (cache st) = false).
      { apply Hup; [left; reflexivity | now rewrite Hskip]. }
      rewrite Hf.
      set (st1 := mkState (world st) (cache st) (log st ++ [EvStale s (objectPath s) false])).
      destruct (IH (objs ++ [objectPath s])%list st1) as (Hok & Hw & Hc & evs & Hlog & Hr & Hst & Hall).
      { intros x Hx Hk. unfold upToDate, st1. cbn [world cache].
        apply Hup; [right; exact Hx | exact Hk]. }
      cbv zeta in Hok, Hw, Hc, Hlog. split; [exact Hok|]. split; [exact Hw|].
      split; [exact Hc|].
      exists ([EvStale s (objectPath s) false] ++ evs)%list.
      split; [rewrite Hlog; unfold st1; cbn [log]; now rewrite <- app_assoc|].
      rewrite runsOf_app, stampsOf_app, staleChecks_app, Hr, Hst.
      repeat split. constructor; [reflexivity | exact Hall].
Qed.

End Idempotence.

Lemma needsRebuild_files (w w' : World) (src obj : string) (cc : gmap string Z) :
  files w' = files w -> needsRebuild w' src obj cc = needsRebuild w src obj cc.
Proof. intros Hf. unfold needsRebuild, fileExists, Stat. now rewrite Hf. Qed.

Lemma keptSources_incl (o : Options) : incl (keptSources o) (Sources o).
Proof. intros s Hs. unfold keptSources in Hs. apply filter_In in Hs. tauto. Qed.

(** The multi-step build, when it succeeds: the kept sources are up to
    date in the state it leaves, and the cache is on disk. *)
Lemma buildStep_upToDate (H : Host) (o o1 : Options) (normal tests : list string)
  (st st1 : State) :
  toolchainKeepsObjects H o ->
  planStrategy o normal tests = MultiStep ->
  buildStep H o normal tests st = ((o1, None), st1) ->
  cxxcache (world st1) = Some (cache st1) /\
  forall s, In s (keptSources o) ->
            needsRebuild (world st1) s (objectPath s) (cache st1) = false.
Proof.
  intros tools Hplan. unfold buildStep. rewrite Hplan.
  unfold bind at 1. unfold compileAndLink. unfold bind at 1.
  pose proof (compileSources_upToDate H o tools (Sources o) [] st) as Hup.
  destruct (compileSources_outcome H o (Sources o) [] st) as (_ & _ & _ & _ & Hobjs).
  destruct (compileSources H o (Sources o) [] st) as [[objs [e|]] sta];
    cbn [fst snd] in *; [unfold ret; congruence|].
  specialize (Hobjs eq_refl). cbn [app] in Hobjs. fold (keptSources o) in Hobjs.
  subst objs. unfold bind at 1. unfold linkObjects.
  rewrite runCommand_eq by apply Fields_linkLine. cbv zeta.
  set (argv := commandArgv o (world sta) _).
  assert (Hargv : In argv (buildCommands H o (world sta))).
  { unfold buildCommands. apply in_app_iff. right. left. reflexivity. }
  pose proof (fun s => sources_untouched H o tools (world sta) argv s Hargv) as Hsrc.
  pose proof (fun s => objects_kept H o tools (world sta) argv s Hargv) as Hkept.
  destruct (runProcess H argv (world sta)) as [[|] w']; cbn [fst snd] in *;
    [|unfold ret; congruence].
  unfold ret, saveCache. cbn [world cache log]. intros [= _ <-].
  cbn [world cache cxxcache]. split; [reflexivity|].
  intros s Hs. rewrite (needsRebuild_files w') by reflexivity.
  assert (Ha : needsRebuild (world sta) s (objectPath s) (cache sta) = false).
  { apply Hup; auto.
    - intros x Hx. exact Hx.
    - left. apply keptSources_incl, Hs. }
  apply upToDate_iff in Ha. destruct Ha as [Hf Hc].
  apply upToDate_iff. split; [apply Hkept; assumption|].
  intros si Hsi. apply Hc. rewrite <- (Hsrc s Hs). exact Hsi.
Qed.


(** *** The reference toolchain does its part *)

Lemma latest_ge (w : World) (p : string) (f : FileInfo) :
  Stat w p = Some f -> modTime f <= Reference.latest w.
Proof.
  unfold Stat, Reference.latest. revert p f.
  apply (map_fold_weak_ind
           (fun r (m : gmap string FileInfo) =>
              forall p f, m !! p = Some f -> modTime f <= r)).
  - intros p f Hp. rewrite lookup_empty in Hp. discriminate.
  - intros i x m r Hi IH p f Hp.
    destruct (string_dec i p) as [<- | Hne].
    + rewrite lookup_insert_eq in Hp. injection Hp as <-. lia.
    + rewrite lookup_insert_ne in Hp by exact Hne. specialize (IH p f Hp). lia.
Qed.

Lemma Stat_writeFile_ne (w : World) (p q : string) :
  p <> q -> Stat (Reference.writeFile w p) q = Stat w q.
Proof. intros Hne. unfold Stat, Reference.writeFile. simpl. now rewrite lookup_insert_ne. Qed.

Lemma Stat_writeFile_eq (w : World) (p : string) :
  Stat (Reference.writeFile w p) p = Some (mkFile true (Reference.latest w + 1) "").
Proof. unfold Stat, Reference.writeFile. simpl. now rewrite lookup_insert_eq. Qed.

Lemma fresh_writeFile (w : World) (s p : string) :
  fresh w s -> p <> s -> fresh (Reference.writeFile w p) s.
Proof.
  intros (si & oi & Hs & Ho & Hr & Hle) Hne.
  destruct (string_dec p (objectPath s)) as [-> | Hno].
  - exists si, (mkFile true (Reference.latest w + 1) "").
    rewrite Stat_writeFile_ne by exact Hne. rewrite Stat_writeFile_eq.
    repeat split; auto. simpl. pose proof (latest_ge w s si Hs). lia.
  - exists si, oi. rewrite !Stat_writeFile_ne by assumption. auto.
Qed.

Lemma fresh_compiled (w : World) (s : string) :
  fileExists w s = true -> objectPath s <> s ->
  fresh (Reference.writeFile w (objectPath s)) s.
Proof.
  intros Hex Hne. apply fileExists_Stat in Hex. destruct Hex as (si & Hs & _).
  exists si, (mkFile true (Reference.latest w + 1) "").
  rewrite Stat_writeFile_ne by exact Hne. rewrite Stat_writeFile_eq.
  repeat split; auto. simpl. pose proof (latest_ge w s si Hs). lia.
Qed.

(** Evaluates the reference toolchain on a concrete argument vector. *)
Ltac run_toolchain :=
  change (runProcess Reference.host) with Reference.toolchain;
  unfold Reference.toolchain;
  repeat match goal with
         | |- context [Reference.argAfter ?f ?argv] =>
             let r := eval vm_compute in (Reference.argAfter f argv) in
             let E := fresh "E" in
             assert (E : Reference.argAfter f argv = r) by (vm_compute; reflexivity);
             rewrite E; clear E
         end;
  cbv iota beta.

Lemma reference_keeps_objects : toolchainKeepsObjects Reference.host optionsB.
Proof.
  assert (Hk : keptSources optionsB = ["main.cpp"; "util.cpp"]) by (vm_compute; reflexivity).
  assert (Hcmds : forall w argv,
            In argv (buildCommands Reference.host optionsB w) ->
            argv = Fields (buildCompileCmd optionsB "main.cpp" "main.o") \/
            argv = Fields (buildCompileCmd optionsB "util.cpp" "util.o") \/
            argv = Fields (linkLine optionsB ["main.o"; "util.o"] "proj")).
  { assert (E1 : objectPath "main.cpp" = "main.o") by (vm_compute; reflexivity).
    assert (E2 : objectPath "util.cpp" = "util.o") by (vm_compute; reflexivity).
    assert (E3 : ensureExeSuffix Reference.host (OutputName optionsB) (Win64Docker optionsB)
                 = "proj") by (vm_compute; reflexivity).
    intros w argv. unfold buildCommands. rewrite Hk. cbn [map app].
    rewrite E1, E2, E3. rewrite !commandArgv_plain by reflexivity.
    intros [<- | [<- | [<- | []]]];
      [left | right; left | right; right]; reflexivity. }
  split.
  - intros w argv s Hin Hs. rewrite Hk in Hs.
    destruct (Hcmds w argv Hin) as [-> | [-> | ->]]; run_toolchain;
      try (destruct (fileExists w _)); cbn [snd]; try reflexivity;
      destruct Hs as [<- | [<- | []]]; apply Stat_writeFile_ne; discriminate.
  - intros w s Hs. rewrite Hk in Hs.
    rewrite commandArgv_plain by reflexivity.
    destruct Hs as [<- | [<- | []]];
      [replace (objectPath "main.cpp") with "main.o" by (vm_compute; reflexivity)
      |replace (objectPath "util.cpp") with "util.o" by (vm_compute; reflexivity)];
      run_toolchain;
      (destruct (fileExists w _) eqn:Hex; cbn [fst snd]; [|discriminate]);
      intros _; apply (fresh_compiled w _ Hex); discriminate.
  - intros w argv s Hin Hs Hf. rewrite Hk in Hs.
    destruct (Hcmds w argv Hin) as [-> | [-> | ->]]; run_toolchain;
      try (destruct (fileExists w _)); cbn [snd]; try exact Hf;
      destruct Hs as [<- | [<- | []]]; apply fresh_writeFile; try exact Hf; discriminate.
Qed.



Example skewed_second_run :
  let st1 := snd (buildStep skewedHost optionsSkewed
                    (normalOf (Sources optionsSkewed)) (testsOf (Sources optionsSkewed))
                    (mkState (worldB "/home/u/proj") ∅ [])) in
  staleChecks (log (snd (compileSources skewedHost optionsSkewed
                           (Sources optionsSkewed) [] (secondRun st1))))
  = [("main.cpp", true); ("util.cpp", true)].
Proof. vm_compute. reflexivity. Qed.

(** * Further properties of the code *)

(** ** Package flags *)

Lemma mergeFlag_lists (o : Options) (f : string) :
  ExtraCFlags (mergeFlag o f) =
    (ExtraCFlags o ++ (if isCompileFlag f then [f] else []))%list /\
  ExtraLDFlags (mergeFlag o f) =
    (ExtraLDFlags o ++ (if negb (isCompileFlag f) && isLinkFlag f then [f] else []))%list.
Proof.
  unfold mergeFlag. fold (isCompileFlag f). fold (isLinkFlag f).
  destruct (isCompileFlag f); simpl.
  - now rewrite app_nil_r.
  - destruct (isLinkFlag f); simpl; now rewrite ?app_nil_r.
Qed.

Lemma fold_mergeFlag_lists (fs : list string) :
  forall o,
    ExtraCFlags (fold_left mergeFlag fs o) =
      (ExtraCFlags o ++ List.filter isCompileFlag fs)%list /\
    ExtraLDFlags (fold_left mergeFlag fs o) =
      (ExtraLDFlags o ++
       List.filter (fun f => negb (isCompileFlag f) && isLinkFlag f) fs)%list.
Proof.
  induction fs as [|f fs IH]; intros o; simpl.
  - now rewrite !app_nil_r.
  - destruct (IH (mergeFlag o f)) as [Hc Hl].
    destruct (mergeFlag_lists o f) as [Hc1 Hl1].
    rewrite Hc, Hl, Hc1, Hl1.
    destruct (isCompileFlag f); simpl.
    + rewrite app_nil_r, <- app_assoc. auto.
    + destruct (isLinkFlag f); simpl; rewrite ?app_nil_r, <- ?app_assoc; auto.
Qed.

(** X1. [mergePkgConfigFlags] appends to the compile flags the tokens of the
    pkg-config output that pass the first test, in their order, and to the
    link flags those that fail the first test and pass the second; every
    other token is dropped and no other option changes.  A token that
    begins with [-framework] passes the first test, so it never reaches
    the link flags. *)
Theorem mergePkgConfigFlags_sorts_tokens (flags : string) (o : Options) :
  let o' := mergePkgConfigFlags flags o in
  ExtraCFlags o' = (ExtraCFlags o ++ List.filter isCompileFlag (Fields flags))%list /\
  ExtraLDFlags o' =
    (ExtraLDFlags o ++
     List.filter (fun f => negb (isCompileFlag f) && isLinkFlag f) (Fields flags))%list /\
  flagsOnly o o' /\
  (forall f, HasPrefix f "-framework" = true ->
             In f (ExtraLDFlags o') -> In f (ExtraLDFlags o)).
Proof.
  cbv zeta. unfold mergePkgConfigFlags at 1 2.
  destruct (fold_mergeFlag_lists (Fields flags) o) as [Hc Hl].
  split; [exact Hc|]. split; [exact Hl|].
  split; [apply mergePkgConfigFlags_flagsOnly|].
  intros f Hfw. unfold mergePkgConfigFlags. rewrite Hl, in_app_iff.
  intros [Hin | Hin]; [exact Hin|].
  apply filter_In in Hin. destruct Hin as [_ Hf].
  unfold isCompileFlag in Hf. rewrite Hfw in Hf.
  rewrite !orb_true_r in Hf. discriminate.
Qed.

Example mergePkgConfigFlags_ex :
  let o := mergePkgConfigFlags
             "-I/usr/include/SDL2 -D_REENTRANT -pthread -L/usr/lib -lSDL2 -Wl,--as-needed -framework Cocoa"
             defaultOptions in
  ExtraCFlags o = ["-I/usr/include/SDL2"; "-D_REENTRANT"; "-framework"] /\
  ExtraLDFlags o = ["-L/usr/lib"; "-lSDL2"; "-Wl,--as-needed"].
Proof. split; reflexivity. Qed.

(** ** Package hints *)

(** X2. A hint has a package exactly when it has an install command, so the
    two tests of [pkgDiscovery] stand or fall together; the command is a
    pacman one exactly when the name of the distribution contains [arch],
    whatever the case of its letters. *)
Theorem mapHeaderToPkg_hint (h distro : string) :
  let pkg := fst (mapHeaderToPkg h distro) in
  let cmd := snd (mapHeaderToPkg h distro) in
  (pkg = "" <-> cmd = "") /\
  (pkg <> "" ->
   if Contains (ToLower distro) "arch"
   then HasPrefix cmd "pacman -S " = true
   else HasPrefix cmd "apt install " = true).
Proof.
  cbv zeta. unfold mapHeaderToPkg.
  destruct (Contains (ToLower distro) "arch");
    destruct (Contains (ToLower h) "boost/");
    [| destruct (Contains (ToLower h) "sdl2/");
       [| destruct (Contains (ToLower h) "glm/");
          [| destruct (Contains (ToLower h) "gl.h" || Contains (ToLower h) "glu.h");
             [| destruct (Contains (ToLower h) "gtk/gtk.h");
                [| destruct (Contains (ToLower h) "vulkan/")]]]]
    | | destruct (Contains (ToLower h) "sdl2/");
       [| destruct (Contains (ToLower h) "glm/");
          [| destruct (Contains (ToLower h) "gl.h" || Contains (ToLower h) "glu.h");
             [| destruct (Contains (ToLower h) "gtk/gtk.h");
                [| destruct (Contains (ToLower h) "vulkan/")]]]]];
    cbn [fst snd]; (split; [split; intros Hx; try discriminate Hx; reflexivity|]);
    intros Hne; try reflexivity; congruence.
Qed.

(** ** Arguments *)

Lemma fold_parseArg_switch (proj : Options -> bool) (test : string -> bool)
      (Hstep : forall o a, proj (parseArg o a) = test a || proj o)
      (args : list string) :
  forall o, proj (fold_left parseArg args o) = existsb test args || proj o.
Proof.
  induction args as [|a args IH]; intros o; cbn [fold_left existsb]; [reflexivity|].
  rewrite IH, Hstep.
  destruct (test a), (existsb test args), (proj o); reflexivity.
Qed.

Lemma hasArg_In (a : string) (args : list string) :
  hasArg a args = true <-> In a args.
Proof.
  unfold hasArg. rewrite existsb_exists. split.
  - intros [x [Hin Heq]]. apply String.eqb_eq in Heq. now subst.
  - intros Hin. exists a. split; [exact Hin | apply String.eqb_refl].
Qed.

Lemma parseArgs_switch (proj : Options -> bool) (word : string)
      (Hstep : forall o a, proj (parseArg o a) = (a =s word) || proj o)
      (Hdefault : proj defaultOptions = false) (args : list string) :
  proj (parseArgs args) = true <-> In word args.
Proof.
  unfold parseArgs.
  rewrite (fold_parseArg_switch proj (fun a => a =s word) Hstep), Hdefault, orb_false_r.
  apply hasArg_In.
Qed.

Lemma fold_parseArg_kept {A : Type} (proj : Options -> A)
      (Hstep : forall o a, proj (parseArg o a) = proj o) (args : list string) :
  forall o, proj (fold_left parseArg args o) = proj o.
Proof.
  induction args as [|a args IH]; intros o; cbn [fold_left]; [reflexivity|].
  now rewrite IH, Hstep.
Qed.

(** X3. Every switch of the command line is on exactly when its word occurs
    among the arguments, wherever and however often; the language standard
    is always c++20, and no source, output name or flag is set yet. *)
Theorem parseArgs_switches (args : list string) :
  let o := parseArgs args in
  (Run o = true <-> In "run" args) /\
  (Test o = true <-> In "test" args) /\
  (Clean o = true <-> In "clean" args) /\
  (Pro o = true <-> In "pro" args) /\
  (Version o = true <-> In "--version" args \/ In "version" args) /\
  (Debug o = true <-> In "debug" args) /\
  (Strict o = true <-> In "strict" args) /\
  (Sloppy o = true <-> In "sloppy" args) /\
  (Opt o = true <-> In "opt" args) /\
  (Clang o = true <-> In "clang" args) /\
  (Win64Docker o = true <-> In "--win64-docker" args) /\
  Std o = "c++20" /\ ExtraCFlags o = [] /\ ExtraLDFlags o = [] /\
  Sources o = [] /\ OutputName o = "".
Proof.
  cbv zeta.
  repeat match goal with
         | |- (_ <-> In _ _) /\ _ =>
             split; [apply parseArgs_switch; [intros; reflexivity | reflexivity]|]
         end.
  split.
  { unfold parseArgs.
    rewrite (fold_parseArg_switch Version
               (fun a => (a =s "--version") || (a =s "version")))
      by (intros; reflexivity).
    change (Version defaultOptions) with false. rewrite orb_false_r.
    rewrite <- !hasArg_In, <- orb_true_iff. unfold hasArg.
    induction args as [|a args IH]; cbn [existsb]; [reflexivity|].
    destruct (a =s "--version"), (a =s "version"); cbn [orb];
      rewrite ?orb_true_r; try tauto. }
  repeat match goal with
         | |- (_ <-> In _ _) /\ _ =>
             split; [apply parseArgs_switch; [intros; reflexivity | reflexivity]|]
         end.
  unfold parseArgs.
  repeat split; rewrite fold_parseArg_kept by (intros; reflexivity); reflexivity.
Qed.

(** ** The compiler *)

Lemma parseArgs_snoc (args : list string) (a : string) :
  parseArgs (args ++ [a]) = parseArg (parseArgs args) a.
Proof. unfold parseArgs. now rewrite fold_left_app. Qed.

Lemma TrimPrefix_app (p x : string) : TrimPrefix (p +:+ x) p = x.
Proof.
  unfold TrimPrefix, HasPrefix. rewrite chars_app, prefixL_app.
  rewrite skipn_app, skipn_all, Nat.sub_diag. simpl. apply str_chars.
Qed.

(** X4. The compiler a run uses.  Without arguments it is g++.  The last of the
    arguments [--win64-docker], [--cxx=<x>] and [cxx=<x>] decides between
    the mingw cross compiler and [<x>]; any other argument leaves the choice
    as it is.  After that [clang] without [--win64-docker] replaces the
    choice by clang++, wherever the two stand among the arguments, and
    [clang] together with [--win64-docker] changes nothing. *)
Theorem compiler_selection (args : list string) (x : string) :
  CXX (parseArgs []) = "g++" /\
  CXX (parseArgs (args ++ ["--win64-docker"])) = "x86_64-w64-mingw32-g++" /\
  CXX (parseArgs (args ++ ["--cxx=" +:+ x])) = x /\
  CXX (parseArgs (args ++ ["cxx=" +:+ x])) = x /\
  (HasPrefix x "--cxx=" = false -> HasPrefix x "cxx=" = false ->
   x <> "--win64-docker" -> CXX (parseArgs (args ++ [x])) = CXX (parseArgs args)) /\
  (In "clang" args -> ~ In "--win64-docker" args ->
   CXX (adjustCompiler (parseArgs args)) = "clang++") /\
  (In "--win64-docker" args ->
   adjustCompiler (parseArgs args) = parseArgs args) /\
  (~ In "clang" args -> adjustCompiler (parseArgs args) = parseArgs args).
Proof.
  split; [reflexivity|].
  split; [rewrite parseArgs_snoc; reflexivity|].
  split.
  { rewrite parseArgs_snoc. unfold parseArg. cbn [CXX].
    change (("--cxx=" +:+ x) =s "--win64-docker") with false.
    change (existsb (String.eqb ("--cxx=" +:+ x)) _) with false.
    cbv iota. unfold HasPrefix at 1. rewrite chars_app, prefixL_app.
    apply TrimPrefix_app. }
  split.
  { rewrite parseArgs_snoc. unfold parseArg. cbn [CXX].
    change (("cxx=" +:+ x) =s "--win64-docker") with false.
    change (existsb (String.eqb ("cxx=" +:+ x)) _) with false.
    change (HasPrefix ("cxx=" +:+ x) "--cxx=") with false.
    cbv iota. unfold HasPrefix at 1. rewrite chars_app, prefixL_app.
    apply TrimPrefix_app. }
  split.
  { intros H1 H2 Hne. rewrite parseArgs_snoc. unfold parseArg. cbn [CXX].
    rewrite H1, H2. apply String.eqb_neq in Hne. rewrite Hne.
    destruct (existsb _ _); reflexivity. }
  assert (Hclang : Clang (parseArgs args) = true <-> In "clang" args)
    by (apply parseArgs_switch; [intros; reflexivity | reflexivity]).
  assert (Hdocker : Win64Docker (parseArgs args) = true <-> In "--win64-docker" args)
    by (apply parseArgs_switch; [intros; reflexivity | reflexivity]).
  unfold adjustCompiler. repeat split.
  - intros Hc Hd. apply Hclang in Hc. rewrite Hc.
    destruct (Win64Docker (parseArgs args)); [exfalso; apply Hd, Hdocker; reflexivity|].
    reflexivity.
  - intros Hd. apply Hdocker in Hd. rewrite Hd, andb_false_r. reflexivity.
  - intros Hc. destruct (Clang (parseArgs args)); [exfalso; apply Hc, Hclang; reflexivity|].
    reflexivity.
Qed.

(** ** Compile flags *)

(** X5. The flags of a compilation, token by token: the eleven fixed flags,
    then those of the mode, of [strict] and of [sloppy], in this order.
    Debug mode takes precedence over optimisation: [-O2] is passed exactly
    when [opt] is given without [debug]. *)
Theorem compileFlags_tokens (o : Options) :
  Fields (compileFlags o) =
    (["-pipe"; "-fPIC"; "-fno-plt"; "-fstack-protector-strong"; "-Wall";
      "-Wshadow"; "-Wpedantic"; "-Wno-parentheses"; "-Wfatal-errors"; "-Wvla";
      "-Wignored-qualifiers"] ++
     (if Debug o then ["-O0"; "-g"] else if Opt o then ["-O2"] else []) ++
     (if Strict o then ["-Wextra"; "-Wconversion"] else []) ++
     (if Sloppy o then ["-w"; "-fpermissive"] else []))%list /\
  (In "-O2" (Fields (compileFlags o)) <-> Debug o = false /\ Opt o = true) /\
  (In "-g" (Fields (compileFlags o)) <-> Debug o = true).
Proof.
  unfold compileFlags.
  destruct (Debug o), (Opt o), (Strict o), (Sloppy o);
    (split; [vm_compute; reflexivity|]);
    (split; (split; [intros Hin; vm_compute in Hin; intuition discriminate
                    | intros Hx; vm_compute; intuition discriminate])).
Qed.

(** ** The suffix of an executable *)

(** X6. [ensureExeSuffix] adds [.exe] at most once: applied to its own result
    it changes nothing.  For a Windows target the result ends in [.exe];
    for any other target the name comes back as it is. *)
Theorem ensureExeSuffix_idempotent (H : Host) (base : string) (docker : bool) :
  ensureExeSuffix H (ensureExeSuffix H base docker) docker =
    ensureExeSuffix H base docker /\
  (docker = true \/ GOOS H = "windows" ->
   HasSuffix (ensureExeSuffix H base docker) ".exe" = true) /\
  (docker = false -> GOOS H <> "windows" -> ensureExeSuffix H base docker = base).
Proof.
  unfold ensureExeSuffix.
  destruct (String.eqb_spec (GOOS H) "windows") as [Hw | Hw];
    destruct docker, (HasSuffix base ".exe") eqn:Hb; cbn [andb negb];
    rewrite ?HasSuffix_app, ?Hb; cbn [andb negb];
    repeat split; try reflexivity; try assumption;
    try (intros [Hx | Hx]; congruence); try congruence;
    try (intros; apply HasSuffix_app).
Qed.

(** ** The cache, when it has no entry *)

(** X7. With no entry for a source (the cache file deleted, or the source
    new), the source counts as up to date only if its object is a regular
    file that is not older and the source was last written in second 0 of
    the epoch, the value Go's map gives for a missing key.  Every source
    written later is rebuilt. *)
Theorem needsRebuild_without_entry (w : World) (src obj : string) (cc : gmap string Z) :
  cc !! src = None ->
  (needsRebuild w src obj cc = false <->
   exists si oi,
     Stat w src = Some si /\ Stat w obj = Some oi /\ isRegular oi = true /\
     modTime si <= modTime oi /\ Unix (modTime si) = 0).
Proof.
  intros Hnone. rewrite needsRebuild_false_iff. unfold cached. rewrite Hnone. simpl.
  split; intros (si & oi & H1 & H2 & H3 & H4 & H5); exists si, oi; auto 6.
Qed.

Lemma needsRebuild_without_entry_witness :
  needsRebuild (worldB "/home/u/proj") "main.cpp" "main.o" ∅ = false <->
  exists si oi,
    Stat (worldB "/home/u/proj") "main.cpp" = Some si /\
    Stat (worldB "/home/u/proj") "main.o" = Some oi /\ isRegular oi = true /\
    modTime si <= modTime oi /\ Unix (modTime si) = 0.
Proof. apply (needsRebuild_without_entry _ _ _ ∅). reflexivity. Defined.

(** ** Commands *)

Lemma runCommand_blank (H : Host) (line : string) (o : Options) (st : State) :
  Fields line = [] ->
  runCommand H line o st =
    (None, mkState (world st) (cache st) (log st ++ [EvPrint line])).
Proof.
  intros Hf. unfold runCommand, bind, Println, emit, ret. rewrite Hf.
  destruct (Win64Docker o); reflexivity.
Qed.

(** X8. A command line without a token (empty, or white space only) is
    printed and nothing is started: [runCommand] reports success and
    leaves the files and the cache alone, under docker as well. *)
Theorem runCommand_blank_line (H : Host) (line : string) (o : Options) (st : State) :
  Fields line = [] ->
  runCommand H line o st =
    (None, mkState (world st) (cache st) (log st ++ [EvPrint line])).
Proof. apply runCommand_blank. Qed.

Lemma runCommand_blank_line_witness :
  runCommand Reference.host "   " defaultOptions (mkState (worldA "/home/u/p") ∅ []) =
    (None, mkState (worldA "/home/u/p") ∅ [EvPrint "   "]).
Proof.
  apply (runCommand_blank_line Reference.host "   " defaultOptions
           (mkState (worldA "/home/u/p") ∅ [])).
  vm_compute. reflexivity.
Defined.

(** ** Missing headers without pkg-config *)

Lemma reportMissing_no_pkg_config (H : Host) (missing : list string) :
  (forall w, lookPath H "pkg-config" w = false) ->
  forall (o : Options) (st : State), fst (reportMissing H o missing st) = o.
Proof.
  intros Hno. induction missing as [|h rest IH]; intros o st; [reflexivity|].
  simpl reportMissing. unfold bind at 1. unfold Println at 1, emit at 1.
  destruct (mapHeaderToPkg h (DetectedDistro o)) as [pkg cmd].
  destruct (negb (pkg =s "") && negb (cmd =s "")); [|apply IH].
  unfold bind, Println, emit, getWorld. cbn [world fst snd].
  unfold gatherPkgConfigFlags. rewrite Hno. cbn [negb]. apply IH.
Qed.

(** X9. On a host without pkg-config the package discovery adds no flag: it
    only prints, and hands back the options it was given, if the run is
    sloppy, or ends the run, if it is not. *)
Theorem pkgDiscovery_without_pkg_config (H : Host) (o : Options)
        (missing : list string) (st : State) :
  (forall w, lookPath H "pkg-config" w = false) ->
  fst (pkgDiscovery H o missing st) = (if Sloppy o then Some o else None) /\
  world (snd (pkgDiscovery H o missing st)) = world st /\
  cache (snd (pkgDiscovery H o missing st)) = cache st /\
  runsOf (log (snd (pkgDiscovery H o missing st))) = runsOf (log st).
Proof.
  intros Hno.
  destruct (pkgDiscovery_spec H o missing st) as (o' & evs & Hfl & Hpr & _ & _ & Heq).
  pose proof (reportMissing_no_pkg_config H missing Hno o
                (mkState (world st) (cache st) (log st ++ [EvPrint "Missing headers:"])))
    as Hsame.
  assert (Hfst : fst (pkgDiscovery H o missing st) = (if Sloppy o then Some o else None)).
  { unfold pkgDiscovery, bind. unfold Println at 1, emit at 1.
    destruct (reportMissing H o missing _) as [o1 st1]. cbn [fst] in Hsame. subst o1.
    destruct (Sloppy o); reflexivity. }
  split; [exact Hfst|]. rewrite Heq. cbn [snd world cache log].
  repeat split. rewrite !runsOf_app.
  rewrite (Forall_isPrint_runsOf evs Hpr). destruct (Sloppy o); simpl; now rewrite app_nil_r.
Qed.

Lemma pkgDiscovery_without_pkg_config_witness :
  let st := mkState worldC ∅ [] in
  let o := plannedOptions Reference.host worldC defaultOptions in
  fst (pkgDiscovery Reference.host o ["boost/lexical_cast.hpp"] st) =
    (if Sloppy o then Some o else None) /\
  world (snd (pkgDiscovery Reference.host o ["boost/lexical_cast.hpp"] st)) = world st /\
  cache (snd (pkgDiscovery Reference.host o ["boost/lexical_cast.hpp"] st)) = cache st /\
  runsOf (log (snd (pkgDiscovery Reference.host o ["boost/lexical_cast.hpp"] st))) =
    runsOf (log st).
Proof.
  apply (pkgDiscovery_without_pkg_config Reference.host
           (plannedOptions Reference.host worldC defaultOptions)
           ["boost/lexical_cast.hpp"] (mkState worldC ∅ [])).
  intros w. reflexivity.
Defined.

(** ** The headers of a project *)

(** X10. When the host's map iteration is a permutation of the keys,
    [gatherAllIncludes] yields every header that some source includes, and
    each of them once, however often and in however many files it is
    included. *)
Theorem gatherAllIncludes_each_once (H : Host) (w : World) (files : list string) :
  (forall l, Permutation (mapRange H l) l) ->
  NoDup (gatherAllIncludes H w files) /\
  (forall h, In h (gatherAllIncludes H w files) <->
             exists f, In f files /\ In h (discoverIncludes w f)).
Proof.
  intros Hperm. unfold gatherAllIncludes. split.
  - rewrite (Hperm _). apply NoDup_remove_dups.
  - intros h. rewrite <- in_flat_map.
    rewrite <- !list_elem_of_In. rewrite (Hperm _). apply elem_of_remove_dups.
Qed.

Lemma gatherAllIncludes_each_once_witness :
  NoDup (gatherAllIncludes Reference.host worldC ["main.cpp"]) /\
  (forall h, In h (gatherAllIncludes Reference.host worldC ["main.cpp"]) <->
             exists f, In f ["main.cpp"] /\ In h (discoverIncludes worldC f)).
Proof.
  apply (gatherAllIncludes_each_once Reference.host worldC ["main.cpp"]).
  intros l. reflexivity.
Defined.

(** ** The include directive *)

Lemma skipReSpace_suffix (l : list ascii) :
  exists ws, l = (ws ++ skipReSpace l)%list.
Proof.
  induction l as [|c l [ws IH]]; simpl.
  - now exists [].
  - destruct (isReSpace c).
    + exists (c :: ws). simpl. now rewrite <- IH.
    + now exists [].
Qed.

Lemma skipReSpace_spaces (ws l : list ascii) :
  forallb isReSpace ws = true ->
  match l with c :: _ => isReSpace c = false | [] => True end ->
  skipReSpace (ws ++ l) = l.
Proof.
  intros Hws Hl. induction ws as [|c ws IH]; simpl in *.
  - destruct l as [|c l]; simpl; [reflexivity | now rewrite Hl].
  - apply andb_true_iff in Hws. destruct Hws as [-> Hws]. auto.
Qed.

Lemma headerToken_spec (l : list ascii) :
  l = (fst (headerToken l) ++ snd (headerToken l))%list /\
  forallb (fun c => negb (isCloser c)) (fst (headerToken l)) = true /\
  match snd (headerToken l) with c :: _ => isCloser c = true | [] => True end.
Proof.
  induction l as [|c l IH]; simpl; [auto|].
  destruct (isCloser c) eqn:Hc; simpl; [auto|].
  destruct (headerToken l) as [tok rest]. simpl in *.
  destruct IH as (-> & Htok & Hrest). rewrite Hc. auto.
Qed.

Lemma headerToken_app (tok rest : list ascii) (c : ascii) :
  forallb (fun c => negb (isCloser c)) tok = true -> isCloser c = true ->
  headerToken (tok ++ c :: rest) = (tok, c :: rest).
Proof.
  intros Htok Hc. induction tok as [|d tok IH]; simpl in *.
  - now rewrite Hc.
  - apply andb_true_iff in Htok. destruct Htok as [Hd Htok].
    apply negb_true_iff in Hd. rewrite Hd, (IH Htok). reflexivity.
Qed.

(** X11. What [discoverIncludes] takes from a line is never empty and holds
    neither a double quote nor [>]; it stands in the line right before
    one of the two, and the line begins, white space apart, with [#]. *)
Theorem matchInclude_sound (line : list ascii) (h : string) :
  matchInclude line = Some h ->
  h <> "" /\
  forallb (fun c => negb (isCloser c)) (chars h) = true /\
  (exists pre c rest,
     line = (pre ++ chars h ++ c :: rest)%list /\ isCloser c = true) /\
  (exists l1, skipReSpace line = "#"%char :: l1).
Proof.
  unfold matchInclude.
  destruct (skipReSpace_suffix line) as [ws0 Hline].
  destruct (skipReSpace line) as [|c l1]; [discriminate|].
  destruct (Ascii.eqb_spec c "#") as [-> | _]; [|discriminate].
  destruct (skipReSpace_suffix l1) as [ws1 Hl1].
  destruct (prefixL (chars "include") (skipReSpace l1)); [|discriminate].
  pose proof (firstn_skipn 7 (skipReSpace l1)) as Hsplit.
  destruct (skipReSpace_suffix (skipn 7 (skipReSpace l1))) as [ws2 Hl2].
  destruct (skipReSpace (skipn 7 (skipReSpace l1))) as [|q l3]; [discriminate|].
  destruct (isOpener q); [|discriminate].
  destruct (headerToken_spec l3) as (Hl3 & Htok & Hrest).
  destruct (headerToken l3) as [[|t tok] [|cl rest]]; try discriminate.
  cbn [fst snd] in *. intros [= <-].
  change (String t (str tok)) with (str (t :: tok)). rewrite chars_str.
  split; [discriminate|]. split; [exact Htok|]. split; [|now exists l1].
  exists (ws0 ++ "#"%char :: ws1 ++ firstn 7 (skipReSpace l1) ++ ws2 ++ [q])%list, cl, rest.
  split; [|exact Hrest].
  rewrite Hline at 1. rewrite Hl1 at 1. rewrite <- Hsplit at 1. rewrite Hl2 at 1.
  rewrite Hl3 at 1. repeat (rewrite <- ?app_assoc; cbn [app]). reflexivity.
Qed.

Lemma matchInclude_sound_witness :
  "boost/lexical_cast.hpp" <> "" /\
  forallb (fun c => negb (isCloser c)) (chars "boost/lexical_cast.hpp") = true /\
  (exists pre c rest,
     chars "#include <boost/lexical_cast.hpp>" =
       (pre ++ chars "boost/lexical_cast.hpp" ++ c :: rest)%list /\ isCloser c = true) /\
  (exists l1, skipReSpace (chars "#include <boost/lexical_cast.hpp>") = "#"%char :: l1).
Proof.
  apply (matchInclude_sound (chars "#include <boost/lexical_cast.hpp>")
           "boost/lexical_cast.hpp").
  vm_compute. reflexivity.
Defined.

Lemma isOpener_not_space (q : ascii) : isOpener q = true -> isReSpace q = false.
Proof.
  unfold isOpener. intros Hq. apply orb_true_iff in Hq.
  destruct Hq as [Hq | Hq]; apply Ascii.eqb_eq in Hq; subst q; reflexivity.
Qed.

(** X12. Every line of the form: white space, [#], white space, [include],
    white space, an opening double quote or [<], a name without double
    quote and [>], a closing double quote or [>], anything, yields the
    name.  The white space is optional, the opening and the closing
    character need not belong together, and what follows is ignored. *)
Theorem matchInclude_complete (ws0 ws1 ws2 tok rest : list ascii) (q c : ascii) :
  forallb isReSpace ws0 = true -> forallb isReSpace ws1 = true ->
  forallb isReSpace ws2 = true ->
  isOpener q = true -> isCloser c = true ->
  tok <> [] -> forallb (fun c => negb (isCloser c)) tok = true ->
  matchInclude (ws0 ++ "#"%char :: ws1 ++ chars "include" ++ ws2 ++ q :: tok ++ c :: rest)
  = Some (str tok).
Proof.
  intros H0 H1 H2 Hq Hc Hne Htok. unfold matchInclude.
  rewrite (skipReSpace_spaces ws0) by (exact H0 || reflexivity).
  cbv iota. change (Ascii.eqb "#" "#") with true. cbv iota.
  rewrite (skipReSpace_spaces ws1) by (exact H1 || reflexivity).
  rewrite prefixL_app.
  change (skipn 7 (chars "include" ++ ?l)) with l.
  rewrite (skipReSpace_spaces ws2) by (exact H2 || (apply isOpener_not_space, Hq)).
  rewrite Hq, (headerToken_app tok rest c Htok Hc).
  destruct tok; [congruence | reflexivity].
Qed.

Lemma matchInclude_complete_witness :
  matchInclude (chars "  " ++ "#"%char :: chars " " ++ chars "include" ++ [] ++
                "<"%char :: chars "vector" ++ dquote :: chars " // odd")
  = Some (str (chars "vector")).
Proof.
  apply (matchInclude_complete (chars "  ") (chars " ") [] (chars "vector")
           (chars " // odd") "<"%char dquote);
    solve [reflexivity | discriminate].
Defined.

(** ** Names, whatever the case of their letters *)

Section NameFacts.
Import Filepath.

Lemma lowerChar_idem (c : ascii) : lowerChar (lowerChar c) = lowerChar c.
Proof. destruct c as [[] [] [] [] [] [] [] []]; reflexivity. Qed.

Lemma lowerChar_isSlash (c : ascii) : isSlash (lowerChar c) = isSlash c.
Proof. destruct c as [[] [] [] [] [] [] [] []]; reflexivity. Qed.

Lemma ToLower_idem (s : string) : ToLower (ToLower s) = ToLower s.
Proof.
  unfold ToLower. rewrite chars_str, map_map. f_equal.
  apply map_ext. intros c. apply lowerChar_idem.
Qed.

Lemma dropSlashes_lower (l : list ascii) :
  dropSlashes (map lowerChar l) = map lowerChar (dropSlashes l).
Proof.
  induction l as [|c l IH]; simpl; [reflexivity|].
  rewrite lowerChar_isSlash. destruct (isSlash c); [exact IH | reflexivity].
Qed.

Lemma untilSlash_lower (l : list ascii) :
  untilSlash (map lowerChar l) = map lowerChar (untilSlash l).
Proof.
  induction l as [|c l IH]; simpl; [reflexivity|].
  rewrite lowerChar_isSlash. destruct (isSlash c); simpl; [reflexivity | now rewrite IH].
Qed.

Lemma Base_ToLower (p : string) : Base (ToLower p) = ToLower (Base p).
Proof.
  unfold Base. rewrite chars_ToLower.
  destruct (chars p) as [|c l] eqn:Hp; [reflexivity|].
  cbn [map]. rewrite <- (map_cons lowerChar c l), <- map_rev, dropSlashes_lower.
  destruct (dropSlashes (rev (c :: l))) as [|d r]; [reflexivity|].
  cbn [map]. change (lowerChar d :: map lowerChar r) with (map lowerChar (d :: r)).
  rewrite untilSlash_lower, <- map_rev. unfold ToLower. now rewrite chars_str.
Qed.

(** X13. Whether a path is a test source, is named like the entry point, or is
    a source at all does not depend on the case of its letters. *)
Theorem classification_ignores_case (s : string) :
  isTestSource (ToLower s) = isTestSource s /\
  isMainName (ToLower s) = isMainName s /\
  isSourcePath (ToLower s) = isSourcePath s.
Proof.
  unfold isTestSource, isMainName, isSourcePath.
  rewrite Base_ToLower, !ToLower_idem. auto.
Qed.

(** ** The sources that are found *)

(** X14. Every path [discoverSources] yields ends, in lower case, in [.c],
    [.cc], [.cpp] or [.cxx], and a directory whose name begins with a dot
    (other than the root of the walk) yields nothing, whatever is below
    it. *)
Theorem discoverSources_only_sources (w : World) :
  (forall s, In s (discoverSources w) ->
     let l := ToLower s in
     HasSuffix l ".c" = true \/ HasSuffix l ".cc" = true \/
     HasSuffix l ".cpp" = true \/ HasSuffix l ".cxx" = true) /\
  (forall parent name entries,
     HasPrefix name "." = true -> name <> "." ->
     walkEntry parent (Dir name entries) = []).
Proof.
  split.
  - intros s Hin. apply discoverSources_isSourcePath in Hin.
    unfold isSourcePath in Hin. cbv zeta in *.
    repeat (apply orb_true_iff in Hin; destruct Hin as [Hin | Hin]); auto.
  - intros parent name entries Hdot Hne. simpl. rewrite Hdot.
    apply String.eqb_neq in Hne. now rewrite Hne.
Qed.

(** ** The entry point *)

(** X15. A source named [main.c], [main.cc], [main.cpp] or [main.cxx] is the
    entry point whatever the files contain: the first such source in walk
    order wins, and no file is read.  Without one, a single source that is
    no test is the entry point, again whatever it contains.  In both cases
    the choice is the same in every world. *)
Theorem findMainSource_by_name (w w' : World) (srcs : list string) :
  (forall m, List.find isMainName srcs = Some m -> findMainSource w srcs = m) /\
  (forall s, List.find isMainName srcs = None -> normalOf srcs = [s] ->
             findMainSource w srcs = s) /\
  (List.find isMainName srcs <> None \/ List.length (normalOf srcs) = 1%nat ->
   findMainSource w srcs = findMainSource w' srcs).
Proof.
  unfold findMainSource, normalOf. repeat split.
  - now intros m ->.
  - intros s -> ->. now destruct (hasMainFunc w s).
  - destruct (List.find isMainName srcs) as [m|]; [reflexivity|].
    intros [Hx | Hlen]; [congruence|].
    destruct (List.filter _ srcs) as [|s [|s2 rest]]; try discriminate.
    now destruct (hasMainFunc w s), (hasMainFunc w' s).
Qed.

(** ** The output name *)

Lemma dropSlashes_head (l : list ascii) (c : ascii) (r : list ascii) :
  dropSlashes l = c :: r -> isSlash c = false.
Proof.
  induction l as [|d l IH]; simpl; [discriminate|].
  destruct (isSlash d) eqn:Hd; [exact IH|]. intros [= <- _]. exact Hd.
Qed.

Lemma Base_nonempty (p : string) : Base p <> "".
Proof.
  unfold Base. destruct (chars p); [discriminate|].
  destruct (dropSlashes _) as [|c r] eqn:Hd; [discriminate|].
  apply dropSlashes_head in Hd. simpl. rewrite Hd.
  intros Hx. apply (f_equal chars) in Hx. rewrite chars_str in Hx. simpl in Hx.
  apply app_eq_nil in Hx. destruct Hx as [_ Hx]. discriminate.
Qed.

Lemma append_nonempty (a b : string) : a <> "" -> a +:+ b <> "".
Proof. destruct a; [congruence | discriminate]. Qed.

Lemma guessOutputNameFromMain_nonempty (H : Host) (w : World) (m : string) (d : bool) :
  guessOutputNameFromMain H w m d <> "".
Proof.
  unfold guessOutputNameFromMain.
  set (b := if Base (getwd w) =s "src" then _ else _).
  assert (Hb : b <> "").
  { subst b. destruct (Base (getwd w) =s "src").
    - destruct (String.eqb_spec (TrimSuffix (Base m) (Filepath.Ext m)) "");
        [discriminate | assumption].
    - apply Base_nonempty. }
  destruct (d && _); [now apply append_nonempty|].
  destruct (_ && _); [now apply append_nonempty | exact Hb].
Qed.

(** X16. A project with at least one source that is no test always gets an
    output name, with or without an entry point; a project of tests only
    gets none, and no entry point: its output name stays as it was. *)
Theorem classify_output_name (H : Host) (w : World) (o : Options) (srcs : list string) :
  (normalOf srcs <> [] -> OutputName (classify H w o srcs) <> "") /\
  (normalOf srcs = [] ->
   MainSource (classify H w o srcs) = "" /\
   OutputName (classify H w o srcs) = OutputName o).
Proof.
  split.
  - intros Hn. unfold classify. cbn [MainSource setMainSource setSources Win64Docker].
    destruct (negb (findMainSource w srcs =s "")).
    + apply guessOutputNameFromMain_nonempty.
    + destruct (normalOf srcs) as [|s rest]; [congruence|]. cbn [List.length Nat.ltb Nat.leb].
      cbn. destruct (Win64Docker o); [discriminate|].
      destruct (GOOS H =s "windows"); discriminate.
  - intros Hn.
    assert (Hmain : findMainSource w srcs = "").
    { destruct (String.eqb_spec (findMainSource w srcs) "") as [He | Hne]; [exact He|].
      destruct (findMainSource_spec w srcs Hne) as [Hin Hnt].
      assert (Hx : In (findMainSource w srcs) (normalOf srcs)).
      { apply filter_In. split; [exact Hin | now rewrite Hnt]. }
      rewrite Hn in Hx. destruct Hx. }
    rewrite MainSource_classify. split; [exact Hmain|].
    unfold classify. cbn [MainSource setMainSource]. rewrite Hmain, Hn. reflexivity.
Qed.

(** ** The project file *)

(** X17. [generateProFile] adds the entry point to the sources it lists unless
    it is among them already.  In a run of [main] it always is: the entry
    point is a source that is no test, so the list is the list of the
    sources that are no tests, each where the walk found it. *)
Theorem proSources_of_a_run (H : Host) (w : World) (o : Options) (srcs : list string) :
  proSources (classify H w o srcs) (normalOf srcs) = normalOf srcs.
Proof.
  unfold proSources. rewrite MainSource_classify.
  destruct (String.eqb_spec (findMainSource w srcs) "") as [He | Hne];
    [cbn [negb andb]; apply app_nil_r|].
  destruct (findMainSource_spec w srcs Hne) as [Hin Hnt].
  assert (Hc : contains (normalOf srcs) (findMainSource w srcs) = true).
  { unfold contains. apply existsb_exists. exists (findMainSource w srcs).
    split; [|apply String.eqb_refl].
    apply filter_In. split; [exact Hin | now rewrite Hnt]. }
  rewrite Hc. cbn [negb andb]. apply app_nil_r.
Qed.

End NameFacts.

(** ** What holds of every event of a build *)

Transparent commandArgv.

Lemma commandArgv_docker (o : Options) (w : World) (line : string) :
  Win64Docker o = true -> commandArgv o w line = "docker" :: dockerArgs w (Fields line).
Proof. unfold commandArgv. now intros ->. Qed.

Lemma commandArgv_setOutputName (o : Options) (on : string) (w : World) (line : string) :
  commandArgv (setOutputName o on) w line = commandArgv o w line.
Proof. reflexivity. Qed.

Opaque commandArgv.

(** [st'] has the log of [st] and events that all satisfy [P]. *)
Lemma allEvents_refl (P : Event -> Prop) (st : State) :
  exists evs, log st = (log st ++ evs)%list /\ Forall P evs.
Proof. exists []. now rewrite app_nil_r. Qed.

Lemma allEvents_trans (P : Event -> Prop) (a b c : State) :
  (exists evs, log b = (log a ++ evs)%list /\ Forall P evs) ->
  (exists evs, log c = (log b ++ evs)%list /\ Forall P evs) ->
  exists evs, log c = (log a ++ evs)%list /\ Forall P evs.
Proof.
  intros (e1 & H1 & P1) (e2 & H2 & P2). exists (e1 ++ e2)%list.
  split; [now rewrite H2, H1, app_assoc | now apply Forall_app].
Qed.

Section EventInvariant.

Variable H : Host.
Variable o : Options.
Variable P : Event -> Prop.
Hypothesis P_print : forall t, P (EvPrint t).
Hypothesis P_stale : forall s obj b, P (EvStale s obj b).
Hypothesis P_stamp : forall s t, P (EvStamp s t).
Hypothesis P_command : forall w line ok, P (EvRun (commandArgv o w line) ok).
Hypothesis P_exec : Win64Docker o = false -> forall argv ok, P (EvRun argv ok).

Let all (st st' : State) : Prop :=
  exists evs, log st' = (log st ++ evs)%list /\ Forall P evs.

Lemma commandPrints_all (w : World) (line : string) :
  Forall P (commandPrints o w line).
Proof.
  eapply List.Forall_impl; [|apply commandPrints_isPrint].
  intros [] Hp; try destruct Hp. apply P_print.
Qed.

Lemma runCommand_all (line : string) (st : State) :
  all st (snd (runCommand H line o st)).
Proof.
  destruct (Fields line) as [|p ps] eqn:Hf.
  - rewrite (runCommand_blank H line o st Hf). cbn [snd log].
    eexists. split; [reflexivity|]. constructor; [apply P_print | constructor].
  - rewrite (runCommand_eq H line o st) by (rewrite Hf; discriminate). cbv zeta.
    destruct (runProcess H _ (world st)) as [ok w']. cbn [snd log].
    eexists. split; [reflexivity|]. apply Forall_app. split.
    + apply commandPrints_all.
    + constructor; [apply P_command | constructor].
Qed.

Lemma compileOne_all (src : string) (st : State) :
  all st (snd (compileOne H o src st)).
Proof.
  rewrite compileOne_eq. cbv zeta.
  assert (Hpre : Forall P (EvStale src (objectPath src) true ::
                           commandPrints o (world st)
                             (buildCompileCmd o src (objectPath src)))).
  { constructor; [apply P_stale | apply commandPrints_all]. }
  destruct (needsRebuild _ _ _ _).
  - destruct (runProcess H _ (world st)) as [[|] w'].
    + destruct (Stat w' src) as [i|]; cbn [snd log]; rewrite <- app_assoc;
        (eexists; split; [reflexivity|]); apply Forall_app; (split; [exact Hpre|]);
        repeat constructor; auto.
    + cbn [snd log]. rewrite <- app_assoc.
      eexists. split; [reflexivity|]. apply Forall_app. split; [exact Hpre|].
      repeat constructor; auto.
  - cbn [snd log]. eexists. split; [reflexivity|]. repeat constructor; auto.
Qed.

Lemma compileSources_all (srcs : list string) :
  forall (objs : list string) (st : State),
    all st (snd (compileSources H o srcs objs st)).
Proof.
  induction srcs as [|s rest IH]; intros objs st; simpl compileSources.
  - apply allEvents_refl.
  - destruct (negb (Test o) && isTestSource s); [apply IH|].
    unfold bind. pose proof (compileOne_all s st) as H1.
    destruct (compileOne H o s st) as [[obj [e|]] st1]; cbn [snd] in *.
    + exact H1.
    + eapply allEvents_trans; [exact H1 | apply IH].
Qed.

Lemma compileNormal_all (srcs : list string) :
  forall (objs : list string) (st : State),
    all st (snd (compileNormal H o srcs objs st)).
Proof.
  induction srcs as [|s rest IH]; intros objs st; simpl compileNormal.
  - apply allEvents_refl.
  - destruct (negb (isTestSource s)); [|apply IH].
    unfold bind. pose proof (compileOne_all s st) as H1.
    destruct (compileOne H o s st) as [[obj [e|]] st1]; cbn [snd] in *.
    + exact H1.
    + eapply allEvents_trans; [exact H1 | apply IH].
Qed.

Lemma compileAndLink_all (st : State) :
  all st (snd (compileAndLink H o st)).
Proof.
  unfold compileAndLink, bind. pose proof (compileSources_all (Sources o) [] st) as H1.
  destruct (compileSources H o (Sources o) [] st) as [[objs [e|]] st1]; cbn [snd] in *.
  - exact H1.
  - unfold linkObjects.
    pose proof (runCommand_all
                  (linkLine o objs (ensureExeSuffix H (OutputName o) (Win64Docker o))) st1)
      as H2.
    destruct (runCommand H _ o st1) as [[e|] st2]; cbn [snd] in *;
      eapply allEvents_trans; eauto.
Qed.

Lemma singleStepBuild_all (source : string) (st : State) :
  all st (snd (singleStepBuild H o source st)).
Proof.
  unfold singleStepBuild, bind. cbv zeta. unfold Println at 1, emit at 1.
  set (line := singleStepLine o source _).
  set (st0 := mkState (world st) (cache st) (log st ++ [EvPrint line])).
  assert (H0 : all st st0).
  { exists [EvPrint line]. split; [reflexivity|]. repeat constructor. apply P_print. }
  pose proof (runCommand_all line st0) as H1.
  destruct (runCommand H line o st0) as [[e|] st1]; cbn [snd] in *;
    eapply allEvents_trans; eauto.
Qed.

Lemma exec_all (argv : list string) (st : State) :
  Win64Docker o = false -> all st (snd (exec H argv st)).
Proof.
  intros Hd. unfold exec. destruct (runProcess H argv (world st)) as [ok w'].
  cbn [snd log]. eexists. split; [reflexivity|].
  constructor; [now apply P_exec | constructor].
Qed.

Lemma runTests_all (tests : list string) :
  forall (objs : list string) (st : State),
    all st (snd (runTests H o tests objs st)).
Proof.
  induction tests as [|t rest IH]; intros objs st; simpl runTests.
  - apply allEvents_refl.
  - unfold bind at 1. pose proof (compileOne_all t st) as H1.
    destruct (compileOne H o t st) as [[obj [e|]] st1]; cbn [snd] in *; [exact H1|].
    unfold bind at 1. unfold linkObjects.
    set (exe := ensureExeSuffix H (TrimSuffix obj ".o") (Win64Docker o)).
    pose proof (runCommand_all (linkLine o (obj :: objs) exe) st1) as H2.
    destruct (runCommand H _ o st1) as [[e|] st2]; cbn [snd] in *.
    + eapply allEvents_trans; eauto.
    + unfold bind at 1. unfold Println at 1, emit at 1.
      set (st3 := mkState (world st2) (cache st2) (log st2 ++ [EvPrint _])).
      assert (H3 : all st2 st3).
      { eexists. split; [reflexivity|]. repeat constructor. apply P_print. }
      assert (H03 : all st st3).
      { eapply allEvents_trans; [exact H1|]. eapply allEvents_trans; eauto. }
      case_eq (Win64Docker o); intros Hd.
      * unfold bind at 1. unfold Println at 1, emit at 1.
        set (st4 := mkState (world st3) (cache st3) (log st3 ++ [EvPrint _])).
        assert (H4 : all st3 st4).
        { eexists. split; [reflexivity|]. repeat constructor. apply P_print. }
        eapply allEvents_trans; [exact H03|].
        eapply allEvents_trans; [exact H4 | apply IH].
      * unfold bind at 1. pose proof (exec_all ["./" +:+ exe] st3 Hd) as H5.
        destruct (exec H _ st3) as [[e|] st5]; cbn [snd] in *.
        -- eapply allEvents_trans; eauto.
        -- eapply allEvents_trans; [exact H03|].
           eapply allEvents_trans; [exact H5 | apply IH].
Qed.

Lemma buildAndRunTests_all (st : State) :
  all st (snd (buildAndRunTests H o st)).
Proof.
  unfold buildAndRunTests, bind. pose proof (compileNormal_all (Sources o) [] st) as H1.
  destruct (compileNormal H o (Sources o) [] st) as [[objs [e|]] st1]; cbn [snd] in *.
  - exact H1.
  - eapply allEvents_trans; [exact H1 | apply runTests_all].
Qed.

Lemma runStep_all (st : State) :
  all st (snd (runStep H o st)).
Proof.
  unfold runStep. destruct (Run o && _); [|apply allEvents_refl].
  unfold bind at 1. unfold Println at 1, emit at 1.
  set (st1 := mkState (world st) (cache st) (log st ++ [EvPrint _])).
  assert (H1 : all st st1).
  { eexists. split; [reflexivity|]. repeat constructor. apply P_print. }
  case_eq (Win64Docker o); intros Hd.
  - unfold bind, Println, emit, ret. cbn [snd log world cache].
    eapply allEvents_trans; [exact H1|].
    eexists. split; [reflexivity|]. repeat constructor. apply P_print.
  - eapply allEvents_trans; [exact H1 | now apply exec_all].
Qed.

(** The build step: when it fails, nothing but the events of compiling
    and linking has happened. *)
Lemma buildStep_failed_all (normal tests : list string) (st : State) :
  snd (fst (buildStep H o normal tests st)) <> None ->
  all st (snd (buildStep H o normal tests st)).
Proof.
  unfold buildStep. destruct (planStrategy o normal tests) as [source|].
  - intros _. apply singleStepBuild_all.
  - unfold bind. pose proof (compileAndLink_all st) as H1.
    destruct (compileAndLink H o st) as [[o1 [e|]] st1]; cbn [fst snd] in *.
    + intros _. exact H1.
    + unfold saveCache, ret. cbn [fst snd]. congruence.
Qed.

Lemma buildStep_all (normal tests : list string) (st : State) :
  P EvSave -> all st (snd (buildStep H o normal tests st)).
Proof.
  intros Psave. unfold buildStep. destruct (planStrategy o normal tests) as [source|].
  - apply singleStepBuild_all.
  - unfold bind. pose proof (compileAndLink_all st) as H1.
    destruct (compileAndLink H o st) as [[o1 [e|]] st1]; cbn [fst snd] in *.
    + exact H1.
    + unfold saveCache, ret. cbn [fst snd log].
      eapply allEvents_trans; [exact H1|].
      eexists. split; [reflexivity|]. repeat constructor. exact Psave.
Qed.

End EventInvariant.

Lemma build_all (H : Host) (o : Options) (P : Event -> Prop)
      (normal tests : list string) (st : State) :
  (forall t, P (EvPrint t)) -> (forall s obj b, P (EvStale s obj b)) ->
  (forall s t, P (EvStamp s t)) ->
  (forall w line ok, P (EvRun (commandArgv o w line) ok)) ->
  (Win64Docker o = false -> forall argv ok, P (EvRun argv ok)) ->
  P EvSave -> (forall n, P (EvExit n)) ->
  exists evs,
    log (snd (build H o normal tests st)) = (log st ++ evs)%list /\ Forall P evs.
Proof.
  intros Pp Ps Pt Pc Pe Psave Pexit.
  assert (Hfatal : forall msg s,
            exists evs, log (snd (fatal msg s)) = (log s ++ evs)%list /\ Forall P evs).
  { intros msg s. unfold fatal, bind, Println, emit. cbn [snd log].
    rewrite <- app_assoc. eexists. split; [reflexivity|]. repeat constructor; auto. }
  unfold build. unfold bind at 1. unfold loadCache at 1.
  set (st0 := mkState (world st) _ (log st)).
  unfold bind at 1.
  pose proof (buildStep_all H o P Pp Ps Pt Pc normal tests st0 Psave) as H1.
  pose proof (buildStep_options H o normal tests st0) as Ho.
  destruct (buildStep H o normal tests st0) as [[o1 [e|]] st1]; cbn [fst snd] in *.
  - eapply (allEvents_trans P st0); [exact H1 | apply Hfatal].
  - assert (Pc1 : forall w line ok, P (EvRun (commandArgv o1 w line) ok)).
    { destruct Ho as [-> | [on ->]]; [exact Pc|].
      intros w line ok. rewrite commandArgv_setOutputName. apply Pc. }
    assert (Pe1 : Win64Docker o1 = false -> forall argv ok, P (EvRun argv ok)).
    { destruct Ho as [-> | [on ->]]; exact Pe. }
    eapply (allEvents_trans P st0); [exact H1|].
    unfold bind at 1.
    assert (H2 : exists evs,
              log (snd ((if Test o1 && (0 <? List.length tests)%nat
                         then buildAndRunTests H o1 else ret None) st1))
              = (log st1 ++ evs)%list /\ Forall P evs).
    { destruct (_ && _); [|apply allEvents_refl].
      apply (buildAndRunTests_all H o1 P Pp Ps Pt Pc1 Pe1). }
    destruct ((if Test o1 && (0 <? List.length tests)%nat
               then buildAndRunTests H o1 else ret None) st1) as [[e|] st2];
      cbn [snd] in *.
    + eapply allEvents_trans; [exact H2 | apply Hfatal].
    + eapply allEvents_trans; [exact H2|].
      unfold bind. pose proof (runStep_all H o1 P Pp Pe1 st2) as H3.
      destruct (runStep H o1 st2) as [[e|] st3]; cbn [snd] in *;
        (eapply allEvents_trans; [exact H3|]); unfold emit, Println; cbn [snd log];
        eexists; (split; [reflexivity|]); repeat constructor; auto.
Qed.

Lemma In_runsOf (argv : list string) (evs : list Event) :
  In argv (runsOf evs) -> exists ok, In (EvRun argv ok) evs.
Proof.
  induction evs as [|e evs IH]; [intros []|].
  change (e :: evs) with ([e] ++ evs)%list. rewrite runsOf_app, in_app_iff.
  intros [Hin | Hin].
  - destruct e; try destruct Hin as [Hin | []]; try destruct Hin.
    subst. eexists. left. reflexivity.
  - destruct (IH Hin) as [ok Hok]. exists ok. right. exact Hok.
Qed.

(** X18. With [--win64-docker] every process a build starts, for compiling,
    linking, in test mode and with [run], is a docker process: no test
    and no produced executable is started on the host. *)
Theorem cross_build_runs_docker_only (H : Host) (o : Options)
        (normal tests : list string) (st : State) :
  Win64Docker o = true ->
  exists evs,
    log (snd (build H o normal tests st)) = (log st ++ evs)%list /\
    Forall onDocker evs /\
    (forall argv, In argv (runsOf evs) -> exists rest, argv = "docker" :: rest).
Proof.
  intros Hd.
  destruct (build_all H o onDocker normal tests st) as (evs & Hlog & Hall);
    try (intros; exact I).
  - intros w line ok. rewrite (commandArgv_docker o w line Hd). now eexists.
  - congruence.
  - exists evs. split; [exact Hlog|]. split; [exact Hall|].
    intros argv Hin. apply In_runsOf in Hin. destruct Hin as [ok Hin].
    rewrite List.Forall_forall in Hall. exact (Hall _ Hin).
Qed.

Lemma cross_build_runs_docker_only_witness :
  exists evs,
    log (snd (build Reference.host optionsCross (normalOf (Sources optionsCross))
                (testsOf (Sources optionsCross))
                (mkState (worldB "/home/u/proj") ∅ []))) = ([] ++ evs)%list /\
    Forall onDocker evs /\
    (forall argv, In argv (runsOf evs) -> exists rest, argv = "docker" :: rest).
Proof.
  apply (cross_build_runs_docker_only Reference.host optionsCross
           (normalOf (Sources optionsCross)) (testsOf (Sources optionsCross))
           (mkState (worldB "/home/u/proj") ∅ [])).
  vm_compute. reflexivity.
Defined.

(** ** A build that fails *)

(** X19. When the build step fails, the run ends there: its log is the
    events of that step, none of which writes the cache file, then the
    message and exit status 1.  No test is built and nothing is run. *)
Theorem failed_build_saves_nothing (H : Host) (o : Options)
        (normal tests : list string) (st : State) :
  snd (fst (buildStep H o normal tests (snd (loadCache st)))) <> None ->
  exists evs,
    log (snd (build H o normal tests st)) =
      (log st ++ evs ++ [EvPrint "Build error:"; EvExit 1])%list /\
    Forall notSave evs /\
    log (snd (buildStep H o normal tests (snd (loadCache st)))) = (log st ++ evs)%list.
Proof.
  intros Hfail.
  destruct (buildStep_failed_all H o notSave) with (normal := normal) (tests := tests)
                                                  (st := snd (loadCache st))
    as (evs & Hlog & Hall); try (intros; exact I); [exact Hfail|].
  exists evs. split; [|split; [exact Hall | exact Hlog]].
  unfold build. unfold bind at 1.
  change (loadCache st) with (tt, snd (loadCache st)). cbv iota.
  unfold bind at 1.
  destruct (buildStep H o normal tests (snd (loadCache st))) as [[o1 [e|]] st1];
    cbn [fst snd] in *; [|congruence].
  unfold fatal, bind, Println, emit. cbn [snd log]. rewrite Hlog.
  now rewrite <- !app_assoc.
Qed.

Lemma failed_build_saves_nothing_witness :
  let o := plannedOptions Reference.host worldGone (parseArgs []) in
  let st := mkState worldGone ∅ [] in
  exists evs,
    log (snd (build Reference.host o (normalOf (Sources o)) (testsOf (Sources o)) st)) =
      (log st ++ evs ++ [EvPrint "Build error:"; EvExit 1])%list /\
    Forall notSave evs /\
    log (snd (buildStep Reference.host o (normalOf (Sources o)) (testsOf (Sources o))
                (snd (loadCache st)))) = (log st ++ evs)%list.
Proof.
  apply (failed_build_saves_nothing Reference.host
           (plannedOptions Reference.host worldGone (parseArgs []))).
  vm_compute. discriminate.
Defined.

(** ** Building again *)



(** ** One source changed *)

Section OneStale.

Variable H : Host.
Variable o : Options.
Hypothesis tools : toolchainKeepsObjects H o.
Variable s : string.

Let keep (x : string) : bool := negb (negb (Test o) && isTestSource x).
Let upToDate (st : State) (x : string) : Prop :=
  needsRebuild (world st) x (objectPath x) (cache st) = false.

Lemma compileSources_one_stale (srcs : list string) :
  forall (objs : list string) (st : State),
    List.NoDup srcs -> incl srcs (Sources o) ->
    In s srcs -> keep s = true ->
    needsRebuild (world st) s (objectPath s) (cache st) = true ->
    (forall x, In x (keptSources o) -> x <> s -> upToDate st x) ->
    exists evs,
      log (snd (compileSources H o srcs objs st)) = (log st ++ evs)%list /\
      runsOf evs = [commandArgv o (world st) (buildCompileCmd o s (objectPath s))].
Proof.
  induction srcs as [|x rest IH]; intros objs st Hnd Hincl Hin Hks Hstale Hup;
    [destruct Hin|].
  inversion Hnd as [|? ? Hnotin Hnd']; subst.
  assert (Hincl' : incl rest (Sources o)) by (intros y Hy; apply Hincl; now right).
  assert (Hkept : forall y, In y (x :: rest) -> keep y = true -> In y (keptSources o)).
  { intros y Hy Hk. unfold keptSources. apply filter_In. split; [apply Hincl, Hy | exact Hk]. }
  simpl compileSources.
  assert (Hkeepx : keep x = negb (negb (Test o) && isTestSource x)) by reflexivity.
  destruct (negb (Test o) && isTestSource x); cbn [negb] in Hkeepx;
    [apply IH; auto; destruct Hin as [-> | Hin]; [congruence | exact Hin]|].
  rename Hkeepx into Hkx.
  - (* [x] is compiled *)
    unfold bind. rewrite compileOne_eq. cbv zeta.
    destruct (string_dec x s) as [-> | Hne].
    + (* the stale source *)
      rewrite Hstale.
      pose proof (compileOne_upToDate H o tools s st (Hkept s (or_introl eq_refl) Hks))
        as Hone.
      rewrite compileOne_eq in Hone. cbv zeta in Hone. rewrite Hstale in Hone.
      set (line := buildCompileCmd o s (objectPath s)) in *.
      set (argv := commandArgv o (world st) line) in *.
      destruct (commandPrints_quiet o (world st) line) as [Hq _].
      destruct (runProcess H argv (world st)) as [[|] w'].
      * assert (Hrest : forall st1,
                  (forall x, In x (keptSources o) -> upToDate st x -> upToDate st1 x) ->
                  forall objs1 pre,
                    log st1 = (log st ++ pre)%list -> runsOf pre = [argv] ->
                    exists evs,
                      log (snd (compileSources H o rest objs1 st1)) = (log st ++ evs)%list /\
                      runsOf evs = [argv]).
        { intros st1 Hkeep objs1 pre Hlog1 Hruns1.
          destruct (compileSources_fresh H o rest objs1 st1)
            as (_ & _ & _ & evs & Hlog & Hr & _).
          { intros y Hy Hk. apply Hkeep; [apply Hkept; [now right | exact Hk]|].
            apply Hup; [apply Hkept; [now right | exact Hk]|].
            intros ->. contradiction. }
          cbv zeta in Hlog. exists (pre ++ evs)%list.
          split; [now rewrite Hlog, Hlog1, app_assoc|].
          now rewrite runsOf_app, Hr, Hruns1. }
        destruct (Stat w' s) as [i|]; cbn [fst snd] in *;
          (eapply Hrest; [exact (proj2 (Hone eq_refl)) | cbn [log]; rewrite <- app_assoc;
                                                          reflexivity |]);
          change (EvStale s (objectPath s) true :: ?l)
            with ([EvStale s (objectPath s) true] ++ l)%list;
          rewrite !runsOf_app, Hq; reflexivity.
      * unfold ret. cbn [snd log]. rewrite <- app_assoc. eexists. split; [reflexivity|].
        change (EvStale s (objectPath s) true :: ?l)
          with ([EvStale s (objectPath s) true] ++ l)%list.
        rewrite !runsOf_app, Hq. reflexivity.
    + (* a source that is up to date *)
      assert (Hx : needsRebuild (world st) x (objectPath x) (cache st) = false).
      { apply Hup; [apply Hkept; [now left | exact Hkx] | exact Hne]. }
      rewrite Hx.
      set (st1 := mkState (world st) (cache st) (log st ++ [EvStale x (objectPath x) false])).
      destruct (IH (objs ++ [objectPath x])%list st1 Hnd' Hincl') as (evs & Hlog & Hr);
        [destruct Hin as [-> | Hin]; [congruence | exact Hin] | exact Hks
         | exact Hstale | exact Hup |].
      exists ([EvStale x (objectPath x) false] ++ evs)%list.
      split; [rewrite Hlog; unfold st1; cbn [log]; now rewrite <- app_assoc|].
      rewrite runsOf_app. exact Hr.
Qed.

End OneStale.



(** ** Runs that build nothing *)

Lemma quiet_event (st : State) (w : World) (cc : gmap string Z) (e : Event) :
  runsOf [e] = [] -> e <> EvSave ->
  exists evs,
    log (mkState w cc (log st ++ [e])) = (log st ++ evs)%list /\
    runsOf evs = [] /\ ~ In EvSave evs.
Proof.
  intros Hr He. exists [e]. split; [reflexivity|]. split; [exact Hr|].
  intros [Hx | []]. congruence.
Qed.

(** X22. With [--version] or [version], with [clean], with [pro], and in a
    directory without sources, [main] starts no compiler, no linker and no
    program, and does not write the cache file. *)
Theorem main_builds_nothing (H : Host) (o : Options) (st : State) :
  Version o = true \/ Clean o = true \/ Pro o = true \/
  discoverSources (world st) = [] ->
  exists evs,
    log (snd (mainWith H o st)) = (log st ++ evs)%list /\
    runsOf evs = [] /\ ~ In EvSave evs.
Proof.
  intros Hmode.
  destruct (Version o) eqn:Hv.
  { unfold mainWith. rewrite Hv. unfold Println, emit. cbn [snd].
    apply quiet_event; [reflexivity | discriminate]. }
  destruct (Clean o) eqn:Hc.
  { unfold mainWith. rewrite Hv. unfold bind, getWorld.
    set (o0 := adjustCompiler (setDetectedDistro o (distroName H))).
    destruct (adjustCompiler_fields (setDetectedDistro o (distroName H)))
      as (_ & _ & _ & _ & _ & A6 & _).
    fold o0 in A6. cbn [Clean setDetectedDistro] in A6. rewrite Hc in A6.
    rewrite A6. rewrite andb_false_r.
    destruct (classify_fields H (world st) o0 (discoverSources (world st)))
      as (_ & _ & _ & _ & _ & _ & C7 & _).
    rewrite C7, A6. unfold emit. cbn [snd].
    apply quiet_event; [reflexivity | discriminate]. }
  destruct (discoverSources (world st)) as [|s0 srcs] eqn:Hsrc.
  { unfold mainWith. rewrite Hv. unfold bind, getWorld. rewrite Hsrc.
    destruct (adjustCompiler_fields (setDetectedDistro o (distroName H)))
      as (_ & _ & _ & _ & _ & A6 & _).
    cbn [Clean setDetectedDistro] in A6. rewrite Hc in A6. rewrite A6.
    cbn [List.length Nat.eqb andb negb]. unfold Println, emit. cbn [snd].
    apply quiet_event; [reflexivity | discriminate]. }
  assert (Hp : Pro o = true).
  { destruct Hmode as [Hx | [Hx | [Hx | Hx]]]; congruence. }
  rewrite mainWith_planned by (rewrite ?Hsrc; congruence). cbv zeta.
  set (o1 := plannedOptions H (world st) o).
  destruct (plannedOptions_fields H (world st) o)
    as (_ & _ & _ & _ & _ & _ & P7 & _).
  fold o1 in P7. rewrite Hp in P7.
  unfold bind.
  destruct (missingHeaders H (world st) o1) as [|h hs].
  - unfold ret. rewrite P7. unfold generateProFile, emit. cbn [snd].
    apply quiet_event; [reflexivity | discriminate].
  - destruct (pkgDiscovery_spec H o1 (h :: hs) st) as (o' & evs & Hfl & Hpr & _ & _ & Heq).
    rewrite Heq. destruct (flagsOnly_switches o1 o' Hfl) as (_ & Hpro & _).
    assert (Hnosave : ~ In EvSave evs).
    { intros Hin. rewrite List.Forall_forall in Hpr. exact (Hpr _ Hin). }
    destruct (Sloppy o1).
    + rewrite Hpro, P7. unfold generateProFile, emit. cbn [snd log].
      rewrite app_nil_r, <- app_assoc. eexists. split; [reflexivity|].
      rewrite runsOf_app, (Forall_isPrint_runsOf evs Hpr). split; [reflexivity|].
      rewrite in_app_iff. intros [Hx | [Hx | []]]; [tauto | discriminate].
    + unfold ret. cbn [snd log]. eexists. split; [reflexivity|].
      rewrite runsOf_app, (Forall_isPrint_runsOf evs Hpr). split; [reflexivity|].
      rewrite in_app_iff. intros [Hx | [Hx | []]]; [tauto | discriminate].
Qed.

Lemma main_builds_nothing_witness :
  exists evs,
    log (snd (mainWith Reference.host (parseArgs ["clean"; "run"])
                (mkState (worldB "/home/u/proj") ∅ []))) = ([] ++ evs)%list /\
    runsOf evs = [] /\ ~ In EvSave evs.
Proof.
  apply (main_builds_nothing Reference.host (parseArgs ["clean"; "run"])
           (mkState (worldB "/home/u/proj") ∅ [])).
  right. left. reflexivity.
Defined.
